(** * weekend-warrior: the git-history-to-steps pipeline

    A shallow embedding of the TypeScript sources that turn a git history
    into tutorial steps:

    - [scripts/sync-data.ts]   (module [SyncData]): the build script that
      reads [git log], extracts STEP.md / OUTPUT.md per commit and writes
      the step files and the manifest [project.json];
    - [src/utils/steps.ts]     (module [StepsTs]): [getSteps], the variant
      that pairs commits with the H1 sections of one combined STEPS.md;
    - [src/utils/git.ts]       (module [GitTs]): [getFileContent],
      [getChangedFiles], [getCommitFiles]; and (module [Shell]) the
      command text of [getFileContent] as the shell reads it;
    - [src/components/Workspace.tsx] (module [Workspace]): the body of the
      effect that fills the diff view;
    - [scripts/build-site.ts]  (modules [BuildSite], [BuildArgs]): the
      guards in front of the sync script, and the parsing of its
      arguments with the base directory [astro.config.mjs] reads;
    - [src/components/Workspace.tsx] (modules [Viewer], [Highlight]):
      the hidden files, the file shown first, the automatic mode,
      [escapeHtml] and the language given to the highlighter;
    - [src/utils/project.ts]   (module [ProjectTs]): [getTitleLines];
    - the [getSteps] that reads the content collection (module
      [StepsCollection]);
    - step 1 of the sync script, README.md (modules [RegExp] and
      [Readme]): its three regular expressions, run by a backtracking
      matcher.

    JavaScript strings are modelled by [string]; a character stands for
    one code unit below 256 (so the only line terminators are LF and CR;
    U+2028 and U+2029 are out of range).  [toUpperCase] takes two of
    these code units out of that range: U+00B5 to U+039C and U+00FF to
    U+0178.  So that the strings are closed under it, the characters
    128 and 129 stand for U+039C and U+0178, in place of the control
    codes U+0080 and U+0081, which are left out; no class of characters
    the sources use (white space, word characters, line terminators,
    digits, the punctuation they look for) tells the ones from the
    others.  [execSync] is modelled by its outcome: the bytes (or text)
    the command printed, or a thrown exception. *)

From Stdlib Require Import List String Ascii Bool Arith Lia.
From Stdlib.Strings Require Import Byte.
From Stdlib Require Import DecimalString DecimalNat DecimalFacts.
Import ListNotations.
Open Scope list_scope.
Open Scope string_scope.

(** ** JavaScript primitives used by the sources *)

Module JS.

Definition LF : ascii := ascii_of_nat 10.
Definition CR : ascii := ascii_of_nat 13.
Definition SP : ascii := " "%char.
Definition DQUOTE : ascii := ascii_of_nat 34.

(** LineTerminator of the regular-expression grammar ([.] excludes it,
    [^] and [$] with the [m] flag look at it). *)
Definition isLineTerminator (c : ascii) : bool :=
  Ascii.eqb c LF || Ascii.eqb c CR.

(** The class [\s] (WhiteSpace and LineTerminator): TAB, LF, VT, FF, CR,
    SP and NBSP; also what [String.prototype.trim] strips. *)
Definition isSpace (c : ascii) : bool :=
  let n := nat_of_ascii c in
  Nat.eqb n 9 || Nat.eqb n 10 || Nat.eqb n 11 || Nat.eqb n 12
  || Nat.eqb n 13 || Nat.eqb n 32 || Nat.eqb n 160.

Definition isLower (c : ascii) : bool :=
  let n := nat_of_ascii c in Nat.leb 97 n && Nat.leb n 122.

Definition isUpper (c : ascii) : bool :=
  let n := nat_of_ascii c in Nat.leb 65 n && Nat.leb n 90.

Definition isDigit (c : ascii) : bool :=
  let n := nat_of_ascii c in Nat.leb 48 n && Nat.leb n 57.

(** The class [\w]: [A-Za-z0-9_]. *)
Definition isWord (c : ascii) : bool :=
  isLower c || isUpper c || isDigit c || Ascii.eqb c "_"%char.

(** The characters that stand for U+039C and U+0178, the upper case of
    U+00B5 and U+00FF. *)
Definition CAPITAL_MU : ascii := ascii_of_nat 128.
Definition CAPITAL_Y_DIAERESIS : ascii := ascii_of_nat 129.

(** [toUpperCase] on a code unit whose upper case is one code unit:
    [a-z], the Latin-1 letters U+00E0 to U+00FE (the sign U+00F7 is no
    letter), U+00B5 and U+00FF change, and the others are left as they
    are. *)
Definition upperChar (c : ascii) : ascii :=
  let n := nat_of_ascii c in
  if isLower c then ascii_of_nat (n - 32)
  else if Nat.leb 224 n && Nat.leb n 254 && negb (Nat.eqb n 247)
       then ascii_of_nat (n - 32)
  else if Nat.eqb n 181 then CAPITAL_MU
  else if Nat.eqb n 255 then CAPITAL_Y_DIAERESIS
  else c.

(** [toUpperCase] on one code unit: the upper case of U+00DF is [SS]. *)
Definition upper (c : ascii) : string :=
  if Nat.eqb (nat_of_ascii c) 223 then "SS" else String (upperChar c) EmptyString.

Fixpoint toUpperCase (s : string) : string :=
  match s with
  | EmptyString => EmptyString
  | String c s' => upper c ++ toUpperCase s'
  end.

(** [s.charAt(0)]: the first code unit as a string, or the empty string. *)
Definition charAt0 (s : string) : string :=
  match s with
  | EmptyString => EmptyString
  | String c _ => String c EmptyString
  end.

(** [s.split(sep)] for a separator of one code unit, as the first piece
    and the pieces after it: the result of [split] is never empty, which
    is what the destructuring [[hash, ...msgParts]] relies on. *)
Fixpoint splitParts (sep : ascii) (s : string) : string * list string :=
  match s with
  | EmptyString => (EmptyString, [])
  | String c s' =>
      let (p, ps) := splitParts sep s' in
      if Ascii.eqb c sep then (EmptyString, p :: ps) else (String c p, ps)
  end.

Definition split (sep : ascii) (s : string) : list string :=
  let (p, ps) := splitParts sep s in p :: ps.

(** [parts.join(sep)]. *)
Fixpoint join (sep : string) (parts : list string) : string :=
  match parts with
  | [] => EmptyString
  | p :: ps =>
      match ps with
      | [] => p
      | _ :: _ => p ++ sep ++ join sep ps
      end
  end.

(** Truthiness of a string: [Boolean(s)], [!!s], [if (s)]. *)
Definition truthy (s : string) : bool :=
  match s with
  | EmptyString => false
  | String _ _ => true
  end.

(** [a || b] on strings. *)
Definition orElse (a b : string) : string := if truthy a then a else b.

Fixpoint trimStart (s : string) : string :=
  match s with
  | EmptyString => EmptyString
  | String c s' => if isSpace c then trimStart s' else s
  end.

Fixpoint trimEnd (s : string) : string :=
  match s with
  | EmptyString => EmptyString
  | String c s' =>
      match trimEnd s' with
      | EmptyString => if isSpace c then EmptyString else String c EmptyString
      | String d t => String c (String d t)
      end
  end.

Definition trim (s : string) : string := trimEnd (trimStart s).

(** [s.replace(/-/g, ' ')]. *)
Fixpoint replaceDashes (s : string) : string :=
  match s with
  | EmptyString => EmptyString
  | String c s' =>
      String (if Ascii.eqb c "-"%char then SP else c) (replaceDashes s')
  end.

(** [s.replace(/\b\w/g, c => c.toUpperCase())].  [\b\w] matches a word
    character whose predecessor is not one (or that starts the input);
    [prevWord] tells whether the code unit before [s] is a word
    character.  The upper case of a word character is one code unit. *)
Fixpoint upperAtWordStart (prevWord : bool) (s : string) : string :=
  match s with
  | EmptyString => EmptyString
  | String c s' =>
      String (if isWord c && negb prevWord then upperChar c else c)
             (upperAtWordStart (isWord c) s')
  end.

(** [n.toString()] for a non-negative integer (an array index). *)
Definition toString (n : nat) : string :=
  NilEmpty.string_of_uint (Nat.to_uint n).

(** The longest prefix without a line terminator: what a greedy [.*]
    consumes. *)
Fixpoint lineRun (s : string) : string :=
  match s with
  | EmptyString => EmptyString
  | String c s' =>
      if isLineTerminator c then EmptyString else String c (lineRun s')
  end.

(** [(.+)$] under the [m] flag, matched at the start of [s]: the greedy
    run stops at a line terminator or at the end of the input, where
    [$] holds, so the first attempt succeeds iff the run is non-empty. *)
Definition dotPlusEol (s : string) : option string :=
  match lineRun s with
  | EmptyString => None
  | String c r => Some (String c r)
  end.

(** [\s*(.+)$] at the start of [s], by backtracking: the greedy star
    first tries to take one more white-space unit, and gives it back
    when the rest of the pattern fails after it. *)
Fixpoint spacesThenText (s : string) : option string :=
  match s with
  | EmptyString => dotPlusEol s
  | String c s' =>
      if isSpace c then
        match spacesThenText s' with
        | Some t => Some t
        | None => dotPlusEol s
        end
      else dotPlusEol s
  end.

(** [#\s+(.+)$] at the start of [s]; the result is capture group 1. *)
Definition h1At (s : string) : option string :=
  match s with
  | String h (String c s') =>
      if Ascii.eqb h "#"%char && isSpace c then spacesThenText s' else None
  | _ => None
  end.

(** [s.match(/^#\s+(.+)$/m)], reduced to capture group 1 of the leftmost
    match.  [bol] tells whether [^] holds at the start of [s] (start of
    the input, or just after a line terminator). *)
Fixpoint matchH1From (bol : bool) (s : string) : option string :=
  match s with
  | EmptyString => None
  | String c s' =>
      match (if bol then h1At s else None) with
      | Some t => Some t
      | None => matchH1From (isLineTerminator c) s'
      end
  end.

Definition matchH1 (s : string) : option string := matchH1From true s.

(** [s.split(/^# /m)]: the input is cut at every [# ] that starts a
    line (matches cannot overlap: after one, the previous code unit is
    a space).  As for [splitParts], the first piece and the others. *)
Fixpoint splitH1From (bol : bool) (s : string) : string * list string :=
  match s with
  | EmptyString => (EmptyString, [])
  | String c s' =>
      match bol, Ascii.eqb c "#"%char, s' with
      | true, true, String d s'' =>
          if Ascii.eqb d SP then
            let (p, ps) := splitH1From false s'' in (EmptyString, p :: ps)
          else
            let (p, ps) := splitH1From (isLineTerminator c) s' in
            (String c p, ps)
      | _, _, _ =>
          let (p, ps) := splitH1From (isLineTerminator c) s' in
          (String c p, ps)
      end
  end.

Definition splitH1 (s : string) : list string :=
  let (p, ps) := splitH1From true s in p :: ps.

(** [part.indexOf('\n')], as the text before the first LF and, when
    there is one, the text from it on ([None] is the index [-1]). *)
Fixpoint cutAtLF (s : string) : string * option string :=
  match s with
  | EmptyString => (EmptyString, None)
  | String c s' =>
      if Ascii.eqb c LF then (EmptyString, Some s)
      else let (a, b) := cutAtLF s' in (String c a, b)
  end.

End JS.

(** ** Calls that may throw, and scripts that write files *)

(** The outcome of an expression that may throw. *)
Inductive result (A : Type) : Type :=
| Ok (a : A)
| Throw.
Arguments Ok {A} a.
Arguments Throw {A}.

Definition bind {A B : Type} (r : result A) (k : A -> result B) : result B :=
  match r with
  | Ok a => k a
  | Throw => Throw
  end.

(** [try { body } catch (e) { handler }]. *)
Definition tryCatch {A : Type} (body handler : result A) : result A :=
  match body with
  | Ok a => Ok a
  | Throw => handler
  end.

Fixpoint mapM {A B : Type} (f : A -> result B) (l : list A) : result (list B) :=
  match l with
  | [] => Ok []
  | a :: l' => bind (f a) (fun b => bind (mapM f l') (fun bs => Ok (b :: bs)))
  end.

(** [array.map((x, index) => f(index, x))], the index starting at [i]. *)
Fixpoint mapi {A B : Type} (f : nat -> A -> B) (i : nat) (l : list A) : list B :=
  match l with
  | [] => []
  | a :: l' => f i a :: mapi f (S i) l'
  end.

(** ** The source repository as git shows it *)

(** One commit of the history: its full object name, the length of the
    abbreviation [%h] prints for it (git's choice: core.abbrev, made
    longer where needed to stay unambiguous), its subject [%s] and its
    author date as [%ai] prints it. *)
Record Commit : Type := mkCommit {
  c_hash : string;
  c_abbrev : nat;
  c_subject : string;
  c_date : string
}.

(** What the git commands the sources run return.  [history] lists the
    commits reachable from HEAD, oldest first; it is empty when the
    location is not a repository or has no commit yet, and [git log]
    then exits with a failure.  The other fields are the outcomes of
    [execSync] on the command named. *)
Record Git : Type := mkGit {
  history : list Commit;
  (** [execSync] of the command text [git show <rev>:<path>], the two
      texts pasted in as they are: the raw buffer *)
  showBuffer : string -> string -> result (list byte);
  (** [git show <rev>:<path>] with [encoding: 'utf-8'] *)
  showText : string -> string -> result string;
  (** [git ls-tree -r --name-only <rev>] *)
  lsTree : string -> result string;
  (** [git show --format= --name-only <rev>] *)
  showNameOnly : string -> result string;
  (** [git remote get-url origin] *)
  remoteGetUrl : result string
}.

Module GitLog.

Definition nl : string := String JS.LF EmptyString.

(** [%h]: the abbreviated object name, a prefix of the full one. *)
Definition abbrevHash (c : Commit) : string :=
  substring 0 (c_abbrev c) (c_hash c).

Fixpoint lines (l : list string) : string :=
  match l with
  | [] => EmptyString
  | x :: l' => x ++ nl ++ lines l'
  end.

(** A line of the log under [--format="%h %s"], and under
    [--oneline --no-abbrev-commit]. *)
Definition shortLine (c : Commit) : string := abbrevHash c ++ " " ++ c_subject c.
Definition fullLine (c : Commit) : string := c_hash c ++ " " ++ c_subject c.

(** [git log --oneline --reverse --format="%h %s"]. *)
Definition logShort (g : Git) : result string :=
  match history g with
  | [] => Throw
  | _ :: _ =>
      Ok (lines (map shortLine (history g)))
  end.

(** [git log --oneline --reverse --no-abbrev-commit]. *)
Definition logFull (g : Git) : result string :=
  match history g with
  | [] => Throw
  | _ :: _ =>
      Ok (lines (map fullLine (history g)))
  end.

(** [git log --reverse --format="%ai" | head -1] with
    [shell: '/bin/bash']: [bash] tells whether that shell can be
    spawned, and [execSync] throws when it cannot.  When it runs, the
    exit status is the one of [head], so a failing [git log] gives
    empty output and no exception. *)
Definition logFirstDate (bash : bool) (g : Git) : result string :=
  if bash then
    match history g with
    | [] => Ok EmptyString
    | c :: _ => Ok (c_date c ++ nl)
    end
  else Throw.

(** [git log -1 --format="%ai"]. *)
Definition logLastDate (g : Git) : result string :=
  match rev (history g) with
  | [] => Throw
  | c :: _ => Ok (c_date c ++ nl)
  end.

Definition isHex (c : ascii) : bool :=
  let n := nat_of_ascii c in
  JS.isDigit c || (Nat.leb 97 n && Nat.leb n 102).

Fixpoint allChars (p : ascii -> bool) (s : string) : bool :=
  match s with
  | EmptyString => true
  | String c s' => p c && allChars p s'
  end.

(** A commit as git prints it: a name in lower-case hexadecimal digits
    (40 of them under SHA-1, 64 under SHA-256), an abbreviation of at
    least 4 digits and at most the whole name, a subject on one line. *)
Definition wfCommit (c : Commit) : bool :=
  allChars isHex (c_hash c)
  && Nat.leb 4 (c_abbrev c) && Nat.leb (c_abbrev c) (String.length (c_hash c))
  && allChars (fun x => negb (Ascii.eqb x JS.LF)) (c_subject c).

Definition wfHistory (g : Git) : bool := forallb wfCommit (history g).

End GitLog.

(** ** scripts/sync-data.ts *)

Module SyncData.
Import GitLog.

(** Where the script writes: [STEPS_DIR], [DOCS_DIR] and [DATA_FILE]
    under the site directory, and [path.join(dir, name)]. *)
Inductive Path : Type :=
| STEPS_DIR
| DOCS_DIR
| DATA_FILE
| Join (dir : Path) (name : string).

(** [interface ProjectConfig]: each field may be absent. *)
Record ProjectConfig : Type := mkConfig {
  cfg_title : option string;
  cfg_description : option string;
  cfg_docNumber : option string
}.

Definition emptyConfig : ProjectConfig := mkConfig None None None.

(** A record of [commits]: [{ hash, message }]. *)
Record CommitInfo : Type := mkCommitInfo {
  hash : string;
  message : string
}.

(** An entry of [steps], as stored in the manifest. *)
Record StepMeta : Type := mkStepMeta {
  id : string;
  title : string;
  commit : string;
  slug : string;
  commitMessage : string;
  hasOutput : bool
}.

(** [projectData], the manifest written to [project.json]. *)
Record ProjectData : Type := mkProjectData {
  pd_title : string;
  pd_description : string;
  pd_repoName : string;
  pd_repoPath : string;
  pd_repoUrl : string;
  pd_startDate : string;
  pd_lastDate : string;
  pd_docNumber : string;
  pd_steps : list StepMeta
}.

(** The file-system calls of the script, each taken to succeed.
    [WriteJson] is [fs.writeFileSync(p, JSON.stringify(data, null, 2))]. *)
Inductive Effect : Type :=
| RmSync (p : Path)
| MkdirSync (p : Path)
| WriteFileSync (p : Path) (data : string)
| WriteJson (p : Path) (data : ProjectData).

(** What a run of the script depends on. *)
Record Env : Type := mkEnv {
  git : Git;
  (** [SOURCE_REPO] and [path.basename(SOURCE_REPO)] *)
  SOURCE_REPO : string;
  sourceBasename : string;
  (** [fs.existsSync(STEPS_DIR)], [fs.existsSync(DOCS_DIR)] *)
  stepsDirExists : bool;
  docsDirExists : bool;
  (** README.md of the working tree as [readFileSync] returns it, when
      [existsSync] finds it *)
  readme : option string;
  (** [new Date().toISOString().split('T')[0]] *)
  today : string;
  (** [/bin/bash] is there to be spawned *)
  bashRuns : bool
}.

(** A script: the file-system calls made so far, and a value or an
    uncaught exception. *)
Definition Script (A : Type) : Type := (list Effect * result A)%type.

Definition ret {A : Type} (a : A) : Script A := ([], Ok a).
Definition emit (es : list Effect) : Script unit := (es, Ok tt).
Definition exec {A : Type} (r : result A) : Script A := ([], r).

Definition andThen {A B : Type} (m : Script A) (k : A -> Script B) : Script B :=
  match m with
  | (es, Ok a) => let (es', r) := k a in ((es ++ es')%list, r)
  | (es, Throw) => (es, Throw)
  end.

Notation "x <- m ;; k" := (andThen m (fun x => k))
  (at level 61, m at next level, right associativity).
Notation "m ;;; k" := (andThen m (fun _ => k))
  (at level 61, right associativity).

(** [line => { const [hash, ...msgParts] = line.split(' ');
               return { hash, message: msgParts.join(' ') }; }] *)
Definition parseLine (line : string) : CommitInfo :=
  let (hash, msgParts) := JS.splitParts JS.SP line in
  mkCommitInfo hash (JS.join " " msgParts).

(** [logOutput.split('\n').filter(Boolean).map(parseLine)] *)
Definition commits (logOutput : string) : list CommitInfo :=
  map parseLine (filter JS.truthy (JS.split JS.LF logOutput)).

(** [title.replace(/"/g, '\\"')] *)
Fixpoint escapeQuotes (s : string) : string :=
  match s with
  | EmptyString => EmptyString
  | String c s' =>
      if Ascii.eqb c JS.DQUOTE
      then String "\"%char (String JS.DQUOTE (escapeQuotes s'))
      else String c (escapeQuotes s')
  end.

Definition quoted (s : string) : string :=
  String JS.DQUOTE (s ++ String JS.DQUOTE EmptyString).

(** The text put in place of a missing STEP.md. *)
Definition fallbackStep (msg : string) : string :=
  "# " ++ msg ++ nl ++ nl ++ "*No STEP.md found for this commit.*".

(** The [try] around [git show <hash>:STEP.md]: the step content and
    the title. *)
Definition readStep (g : Git) (c : CommitInfo) : string * string :=
  match showText g (hash c) "STEP.md" with
  | Ok stepContent =>
      (stepContent,
       match JS.matchH1 stepContent with
       | Some t => t
       | None => message c
       end)
  | Throw => (fallbackStep (message c), message c)
  end.

(** The [try] around [git show <hash>:OUTPUT.md]. *)
Definition readOutput (g : Git) (c : CommitInfo) : string :=
  match showText g (hash c) "OUTPUT.md" with
  | Ok outputContent => outputContent
  | Throw => EmptyString
  end.

Definition destStepFile (id : string) : Path := Join STEPS_DIR (id ++ ".md").
Definition destOutputFile (id : string) : Path :=
  Join STEPS_DIR (id ++ ".output.txt").

Definition fileContent (title hash id stepContent : string) : string :=
  "---" ++ nl ++
  "title: " ++ quoted (escapeQuotes title) ++ nl ++
  "commit: " ++ quoted hash ++ nl ++
  "slug: " ++ quoted id ++ nl ++
  "---" ++ nl ++ nl ++
  stepContent ++ nl.

(** The callback of [commits.map((commit, index) => ...)]: the files it
    writes and the entry it returns. *)
Definition step (g : Git) (index : nat) (c : CommitInfo)
  : list Effect * StepMeta :=
  let id := JS.toString index in
  let (stepContent, title) := readStep g c in
  let outputContent := readOutput g c in
  ((WriteFileSync (destStepFile id) (fileContent title (hash c) id stepContent)
    :: (if JS.truthy outputContent
        then [WriteFileSync (destOutputFile id) outputContent]
        else []))%list,
   mkStepMeta id title (hash c) id (message c) (JS.truthy outputContent)).

Definition steps (g : Git) (cs : list CommitInfo) : list (list Effect * StepMeta) :=
  mapi (step g) 0 cs.

(** [/\/([^\/]+?)(\.git)?$/] on the text after a slash: the lazy group
    takes the shortest non-empty prefix after which only an optional
    [.git] is left. *)
Fixpoint nameOfTail (t : string) : string :=
  match t with
  | EmptyString => EmptyString
  | String c t' =>
      if String.eqb t' ".git" || String.eqb t' EmptyString
      then String c EmptyString
      else String c (nameOfTail t')
  end.

Fixpoint afterLastSlash (s : string) : option string :=
  match s with
  | EmptyString => None
  | String c s' =>
      match afterLastSlash s' with
      | Some t => Some t
      | None => if Ascii.eqb c "/"%char then Some s' else None
      end
  end.

(** [repoUrl.match(/\/([^\/]+?)(\.git)?$/)], capture group 1: the group
    cannot cross a slash, so only the last slash can start a match, and
    only when something follows it. *)
Definition urlMatch (repoUrl : string) : option string :=
  match afterLastSlash repoUrl with
  | Some (String c t) => Some (nameOfTail (String c t))
  | _ => None
  end.

(** Step 4: [repoUrl] and [repoName]. *)
Definition repoInfo (e : Env) : string * string :=
  match remoteGetUrl (git e) with
  | Ok out =>
      let repoUrl := JS.trim out in
      (repoUrl,
       match urlMatch repoUrl with
       | Some n => n
       | None => sourceBasename e
       end)
  | Throw => (EmptyString, sourceBasename e)
  end.

Definition repoUrl (e : Env) : string := fst (repoInfo e).
Definition repoName (e : Env) : string := snd (repoInfo e).

(** [out.trim().split(' ')[0]] *)
Definition dateOf (out : string) : string :=
  fst (JS.splitParts JS.SP (JS.trim out)).

(** Step 5: [startDate] and [lastDate], both today's date at first; an
    exception in the first command leaves both as they are, and one in
    the second command leaves [lastDate] at today's date. *)
Definition dates (e : Env) : string * string :=
  match logFirstDate (bashRuns e) (git e) with
  | Ok o1 =>
      match logLastDate (git e) with
      | Ok o2 => (dateOf o1, dateOf o2)
      | Throw => (dateOf o1, today e)
      end
  | Throw => (today e, today e)
  end.

Definition startDate (e : Env) : string := fst (dates e).
Definition lastDate (e : Env) : string := snd (dates e).

(** Step 6. *)
Definition defaultDocNumber (repoName startDate : string) : string :=
  JS.join EmptyString
    (map (fun word => JS.toUpperCase (JS.charAt0 word))
         (JS.split "-"%char repoName))
  ++ "-" ++ fst (JS.splitParts "-"%char startDate).

(** Step 7. *)
Definition defaultTitle (repoName : string) : string :=
  JS.upperAtWordStart false (JS.replaceDashes repoName).

(** [field || fallback] for an optional field. *)
Definition orDefault (field : option string) (fallback : string) : string :=
  match field with
  | Some v => JS.orElse v fallback
  | None => fallback
  end.

Section Script.

(** The three regular expressions of step 1 are kept abstract: the
    match of the frontmatter block (capture groups 1 and 2), the loop
    that reads [title], [description] and [docNumber] from its lines,
    and the removal of the first H1 of the body. *)
Variable frontmatterMatch : string -> option (string * string).
Variable parseFields : string -> ProjectConfig.
Variable dropFirstH1 : string -> string.

(** Step 1 on the text of README.md: the parsed configuration and the
    body written to [readme.md]. *)
Definition readReadme (rawReadme : string) : ProjectConfig * string :=
  match frontmatterMatch rawReadme with
  | Some (frontmatter, rest) =>
      (parseFields frontmatter, dropFirstH1 (JS.trim rest))
  | None => (emptyConfig, dropFirstH1 rawReadme)
  end.

Definition projectData (e : Env) (projectConfig : ProjectConfig)
  (steps : list StepMeta) : ProjectData :=
  mkProjectData
    (orDefault (cfg_title projectConfig) (defaultTitle (repoName e)))
    (orDefault (cfg_description projectConfig) EmptyString)
    (repoName e)
    (SOURCE_REPO e)
    (repoUrl e)
    (startDate e)
    (lastDate e)
    (orDefault (cfg_docNumber projectConfig)
               (defaultDocNumber (repoName e) (startDate e)))
    steps.

(** The whole script, top to bottom. *)
Definition main (e : Env) : Script unit :=
  emit (if stepsDirExists e then [RmSync STEPS_DIR] else []) ;;;
  emit [MkdirSync STEPS_DIR] ;;;
  emit (if docsDirExists e then [] else [MkdirSync DOCS_DIR]) ;;;
  projectConfig <-
    match readme e with
    | Some rawReadme =>
        let (cfg, readmeBody) := readReadme rawReadme in
        emit [WriteFileSync (Join DOCS_DIR "readme.md") readmeBody] ;;;
        ret cfg
    | None => ret emptyConfig
    end ;;
  logOutput <- exec (logShort (git e)) ;;
  let stepRuns := steps (git e) (commits logOutput) in
  emit (List.concat (map fst stepRuns)) ;;;
  emit [WriteJson DATA_FILE (projectData e projectConfig (map snd stepRuns))].

(** The calls made before [git log] is read, and the configuration in
    force from then on. *)
Definition setup (e : Env) : list Effect :=
  ((if stepsDirExists e then [RmSync STEPS_DIR] else [])
   ++ [MkdirSync STEPS_DIR]
   ++ (if docsDirExists e then [] else [MkdirSync DOCS_DIR])
   ++ match readme e with
      | Some rawReadme =>
          [WriteFileSync (Join DOCS_DIR "readme.md") (snd (readReadme rawReadme))]
      | None => []
      end)%list.

Definition config (e : Env) : ProjectConfig :=
  match readme e with
  | Some rawReadme => fst (readReadme rawReadme)
  | None => emptyConfig
  end.

(** The file-system calls of a run, and the manifest it wrote. *)
Definition effects (e : Env) : list Effect := fst (main e).

Definition manifest (e : Env) : option ProjectData :=
  match main e with
  | (_, Throw) => None
  | (es, Ok _) =>
      match rev es with
      | WriteJson _ d :: _ => Some d
      | _ => None
      end
  end.

End Script.

End SyncData.

(** ** scripts/build-site.ts *)

Module BuildSite.
Import SyncData.

(** The source location, once the arguments are parsed: [gitPath],
    [sourceRepo] (the resolved path, or the directory cloned into), and
    what the script finds there. *)
Record Location : Type := mkLocation {
  gitPath : string;
  sourceRepo : string;
  (** [git clone --depth=1000] succeeds *)
  cloneOk : bool;
  (** [fs.existsSync(sourceRepo)], [fs.existsSync(path.join(sourceRepo, '.git'))] *)
  pathExists : bool;
  dotGitExists : bool
}.

(** How the script ends: its last line, or [console.error(message)]
    and [process.exit(1)]. *)
Inductive Exit : Type :=
| Built
| Exit1 (message : string).

Definition isRemote (gitPath : string) : bool :=
  String.prefix "http://" gitPath || String.prefix "https://" gitPath
  || String.prefix "git@" gitPath || String.prefix "ssh://" gitPath.

(** The two [try] blocks at the end: the sync script runs as a child
    process, so its file-system calls are made and an uncaught
    exception in it makes [execSync] throw; [npmBuild] is the outcome of
    [npm run build]. *)
Definition syncAndBuild (sync : Script unit) (npmBuild : result unit)
  : list Effect * Exit :=
  match sync with
  | (es, Throw) => (es, Exit1 "Failed to sync data")
  | (es, Ok _) =>
      match npmBuild with
      | Throw => (es, Exit1 "Failed to build site")
      | Ok _ => (es, Built)
      end
  end.

Definition run (loc : Location) (sync : Script unit) (npmBuild : result unit)
  : list Effect * Exit :=
  if isRemote (gitPath loc) then
    if cloneOk loc then syncAndBuild sync npmBuild
    else ([], Exit1 "Failed to clone repository")
  else if negb (pathExists loc) then
    ([], Exit1 ("Error: Local path does not exist: " ++ sourceRepo loc))
  else if negb (dotGitExists loc) then
    ([], Exit1 ("Error: Not a git repository: " ++ sourceRepo loc))
  else syncAndBuild sync npmBuild.

End BuildSite.

(** ** src/utils/steps.ts *)

Module StepsTs.
Import GitLog.

Record Step : Type := mkStep {
  id : string;
  slug : string;
  title : string;
  commit : string;
  commitMessage : string;
  content : string
}.

Record CommitInfo : Type := mkCommitInfo {
  hash : string;
  message : string
}.

(** An element of [sections]: [{ title, content }]. *)
Record SectionEntry : Type := mkSection {
  s_title : string;
  s_content : string
}.

Definition parseLine (line : string) : CommitInfo :=
  let (hash, msgParts) := JS.splitParts JS.SP line in
  mkCommitInfo hash (JS.join " " msgParts).

(** [output.trim().split('\n').map(parseLine)] *)
Definition commits (output : string) : list CommitInfo :=
  map parseLine (JS.split JS.LF (JS.trim output)).

(** The body of the loop over [parts]: with [newlineIndex = -1] the
    calls [substring(0, -1)] and [substring(-1)] give the empty string
    and the whole part. *)
Definition sectionOf (part : string) : SectionEntry :=
  match JS.cutAtLF part with
  | (before, Some rest) => mkSection (JS.trim before) (JS.trim rest)
  | (_, None) => mkSection EmptyString (JS.trim part)
  end.

(** [for (let i = 1; i < parts.length; i++) sections.push(...)] *)
Definition sections (fileContent : string) : list SectionEntry :=
  map sectionOf (tl (JS.splitH1 fileContent)).

(** [for (let i = ...; i < count; i++) steps.push({...})], with [n]
    rounds left; [i] stays below both lengths, so the defaults of [nth]
    are never read. *)
Fixpoint merge (i n : nat) (cs : list CommitInfo) (ss : list SectionEntry)
  : list Step :=
  match n with
  | O => []
  | S n' =>
      let c := nth i cs (mkCommitInfo EmptyString EmptyString) in
      let s := nth i ss (mkSection EmptyString EmptyString) in
      mkStep (JS.toString i) (JS.toString i) (s_title s) (hash c)
             (message c) (s_content s)
      :: merge (S i) n' cs ss
  end.

(** [getSteps()]; [stepsFile] is the outcome of
    [fs.readFileSync(STEPS_PATH, 'utf-8')]. *)
Definition getSteps (g : Git) (stepsFile : result string) : list Step :=
  match logFull g with
  | Throw => []
  | Ok output =>
      let cs := commits output in
      match stepsFile with
      | Throw => []
      | Ok fileContent =>
          let ss := sections fileContent in
          merge 0 (Nat.min (List.length cs) (List.length ss)) cs ss
      end
  end.

End StepsTs.

(** ** src/utils/git.ts *)

Module GitTs.

(** [interface FileNode]: [content] and [isBinary] are optional; an
    absent [isBinary] is read as false. *)
Record FileNode : Type := mkFileNode {
  path : string;
  content : option string;
  isBinary : bool
}.

(** [{ path: filePath, isBinary: true }] and [{ path: filePath, content }] *)
Definition binaryNode (filePath : string) : FileNode :=
  mkFileNode filePath None true.
Definition textNode (filePath content : string) : FileNode :=
  mkFileNode filePath (Some content) false.

(** [contentBuffer.includes(0)] *)
Definition includes0 (contentBuffer : list byte) : bool :=
  existsb (Byte.eqb x00) contentBuffer.

(** [output.split('\n').filter(Boolean)] *)
Definition nonEmptyLines (output : string) : list string :=
  filter JS.truthy (JS.split JS.LF output).

Section Node.

(** [contentBuffer.toString('utf-8')], which may throw on a buffer too
    long for a string. *)
Variable toStringUtf8 : list byte -> result string.

(** The result [null] is [None]. *)
Definition getFileContent (g : Git) (commit filePath : string)
  : result (option string) :=
  tryCatch
    (bind (showBuffer g commit filePath) (fun contentBuffer =>
     if includes0 contentBuffer then Ok None
     else bind (toStringUtf8 contentBuffer) (fun s => Ok (Some s))))
    (Ok None).

Definition getChangedFiles (g : Git) (commit : string) : result (list string) :=
  tryCatch
    (bind (showNameOnly g commit) (fun output => Ok (nonEmptyLines output)))
    (Ok []).

(** The callback of [files.map(filePath => ...)]. *)
Definition fileNode (g : Git) (commit filePath : string) : result FileNode :=
  tryCatch
    (bind (getFileContent g commit filePath) (fun content =>
     match content with
     | None => Ok (binaryNode filePath)
     | Some c => Ok (textNode filePath c)
     end))
    (Ok (binaryNode filePath)).

Definition getCommitFiles (g : Git) (commit : string) : result (list FileNode) :=
  tryCatch
    (bind (lsTree g commit) (fun output =>
     mapM (fileNode g commit) (nonEmptyLines output)))
    (Ok []).

End Node.

End GitTs.

(** ** src/components/Workspace.tsx: the effect that fills the view *)

Module Workspace.
Import GitTs.

(** What the effect puts in [diffHtml]: one of the two notices, or the
    rendering of [Diff.createTwoFilesPatch(selectedFile, selectedFile,
    oldContent, newContent, 'Previous', 'Current')]. *)
Inductive DiffView : Type :=
| FileNotFound
| BinaryNotSupported
| TwoFilesPatch (fileName oldContent newContent : string).

(** What it puts in [highlightedCode]. *)
Inductive CodeView : Type :=
| Highlighted (content : string)
| BinaryOrEmpty.

(** [files.find(f => f.path === selectedFile)] *)
Definition findFile (files : list FileNode) (selectedFile : string)
  : option FileNode :=
  find (fun f => String.eqb (path f) selectedFile) files.

(** [file?.content || ''] *)
Definition contentOrEmpty (file : option FileNode) : string :=
  match file with
  | Some f => match content f with Some c => c | None => EmptyString end
  | None => EmptyString
  end.

(** [file?.isBinary], read as a condition. *)
Definition binary (file : option FileNode) : bool :=
  match file with
  | Some f => isBinary f
  | None => false
  end.

(** The branch [mode === 'diff']. *)
Definition diffView (files prevFiles : list FileNode) (selectedFile : string)
  : DiffView :=
  let file := findFile files selectedFile in
  let prevFile := findFile prevFiles selectedFile in
  match file, prevFile with
  | None, None => FileNotFound
  | _, _ =>
      let oldContent := contentOrEmpty prevFile in
      let newContent := contentOrEmpty file in
      if binary file || binary prevFile then BinaryNotSupported
      else TwoFilesPatch selectedFile oldContent newContent
  end.

(** The branch [mode === 'code']. *)
Definition codeView (files : list FileNode) (selectedFile : string) : CodeView :=
  match findFile files selectedFile with
  | Some f =>
      match isBinary f, content f with
      | false, Some c => if JS.truthy c then Highlighted c else BinaryOrEmpty
      | _, _ => BinaryOrEmpty
      end
  | None => BinaryOrEmpty
  end.

End Workspace.

(** ** The vocabulary of the specification *)

Module Spec.
Import GitLog.

(** The commit record the specification expects of the enumerator under
    the sync script's log format: the name as [%h] prints it, and the
    subject. *)
Definition syncRecord (c : Commit) : SyncData.CommitInfo :=
  SyncData.mkCommitInfo (abbrevHash c) (c_subject c).

(** The entries a completed run of the sync script stores, computed
    from the history itself. *)
Definition entries (g : Git) : list SyncData.StepMeta :=
  map snd (SyncData.steps g (map syncRecord (history g))).

(** The node [getCommitFiles] builds for a listed path. *)
Definition nodeFor (toStringUtf8 : list byte -> result string) (g : Git)
  (commit filePath : string) : GitTs.FileNode :=
  match GitTs.getFileContent toStringUtf8 g commit filePath with
  | Ok (Some c) => GitTs.textNode filePath c
  | _ => GitTs.binaryNode filePath
  end.

Definition startsWithSpace (s : string) : bool :=
  match s with
  | String c _ => Ascii.eqb c JS.SP
  | EmptyString => false
  end.

(** The number of H1 sections of a combined STEPS.md: the places where
    a line starts with a hash sign and a space. *)
Fixpoint countH1From (bol : bool) (s : string) : nat :=
  match s with
  | EmptyString => 0
  | String c s' =>
      (if bol && Ascii.eqb c "#"%char && startsWithSpace s' then 1 else 0)
      + countH1From (JS.isLineTerminator c) s'
  end.

(** A STEPS.md that cannot be read has no section. *)
Definition sectionCount (stepsFile : result string) : nat :=
  match stepsFile with
  | Ok fileContent => countH1From true fileContent
  | Throw => 0
  end.

(** The project title as the specification derives it from the
    repository name: dashes and underscores become spaces, and each
    word gets an upper-case first letter. *)
Fixpoint replaceSeparators (s : string) : string :=
  match s with
  | EmptyString => EmptyString
  | String c s' =>
      String (if Ascii.eqb c "-"%char || Ascii.eqb c "_"%char then JS.SP else c)
             (replaceSeparators s')
  end.

Definition capitalize (word : string) : string :=
  match word with
  | EmptyString => EmptyString
  | String c w => String (JS.upperChar c) w
  end.

Definition titleCase (s : string) : string :=
  JS.join " " (map capitalize (JS.split JS.SP s)).

Definition claimedTitle (repoName : string) : string :=
  titleCase (replaceSeparators repoName).

(** The document number as the specification derives it: the upper-case
    first letters of the words of the derived title, a dash, the year. *)
Definition initial (word : string) : string := JS.toUpperCase (JS.charAt0 word).

Definition claimedDocNumber (repoName year : string) : string :=
  JS.join EmptyString (map initial (JS.split JS.SP (claimedTitle repoName)))
  ++ "-" ++ year.

(** Repository names made of ASCII letters, digits and dashes. *)
Definition nameChar (c : ascii) : bool :=
  JS.isLower c || JS.isUpper c || JS.isDigit c || Ascii.eqb c "-"%char.

(** An author date as [%ai] prints it, [YYYY-MM-DD hh:mm:ss +zzzz],
    read as: a year of four digits, a dash, the month and day, a space,
    the rest. *)
Definition datedIn (year date : string) : Prop :=
  exists monthDay rest,
    date = year ++ "-" ++ monthDay ++ " " ++ rest
    /\ String.length year = 4
    /\ allChars JS.isDigit year = true
    /\ allChars (fun c => negb (JS.isSpace c)) monthDay = true.

(** README frontmatter is absent: there is no README, or its text does
    not match the frontmatter pattern. *)
Definition noFrontmatter (frontmatterMatch : string -> option (string * string))
  (e : SyncData.Env) : Prop :=
  match SyncData.readme e with
  | Some rawReadme => frontmatterMatch rawReadme = None
  | None => True
  end.

(** The lines of a text, cut at its line terminators. *)
Fixpoint textLines (s : string) : string * list string :=
  match s with
  | EmptyString => (EmptyString, [])
  | String c s' =>
      let (l, ls) := textLines s' in
      if JS.isLineTerminator c then (EmptyString, l :: ls) else (String c l, ls)
  end.

(** The text of an H1-style heading line: a hash sign, white space,
    then the heading text, which is not empty. *)
Definition h1Text (line : string) : option string :=
  match line with
  | String h (String c rest) =>
      if Ascii.eqb h "#"%char && JS.isSpace c then
        match JS.trimStart rest with
        | EmptyString => None
        | String d t => Some (String d t)
        end
      else None
  | _ => None
  end.

Fixpoint firstSome {A B : Type} (f : A -> option B) (l : list A) : option B :=
  match l with
  | [] => None
  | a :: l' => match f a with Some b => Some b | None => firstSome f l' end
  end.

(** The first H1-style heading of a narrative, if it has one. *)
Definition firstH1 (content : string) : option string :=
  let (l, ls) := textLines content in firstSome h1Text (l :: ls).

(** A line that is a hash sign with nothing but white space after it. *)
Definition bareHash (line : string) : bool :=
  match line with
  | String h rest => Ascii.eqb h "#"%char && allChars JS.isSpace rest
  | EmptyString => false
  end.

Definition noBareHash (content : string) : bool :=
  let (l, ls) := textLines content in
  forallb (fun x => negb (bareHash x)) (l :: ls).

End Spec.

(** ** A sample source *)

Module Example.
Import GitLog.

Definition hash0 : string := "1a2b3c4d5e6f7a8b9c0d1a2b3c4d5e6f7a8b9c0d".
Definition hash1 : string := "ffeeddccbbaa99887766554433221100ffeeddcc".

(** Two commits under git's default abbreviation.  The first commit has
    a STEP.md and no OUTPUT.md; the second has an OUTPUT.md and no
    STEP.md.  [logo.png] holds a null byte and [main.ts] is text;
    [vendor] is a submodule entry, which [git ls-tree] lists and
    [git show] cannot print; no other path exists. *)
Definition sampleHistory : list Commit :=
  [ mkCommit hash0 7 "Initial commit" "2025-11-28 10:00:00 -0500";
    mkCommit hash1 7 "Add  agent loop" "2025-11-30 09:30:00 -0500" ].

Definition stepText : string := "# Project Setup" ++ nl ++ "We start here.".

Definition sampleGit : Git :=
  mkGit sampleHistory
    (fun rev path =>
       if String.eqb path "logo.png" then Ok [x89; x50; x00; x4e]
       else if String.eqb path "main.ts" then Ok [x6f; x6b]
       else Throw)
    (fun rev path =>
       if String.eqb rev "1a2b3c4" && String.eqb path "STEP.md" then Ok stepText
       else if String.eqb rev "ffeeddc" && String.eqb path "OUTPUT.md"
            then Ok "$ npm test"
       else Throw)
    (fun rev => Ok ("logo.png" ++ nl ++ "main.ts" ++ nl ++ "vendor" ++ nl))
    (fun rev => Ok ("main.ts" ++ nl))
    (Ok ("git@github.com:user/my_repo.git" ++ nl)).

(** The same location before its first commit. *)
Definition emptyGit : Git :=
  mkGit [] (fun _ _ => Throw) (fun _ _ => Throw) (fun _ => Throw)
        (fun _ => Throw) Throw.

Definition sampleEnv : SyncData.Env :=
  SyncData.mkEnv sampleGit "/work/my_repo" "my_repo" true false None "2026-01-01"
                 true.

(** The sample on a machine without [/bin/bash]. *)
Definition noBashEnv : SyncData.Env :=
  SyncData.mkEnv sampleGit "/work/my_repo" "my_repo" true false None "2026-01-01"
                 false.

(** The double quote as a text. *)
Definition quote : string := String JS.DQUOTE EmptyString.

(** A repository name that starts with U+00E9. *)
Definition E_ACUTE : ascii := ascii_of_nat 233.
Definition CAPITAL_E_ACUTE : ascii := ascii_of_nat 201.
Definition SHARP_S : ascii := ascii_of_nat 223.
Definition accentedName : string := String E_ACUTE "dition-web".

Definition emptyEnv : SyncData.Env :=
  SyncData.mkEnv emptyGit "/work/fresh" "fresh" true false
                 (Some "Work in progress") "2026-01-01" true.

(** A first commit whose STEP.md has a hash sign alone on its first
    line, a blank line, and a sentence. *)
Definition draftStep : string := "#" ++ nl ++ nl ++ "Notes for this step.".

Definition draftGit : Git :=
  mkGit [ mkCommit hash0 7 "Initial commit" "2025-11-28 10:00:00 -0500" ]
    (fun _ _ => Throw)
    (fun rev path =>
       if String.eqb rev "1a2b3c4" && String.eqb path "STEP.md" then Ok draftStep
       else Throw)
    (fun _ => Throw) (fun _ => Throw) Throw.

Definition draftEnv : SyncData.Env :=
  SyncData.mkEnv draftGit "/work/draft" "draft" false false None "2026-01-01"
                 true.

(** A README without a frontmatter block. *)
Definition noMatch (raw : string) : option (string * string) := None.
Definition noFields (frontmatter : string) : SyncData.ProjectConfig :=
  SyncData.emptyConfig.
Definition keepBody (body : string) : string := body.

Definition sampleStepsFile : result string :=
  Ok ("# One" ++ nl ++ "first" ++ nl ++ "# Two" ++ nl ++ "second" ++ nl
      ++ "# Three" ++ nl ++ "third" ++ nl).

(** [Buffer.toString] on short ASCII buffers. *)
Definition asciiText (buf : list byte) : result string :=
  Ok (string_of_list_byte buf).

End Example.

(** ** scripts/build-site.ts: the arguments *)

Module BuildArgs.

(** [basedir.startsWith('/')] and [basedir.endsWith('/')]. *)
Definition startsWithSlash (s : string) : bool :=
  match s with
  | String c _ => Ascii.eqb c "/"%char
  | EmptyString => false
  end.

Fixpoint endsWithSlash (s : string) : bool :=
  match s with
  | EmptyString => false
  | String c s' =>
      match s' with
      | EmptyString => Ascii.eqb c "/"%char
      | String _ _ => endsWithSlash s'
      end
  end.

(** "Ensure basedir starts and ends with /". *)
Definition normalizeBase (value : string) : string :=
  let basedir := if startsWithSlash value then value else "/" ++ value in
  if endsWithSlash basedir then basedir else basedir ++ "/".

Definition isHelp (arg : string) : bool :=
  String.eqb arg "--help" || String.eqb arg "-h".

(** The branches of the loop body other than [--base <value>]: [None]
    is [usage()], which exits. *)
Definition plainArg (arg gitPath : string) : option string :=
  if isHelp arg then None
  else if JS.truthy gitPath then Some gitPath
  else Some arg.

(** The loop over [args], from the argument in front; the result is
    [gitPath] and [basedir] after the last argument. *)
Fixpoint scan (args : list string) (gitPath basedir : string)
  : option (string * string) :=
  match args with
  | [] => Some (gitPath, basedir)
  | arg :: rest =>
      match rest with
      | value :: rest' =>
          if String.eqb arg "--base" && JS.truthy value
          then scan rest' gitPath (normalizeBase value)
          else match plainArg arg gitPath with
               | Some g => scan rest g basedir
               | None => None
               end
      | [] =>
          match plainArg arg gitPath with
          | Some g => scan rest g basedir
          | None => None
          end
      end
  end.

(** How the parsing ends: with [usage()] and exit status 1, or with the
    two values the rest of the script uses. *)
Inductive Parsed : Type :=
| Usage
| Args (gitPath basedir : string).

Definition parseArgs (args : list string) : Parsed :=
  match args with
  | [] => Usage
  | _ :: _ =>
      match scan args EmptyString "/" with
      | None => Usage
      | Some (gitPath, basedir) =>
          if JS.truthy gitPath then Args gitPath basedir else Usage
      end
  end.

(** astro.config.mjs: [process.env.SITE_BASE || '/'], with [SITE_BASE]
    as [build-site.ts] sets it. *)
Definition astroBase (siteBase : string) : string := JS.orElse siteBase "/".

End BuildArgs.

(** ** src/components/Workspace.tsx: selection, mode and escaping *)

Module Viewer.
Import GitTs Workspace.

Definition hiddenFiles : list string :=
  ["OUTPUT.txt"; "OUTPUT.md"; "STEP.md"; "STEPS.md"; "README.md"].

(** [list.includes(x)] *)
Definition includes (l : list string) (x : string) : bool :=
  existsb (String.eqb x) l.

Definition visibleChangedFiles (changedFiles : list string) : list string :=
  filter (fun f => negb (includes hiddenFiles f)) changedFiles.

Definition visibleFiles (files : list FileNode) : list FileNode :=
  filter (fun f => negb (includes hiddenFiles (path f))) files.

(** [a || b] where [a] may be undefined. *)
Definition orOption (a b : option string) : option string :=
  match a with
  | Some s => if JS.truthy s then Some s else b
  | None => b
  end.

(** [initialFile || visibleChangedFiles[0] || visibleFiles[0]?.path || null] *)
Definition startFile (files : list FileNode) (changedFiles : list string)
  (initialFile : option string) : option string :=
  orOption initialFile
    (orOption (hd_error (visibleChangedFiles changedFiles))
       (orOption (option_map path (hd_error (visibleFiles files))) None)).

Inductive Mode : Type :=
| code
| diff
| terminal.

(** The effect "auto-switch to diff mode if file is changed, else code
    mode". *)
Definition autoMode (prevFiles : list FileNode) (changedFiles : list string)
  (selectedFile : option string) : Mode :=
  match selectedFile with
  | Some sel =>
      if JS.truthy sel && includes (visibleChangedFiles changedFiles) sel then
        match findFile prevFiles sel with
        | None => code
        | Some _ => diff
        end
      else code
  | None => code
  end.

(** What the content effect sets: nothing, the code view or the diff
    view. *)
Inductive View : Type :=
| Untouched
| CodeHtml (v : CodeView)
| DiffHtml (v : DiffView).

Definition render (mode : Mode) (selectedFile : option string)
  (highlighter : bool) (files prevFiles : list FileNode) : View :=
  match mode with
  | terminal => Untouched
  | code | diff =>
      match selectedFile with
      | None => Untouched
      | Some sel =>
          if negb (JS.truthy sel) || negb highlighter then Untouched
          else match mode with
               | code => CodeHtml (codeView files sel)
               | _ => DiffHtml (diffView files prevFiles sel)
               end
      end
  end.

(** [s.replace(/c/g, by)] for one character [c]. *)
Fixpoint replaceChar (c : ascii) (by_ : string) (s : string) : string :=
  match s with
  | EmptyString => EmptyString
  | String x s' =>
      (if Ascii.eqb x c then by_ else String x EmptyString)
      ++ replaceChar c by_ s'
  end.

Definition escapeHtml (unsafe : string) : string :=
  replaceChar "'"%char "&#039;"
    (replaceChar JS.DQUOTE "&quot;"
       (replaceChar ">"%char "&gt;"
          (replaceChar "<"%char "&lt;"
             (replaceChar "&"%char "&amp;" unsafe)))).

End Viewer.

(** ** src/utils/project.ts *)

Module ProjectTs.

(** [title.toUpperCase().split(' ')] *)
Definition getTitleLines (title : string) : list string :=
  JS.split JS.SP (JS.toUpperCase title).

End ProjectTs.

(** ** src/utils/steps.ts, the version that reads the content collection *)

Module StepsCollection.
Import GitLog.

(** An entry of [getCollection('steps')]: its id and its body, which
    may be undefined. *)
Record Entry : Type := mkEntry {
  e_id : string;
  e_body : option string
}.

Definition notFound (title : string) : string :=
  "# " ++ title ++ nl ++ nl ++ "*Step content not found.*".

(** [stepsCollection.find(s => s.id === `${stepMeta.id}.md` || s.id === stepMeta.id)] *)
Definition findEntry (stepsCollection : list Entry) (id : string) : option Entry :=
  find (fun s => String.eqb (e_id s) (id ++ ".md") || String.eqb (e_id s) id)
       stepsCollection.

(** [stepEntry?.body || `# ${stepMeta.title}\n\n*Step content not found.*`] *)
Definition contentOf (stepEntry : option Entry) (title : string) : string :=
  match stepEntry with
  | Some s =>
      match e_body s with
      | Some body => JS.orElse body (notFound title)
      | None => notFound title
      end
  | None => notFound title
  end.

(** The callback of [projectData.steps.map(...)]. *)
Definition withContent (stepsCollection : list Entry) (stepMeta : SyncData.StepMeta)
  : StepsTs.Step :=
  StepsTs.mkStep (SyncData.id stepMeta) (SyncData.slug stepMeta)
    (SyncData.title stepMeta) (SyncData.commit stepMeta)
    (SyncData.commitMessage stepMeta)
    (contentOf (findEntry stepsCollection (SyncData.id stepMeta))
               (SyncData.title stepMeta)).

(** [getSteps()], given the collection and the steps of [project.json]. *)
Definition getSteps (stepsCollection : list Entry)
  (projectSteps : list SyncData.StepMeta) : list StepsTs.Step :=
  map (withContent stepsCollection) projectSteps.

End StepsCollection.

(** ** Vocabulary of the further properties *)

Module More.
Import GitLog.

(** The characters [escapeHtml] replaces. *)
Definition markup (c : ascii) : bool :=
  Ascii.eqb c "<"%char || Ascii.eqb c ">"%char || Ascii.eqb c JS.DQUOTE
  || Ascii.eqb c "'"%char.

(** The entity of one character, as a reader of HTML decodes it. *)
Definition entity (c : ascii) : string :=
  if Ascii.eqb c "&"%char then "&amp;"
  else if Ascii.eqb c "<"%char then "&lt;"
  else if Ascii.eqb c ">"%char then "&gt;"
  else if Ascii.eqb c JS.DQUOTE then "&quot;"
  else if Ascii.eqb c "'"%char then "&#039;"
  else String c EmptyString.

(** Decoding of the five entities, left to right. *)
Fixpoint unescape (s : string) : string :=
  match s with
  | String "&" (String "a" (String "m" (String "p" (String ";" r)))) =>
      String "&" (unescape r)
  | String "&" (String "l" (String "t" (String ";" r))) =>
      String "<" (unescape r)
  | String "&" (String "g" (String "t" (String ";" r))) =>
      String ">" (unescape r)
  | String "&" (String "q" (String "u" (String "o" (String "t" (String ";" r))))) =>
      String JS.DQUOTE (unescape r)
  | String "&" (String "#" (String "0" (String "3" (String "9" (String ";" r))))) =>
      String "'" (unescape r)
  | String c r => String c (unescape r)
  | EmptyString => EmptyString
  end.

(** A combined STEPS.md written section by section: a heading line
    and the body under it. *)
Definition renderSection (section : string * string) : string :=
  "# " ++ fst section ++ nl ++ snd section.

Fixpoint renderSections (l : list (string * string)) : string :=
  match l with
  | [] => EmptyString
  | x :: l' => renderSection x ++ renderSections l'
  end.

(** A text that is empty or ends with a line terminator. *)
Fixpoint endsLine (s : string) : bool :=
  match s with
  | EmptyString => true
  | String c s' =>
      match s' with
      | EmptyString => JS.isLineTerminator c
      | String _ _ => endsLine s'
      end
  end.

(** A text a section can hold: whole lines, none of which starts with a
    hash sign and a space. *)
Definition plainBlock (s : string) : bool :=
  Nat.eqb (Spec.countH1From true s) 0 && endsLine s.

Definition oneLine (s : string) : bool :=
  allChars (fun c => negb (JS.isLineTerminator c)) s.

Definition wellFormedSection (section : string * string) : bool :=
  oneLine (fst section) && plainBlock (snd section).

Definition parsedSection (section : string * string) : StepsTs.SectionEntry :=
  StepsTs.mkSection (JS.trim (fst section)) (JS.trim (snd section)).

Definition noSlash (s : string) : bool :=
  allChars (fun c => negb (Ascii.eqb c "/"%char)) s.

(** A text with no white space in it. *)
Definition noSpace (s : string) : bool :=
  allChars (fun c => negb (JS.isSpace c)) s.

(** The file a call writes, if it writes one, and the files written by
    a list of calls, in order. *)
Definition target (x : SyncData.Effect) : option SyncData.Path :=
  match x with
  | SyncData.WriteFileSync p _ => Some p
  | SyncData.WriteJson p _ => Some p
  | _ => None
  end.

Definition written (es : list SyncData.Effect) : list SyncData.Path :=
  flat_map (fun x => match target x with Some p => [p] | None => [] end) es.

Definition isRm (x : SyncData.Effect) : bool :=
  match x with
  | SyncData.RmSync _ => true
  | _ => false
  end.

End More.

(** ** Regular expressions, as the script uses them *)

Module RegExp.

(** The patterns of the sync script: sequences and alternatives of
    one-character classes, their greedy and lazy repetitions, optional
    parts, capture groups, and [^] and [$] without the [m] flag. *)
Inductive Re : Type :=
| Eps
| Chr (p : ascii -> bool)
| Bos
| Eos
| Seq (a b : Re)
| Alt (a b : Re)
| Star (p : ascii -> bool)
| LazyStar (p : ascii -> bool)
| Opt (a : Re)
| Group (n : nat) (a : Re).

(** The captures of a match, the latest in front. *)
Definition Caps : Type := list (nat * string).

(** What is left to match: from an index, the text from there on and
    the captures so far, the end of the whole match and its captures. *)
Definition K : Type := nat -> string -> Caps -> option (nat * Caps).

(** [p*]: as many characters as possible, giving them back one by one
    while the rest fails. *)
Fixpoint star (p : ascii -> bool) (k : K) (pos : nat) (s : string) (caps : Caps)
  : option (nat * Caps) :=
  match s with
  | String c s' =>
      if p c
      then match star p k (S pos) s' caps with
           | Some r => Some r
           | None => k pos s caps
           end
      else k pos s caps
  | EmptyString => k pos s caps
  end.

(** [p*?]: as few characters as possible, one more while the rest
    fails. *)
Fixpoint lazyStar (p : ascii -> bool) (k : K) (pos : nat) (s : string) (caps : Caps)
  : option (nat * Caps) :=
  match k pos s caps with
  | Some r => Some r
  | None =>
      match s with
      | String c s' => if p c then lazyStar p k (S pos) s' caps else None
      | EmptyString => None
      end
  end.

(** Backtracking match of [r] followed by [k]. *)
Fixpoint run (r : Re) (k : K) : K :=
  match r with
  | Eps => k
  | Chr p =>
      fun pos s caps =>
        match s with
        | String c s' => if p c then k (S pos) s' caps else None
        | EmptyString => None
        end
  | Bos => fun pos s caps => if Nat.eqb pos 0 then k pos s caps else None
  | Eos =>
      fun pos s caps =>
        match s with
        | EmptyString => k pos s caps
        | String _ _ => None
        end
  | Seq a b => run a (run b k)
  | Alt a b =>
      fun pos s caps =>
        match run a k pos s caps with
        | Some r => Some r
        | None => run b k pos s caps
        end
  | Star p => star p k
  | LazyStar p => lazyStar p k
  | Opt a =>
      fun pos s caps =>
        match run a k pos s caps with
        | Some r => Some r
        | None => k pos s caps
        end
  | Group n a =>
      fun pos s caps =>
        run a (fun pos' s' caps' =>
                 k pos' s' ((n, substring 0 (pos' - pos) s) :: caps'))
            pos s caps
  end.

Definition accept : K := fun pos _ caps => Some (pos, caps).

(** The leftmost match at or after index [pos], [s] being the text from
    there on: its start, its end and its captures. *)
Fixpoint search (r : Re) (pos : nat) (s : string) : option (nat * nat * Caps) :=
  match run r accept pos s [] with
  | Some (e, caps) => Some (pos, e, caps)
  | None =>
      match s with
      | String _ s' => search r (S pos) s'
      | EmptyString => None
      end
  end.

(** [s.match(r)] for [r] without the [g] flag. *)
Definition exec (r : Re) (s : string) : option (nat * nat * Caps) :=
  search r 0 s.

(** Capture group [n] of a match in which the group took part. *)
Fixpoint group (n : nat) (caps : Caps) : string :=
  match caps with
  | [] => EmptyString
  | (m, v) :: caps' => if Nat.eqb m n then v else group n caps'
  end.

(** [s.replace(r, '')] for [r] without the [g] flag. *)
Definition removeFirst (r : Re) (s : string) : string :=
  match exec r s with
  | Some (b, e, _) => substring 0 b s ++ substring e (String.length s - e) s
  | None => s
  end.

(** [s.replace(r, '')] for [r] with the [g] flag, from index [pos];
    [skip] characters are still inside the last match.  After an empty
    match the search goes on one character further. *)
Fixpoint removeAll (r : Re) (pos skip : nat) (s : string) : string :=
  match s with
  | EmptyString => EmptyString
  | String c s' =>
      match skip with
      | S n => removeAll r (S pos) n s'
      | 0 =>
          match run r accept pos s [] with
          | Some (e, _) =>
              if Nat.leb e pos then String c (removeAll r (S pos) 0 s')
              else removeAll r (S pos) (e - pos - 1) s'
          | None => String c (removeAll r (S pos) 0 s')
          end
      end
  end.

Definition seq (l : list Re) : Re := fold_right Seq Eps l.

Definition only (x : ascii) (c : ascii) : bool := Ascii.eqb c x.

Fixpoint lit (s : string) : Re :=
  match s with
  | EmptyString => Eps
  | String c s' => Seq (Chr (only c)) (lit s')
  end.

(** The classes [[\s\S]] and [.], and the class of the two quote
    characters. *)
Definition any (c : ascii) : bool := true.
Definition dot (c : ascii) : bool := negb (JS.isLineTerminator c).
Definition quote (c : ascii) : bool :=
  Ascii.eqb c JS.DQUOTE || Ascii.eqb c "'"%char.

End RegExp.

(** ** scripts/sync-data.ts, step 1: README.md *)

Module Readme.
Import SyncData RegExp.

(** The pattern of [rawReadme.match]: [^\s*---\s*\n], then group 1,
    [[\s\S]*?], then [\n\s*---\s*\n?], then group 2, [[\s\S]*], and
    [$]. *)
Definition frontmatterRe : Re :=
  seq [Bos; Star JS.isSpace; lit "---"; Star JS.isSpace; Chr (only JS.LF);
       Group 1 (LazyStar any);
       Chr (only JS.LF); Star JS.isSpace; lit "---"; Star JS.isSpace;
       Opt (Chr (only JS.LF));
       Group 2 (Star any); Eos].

(** The same pattern from the LF in front of the closing dashes on. *)
Definition closing : Re :=
  seq [Chr (only JS.LF); Star JS.isSpace; lit "---"; Star JS.isSpace;
       Opt (Chr (only JS.LF)); Group 2 (Star any); Eos].

(** [rawReadme.match(...)]: [frontmatterMatch[1]] and
    [frontmatterMatch[2]], or [null]. *)
Definition frontmatterMatch (rawReadme : string) : option (string * string) :=
  match exec frontmatterRe rawReadme with
  | Some (_, _, caps) => Some (group 1 caps, group 2 caps)
  | None => None
  end.

(** [/^(\w+):\s*(.+?)\s*$/] *)
Definition fieldRe : Re :=
  seq [Bos; Group 1 (Seq (Chr JS.isWord) (Star JS.isWord)); Chr (only ":"%char);
       Star JS.isSpace; Group 2 (Seq (Chr dot) (LazyStar dot));
       Star JS.isSpace; Eos].

(** [line.match(...)]: [key] and [value]. *)
Definition matchLine (line : string) : option (string * string) :=
  match exec fieldRe line with
  | Some (_, _, caps) => Some (group 1 caps, group 2 caps)
  | None => None
  end.

(** The pattern of [value.replace(..., '')], with the [g] flag: a quote
    character, double or single, at the start, or one at the end. *)
Definition quoteRe : Re := Alt (Seq Bos (Chr quote)) (Seq (Chr quote) Eos).

Definition cleanValue (value : string) : string := removeAll quoteRe 0 0 value.

(** The three assignments to [projectConfig]. *)
Definition assign (projectConfig : ProjectConfig) (key cleanValue : string)
  : ProjectConfig :=
  let c1 := if String.eqb key "title"
            then mkConfig (Some cleanValue) (cfg_description projectConfig)
                          (cfg_docNumber projectConfig)
            else projectConfig in
  let c2 := if String.eqb key "description"
            then mkConfig (cfg_title c1) (Some cleanValue) (cfg_docNumber c1)
            else c1 in
  if String.eqb key "docNumber"
  then mkConfig (cfg_title c2) (cfg_description c2) (Some cleanValue)
  else c2.

(** The body of the loop over the lines of the frontmatter. *)
Definition parseLine (projectConfig : ProjectConfig) (line : string)
  : ProjectConfig :=
  match matchLine line with
  | Some (key, value) => assign projectConfig key (cleanValue value)
  | None => projectConfig
  end.

(** [for (const line of frontmatter.split('\n')) ...], from the empty
    [projectConfig]. *)
Definition parseFields (frontmatter : string) : ProjectConfig :=
  fold_left parseLine (JS.split JS.LF frontmatter) emptyConfig.

(** [/^#\s+.+\n+/] and [readmeBody.replace(..., '')]. *)
Definition h1Re : Re :=
  seq [Bos; Chr (only "#"%char); Chr JS.isSpace; Star JS.isSpace;
       Chr dot; Star dot; Chr (only JS.LF); Star (only JS.LF)].

Definition dropFirstH1 (readmeBody : string) : string :=
  removeFirst h1Re readmeBody.

(** Step 1 and the whole script, with these three in place. *)
Definition readReadme : string -> ProjectConfig * string :=
  SyncData.readReadme frontmatterMatch parseFields dropFirstH1.

Definition main : Env -> Script unit :=
  SyncData.main frontmatterMatch parseFields dropFirstH1.

Definition manifest : Env -> option ProjectData :=
  SyncData.manifest frontmatterMatch parseFields dropFirstH1.

Definition effects : Env -> list Effect :=
  SyncData.effects frontmatterMatch parseFields dropFirstH1.

End Readme.

(** ** src/components/Workspace.tsx: the language of the selected file *)

Module Highlight.

(** [selectedFile.split('.').pop() || 'text'] *)
Definition lang (selectedFile : string) : string :=
  JS.orElse (last (JS.split "."%char selectedFile) EmptyString) "text".

End Highlight.

(** ** Shapes of text, for the properties below *)

Module Shape.

(** The text is empty or its first character is not in the class. *)
Definition stops (p : ascii -> bool) (s : string) : bool :=
  match s with
  | String c _ => negb (p c)
  | EmptyString => true
  end.

(** The first character is there and is not white space; the last
    character is there and is not white space. *)
Definition startsPlain (s : string) : bool :=
  match s with
  | String c _ => negb (JS.isSpace c)
  | EmptyString => false
  end.

Fixpoint endsPlain (s : string) : bool :=
  match s with
  | EmptyString => false
  | String c s' =>
      match s' with
      | EmptyString => negb (JS.isSpace c)
      | String _ _ => endsPlain s'
      end
  end.

(** Every line after the first starts with a character that is neither
    white space nor a dash: each LF is followed by such a character. *)
Fixpoint keyLines (s : string) : bool :=
  match s with
  | EmptyString => true
  | String c s' =>
      (if Ascii.eqb c JS.LF
       then match s' with
            | String d _ => negb (JS.isSpace d) && negb (Ascii.eqb d "-"%char)
            | EmptyString => false
            end
       else true)
      && keyLines s'
  end.

(** A key of the frontmatter: word characters, at least one. *)
Definition isKey (s : string) : bool :=
  JS.truthy s && GitLog.allChars JS.isWord s.

(** A value: on one line, with no white space at either end. *)
Definition isValue (s : string) : bool :=
  startsPlain s && endsPlain s && GitLog.allChars RegExp.dot s.

(** A field of the frontmatter. *)
Definition wfField (field : string * string) : bool :=
  isKey (fst field) && isValue (snd field).

(** A quote character in front of a text taken off, and one at its
    end. *)
Definition dropQuoteStart (s : string) : string :=
  match s with
  | String c s' => if RegExp.quote c then s' else s
  | EmptyString => EmptyString
  end.

Fixpoint dropQuoteEnd (s : string) : string :=
  match s with
  | EmptyString => EmptyString
  | String c s' =>
      match s' with
      | EmptyString => if RegExp.quote c then EmptyString else s
      | String _ _ => String c (dropQuoteEnd s')
      end
  end.

(** A line [key: value] of the frontmatter, and the value the last of
    the lines with a given key has, quotes taken off. *)
Definition fieldLine (field : string * string) : string :=
  fst field ++ ": " ++ snd field.

Definition lastValue (key : string) (fields : list (string * string))
  : option string :=
  fold_left (fun found field =>
               if String.eqb (fst field) key
               then Some (dropQuoteEnd (dropQuoteStart (snd field)))
               else found)
            fields None.

End Shape.

(** A README with a frontmatter block, in the sample repository. *)
Module ReadmeExample.
Import GitLog.

Definition fields : list (string * string) :=
  [ ("title", String JS.DQUOTE ("Weekend Agent" ++ String JS.DQUOTE EmptyString));
    ("author", "someone");
    ("docNumber", "WA-7") ].

Definition readmeText : string :=
  "---" ++ nl ++ JS.join nl (map Shape.fieldLine fields) ++ nl ++ "---" ++ nl
  ++ nl ++ "# Weekend Agent" ++ nl ++ nl ++ "An agent, step by step." ++ nl.

Definition readmeEnv : SyncData.Env :=
  SyncData.mkEnv Example.sampleGit "/work/my_repo" "my_repo" true false
                 (Some readmeText) "2026-01-01" true.

End ReadmeExample.

(** ** The shell between [getFileContent] and git *)

Module Shell.
Import GitLog.

(** [execSync] hands the command text to [/bin/sh -c], and
    [getFileContent] builds that text as [git show ${commit}:${filePath}]
    with no quoting.  The shell is modelled on two kinds of text only.
    A text of plain characters (ASCII letters, digits, [_], [-], [.]
    and [/]) is one word, passed on as it is.  In a text that is plain
    up to a space that a hash sign follows, the hash sign starts a
    comment, which runs to the end of the line: the word ends at the
    space and the rest is dropped. *)
Definition plainChar (c : ascii) : bool :=
  JS.isWord c || Ascii.eqb c "-"%char || Ascii.eqb c "."%char
  || Ascii.eqb c "/"%char.

Definition plain (s : string) : bool := JS.truthy s && allChars plainChar s.

(** The end of the word [filePath] is pasted into, as far as it comes
    from [filePath]; [None] where the shell is not modelled. *)
Fixpoint wordOf (filePath : string) : option string :=
  match filePath with
  | EmptyString => Some EmptyString
  | String c s' =>
      if plainChar c then option_map (String c) (wordOf s')
      else if Ascii.eqb c " "%char then
        match s' with
        | String h rest =>
            if Ascii.eqb h "#"%char
               && allChars (fun x => negb (Ascii.eqb x JS.LF)) rest
            then Some EmptyString
            else None
        | EmptyString => None
        end
      else None
  end.

(** The path git is asked for: with nothing after the colon git shows
    the tree of the commit, which is not modelled. *)
Definition pathArg (filePath : string) : option string :=
  match wordOf filePath with
  | Some (String c p) => Some (String c p)
  | _ => None
  end.

(** What [execSync] returns for [getFileContent], given the blobs of
    the repository ([blob commit path] is the content tracked at
    [path] in [commit]): git prints the blob at the path it is asked
    for.  [None]: the shell or git is not modelled there (the path
    names no blob, or the text is of neither kind). *)
Definition gitShow (blob : string -> string -> option (list byte))
  (commit filePath : string) : option (result (list byte)) :=
  if plain commit then
    match pathArg filePath with
    | Some p =>
        match blob commit p with
        | Some bytes => Some (Ok bytes)
        | None => None
        end
    | None => None
    end
  else None.

(** The git commands of [g] show the blobs [blob]. *)
Definition showsBlobs (g : Git) (blob : string -> string -> option (list byte))
  : Prop :=
  forall commit filePath r,
    gitShow blob commit filePath = Some r -> showBuffer g commit filePath = r.

End Shell.

(** A commit with a text file [notes], a binary file [notes #1] and a
    binary file [logo.png]. *)
Module ShellExample.
Import GitLog.

Definition blob (commit path : string) : option (list byte) :=
  if String.eqb path "notes" then Some [x6f; x6b]
  else if String.eqb path "notes #1" then Some [x89; x00; x4e]
  else if String.eqb path "logo.png" then Some [x89; x50; x00; x4e]
  else None.

Definition listing : string :=
  "logo.png" ++ nl ++ "notes" ++ nl ++ "notes #1" ++ nl.

Definition git : Git :=
  mkGit Example.sampleHistory
    (fun rev path =>
       match Shell.gitShow blob rev path with
       | Some r => r
       | None => Throw
       end)
    (fun _ _ => Throw)
    (fun _ => Ok listing)
    (fun _ => Ok ("notes #1" ++ nl))
    Throw.

End ShellExample.

(** * Properties *)

(** ** Strings *)

Module JSFacts.
Import JS.

Lemma append_nil_r (s : string) : s ++ EmptyString = s.
Proof. induction s as [|c s IH]; simpl; [reflexivity | now rewrite IH]. Qed.

Lemma append_assoc (a b c : string) : (a ++ b) ++ c = a ++ (b ++ c).
Proof. induction a as [|x a IH]; simpl; [reflexivity | now rewrite IH]. Qed.

Lemma allChars_app (p : ascii -> bool) (a b : string) :
  GitLog.allChars p (a ++ b) = GitLog.allChars p a && GitLog.allChars p b.
Proof.
  induction a as [|c a IH]; simpl; [reflexivity|].
  now rewrite IH, andb_assoc.
Qed.

Lemma allChars_weaken (p q : ascii -> bool) (s : string) :
  (forall c, p c = true -> q c = true) ->
  GitLog.allChars p s = true -> GitLog.allChars q s = true.
Proof.
  intros Hpq. induction s as [|c s IH]; simpl; [reflexivity|].
  intros H. apply andb_true_iff in H as [Hc Hs].
  now rewrite (Hpq _ Hc), IH.
Qed.

(** A piece without the separator is not cut. *)
Lemma splitParts_none (sep : ascii) (s : string) :
  GitLog.allChars (fun x => negb (Ascii.eqb x sep)) s = true ->
  splitParts sep s = (s, []).
Proof.
  induction s as [|c s IH]; simpl; [reflexivity|].
  intros H. apply andb_true_iff in H as [Hc Hs].
  rewrite (IH Hs). apply negb_true_iff in Hc. now rewrite Hc.
Qed.

(** The first separator ends the first piece. *)
Lemma splitParts_app (sep : ascii) (a b : string) :
  GitLog.allChars (fun x => negb (Ascii.eqb x sep)) a = true ->
  splitParts sep (a ++ String sep b) = (a, split sep b).
Proof.
  induction a as [|c a IH]; simpl.
  - intros _. unfold split. destruct (splitParts sep b) as [p ps].
    now rewrite Ascii.eqb_refl.
  - intros H. apply andb_true_iff in H as [Hc Hs].
    rewrite (IH Hs). apply negb_true_iff in Hc. now rewrite Hc.
Qed.

Lemma split_app (sep : ascii) (a b : string) :
  GitLog.allChars (fun x => negb (Ascii.eqb x sep)) a = true ->
  split sep (a ++ String sep b) = a :: split sep b.
Proof. intros H. unfold split at 1. now rewrite splitParts_app. Qed.

(** [s.split(sep).join(sep)] gives [s] back. *)
Lemma join_split (sep : ascii) (s : string) :
  join (String sep EmptyString) (split sep s) = s.
Proof.
  unfold split. induction s as [|c s IH]; simpl; [reflexivity|].
  destruct (splitParts sep s) as [p ps].
  destruct (Ascii.eqb c sep) eqn:E.
  - apply Ascii.eqb_eq in E. subst c. simpl in *. now rewrite IH.
  - simpl in *. destruct ps as [|q ps]; [now rewrite IH|].
    simpl. now rewrite <- IH.
Qed.

Lemma truthy_app_l (a b : string) : truthy a = true -> truthy (a ++ b) = true.
Proof. destruct a; simpl; [discriminate | reflexivity]. Qed.

(** The lines of a text that ends each line with LF. *)
Lemma split_lines (l : list string) :
  Forall (fun x => GitLog.allChars (fun c => negb (Ascii.eqb c LF)) x = true) l ->
  split LF (GitLog.lines l) = (l ++ [EmptyString])%list.
Proof.
  induction 1 as [|x l Hx _ IH]; simpl; [reflexivity|].
  unfold GitLog.nl. simpl. now rewrite split_app, IH.
Qed.

Lemma filter_truthy_lines (l : list string) :
  Forall (fun x => truthy x = true) l ->
  filter truthy (l ++ [EmptyString])%list = l.
Proof.
  induction 1 as [|x l Hx _ IH]; simpl; [reflexivity|].
  now rewrite Hx, IH.
Qed.

End JSFacts.

(** ** The log and its parsing *)

Module LogFacts.
Import JS GitLog JSFacts.

Lemma isHex_plain (c : ascii) :
  isHex c = true ->
  isSpace c = false /\ Ascii.eqb c SP = false /\ Ascii.eqb c LF = false.
Proof.
  destruct c as [[] [] [] [] [] [] [] []]; vm_compute; intuition discriminate.
Qed.

Lemma allChars_substring (p : ascii -> bool) (n : nat) (s : string) :
  allChars p s = true -> allChars p (substring 0 n s) = true.
Proof.
  revert n. induction s as [|c s IH]; intros [|n]; simpl; trivial.
  intros H. apply andb_true_iff in H as [Hc Hs]. now rewrite Hc, IH.
Qed.

Lemma length_substring (n : nat) (s : string) :
  n <= String.length s -> String.length (substring 0 n s) = n.
Proof.
  revert n. induction s as [|c s IH]; intros [|n]; simpl; trivial; try lia.
  intros H. rewrite IH; lia.
Qed.

Lemma prefix_substring (n : nat) (s : string) :
  String.prefix (substring 0 n s) s = true.
Proof.
  revert n. induction s as [|c s IH]; intros [|n]; simpl; trivial.
  destruct (ascii_dec c c) as [_|N]; [apply IH | now elim N].
Qed.

Section Commit.
Variable c : Commit.
Hypothesis wf : wfCommit c = true.

Lemma wf_parts :
  allChars isHex (c_hash c) = true
  /\ 4 <= c_abbrev c <= String.length (c_hash c)
  /\ allChars (fun x => negb (Ascii.eqb x LF)) (c_subject c) = true.
Proof.
  unfold wfCommit in wf.
  repeat (apply andb_true_iff in wf; destruct wf as [wf ?]).
  repeat match goal with
         | H : Nat.leb _ _ = true |- _ => apply Nat.leb_le in H
         end.
  repeat split; assumption.
Qed.

Lemma abbrev_hex : allChars isHex (abbrevHash c) = true.
Proof. apply allChars_substring, wf_parts. Qed.

Lemma abbrev_length : String.length (abbrevHash c) = c_abbrev c.
Proof.
  destruct wf_parts as (_ & A & _).
  apply length_substring. lia.
Qed.

Lemma abbrev_truthy : truthy (abbrevHash c) = true.
Proof.
  pose proof abbrev_length as L. destruct wf_parts as (_ & A & _).
  destruct (abbrevHash c); [simpl in L; lia | reflexivity].
Qed.

Lemma hash_truthy : truthy (c_hash c) = true.
Proof.
  destruct wf_parts as (_ & A & _).
  destruct (c_hash c); [simpl in A; lia | reflexivity].
Qed.

End Commit.

Lemma hex_no (x : ascii) (h : string) :
  isSpace x = true -> allChars isHex h = true ->
  allChars (fun y => negb (Ascii.eqb y x)) h = true.
Proof.
  intros Hx. apply allChars_weaken. intros y Hy.
  apply isHex_plain in Hy as (Hs & _).
  apply negb_true_iff. destruct (Ascii.eqb y x) eqn:E; trivial.
  apply Ascii.eqb_eq in E. congruence.
Qed.

(** A log line [<name> <subject>] is on one line and is not empty. *)
Lemma line_one_line (h s : string) :
  allChars isHex h = true ->
  allChars (fun x => negb (Ascii.eqb x LF)) s = true ->
  allChars (fun x => negb (Ascii.eqb x LF)) (h ++ " " ++ s) = true.
Proof.
  intros Hh Hs. rewrite allChars_app, (hex_no LF h eq_refl Hh). simpl.
  exact Hs.
Qed.

(** [parseLine] recovers the name and the subject, whatever spaces the
    subject holds. *)
Lemma sync_parseLine (h s : string) :
  allChars isHex h = true ->
  SyncData.parseLine (h ++ " " ++ s) = SyncData.mkCommitInfo h s.
Proof.
  intros Hh. unfold SyncData.parseLine. simpl.
  change (String " " s) with (String SP s).
  rewrite splitParts_app by (apply (hex_no SP); auto).
  change " " with (String SP EmptyString).
  now rewrite join_split.
Qed.

Lemma sync_commits (cs : list Commit) :
  forallb wfCommit cs = true ->
  SyncData.commits (lines (map shortLine cs))
  = map Spec.syncRecord cs.
Proof.
  intros Hwf. rewrite forallb_forall in Hwf.
  unfold SyncData.commits.
  rewrite split_lines.
  2:{ apply Forall_forall. intros x Hx. apply in_map_iff in Hx as (c & <- & Hc).
      apply line_one_line; [apply abbrev_hex | apply wf_parts]; auto. }
  rewrite filter_truthy_lines.
  2:{ apply Forall_forall. intros x Hx. apply in_map_iff in Hx as (c & <- & Hc).
      apply truthy_app_l, abbrev_truthy; auto. }
  rewrite map_map. apply map_ext_in. intros c Hc.
  apply sync_parseLine, abbrev_hex; auto.
Qed.

Lemma mapi_length {A B : Type} (f : nat -> A -> B) (k : nat) (l : list A) :
  List.length (mapi f k l) = List.length l.
Proof. revert k. induction l; intros k; simpl; auto. Qed.

Lemma mapi_nth_error {A B : Type} (f : nat -> A -> B) (l : list A) :
  forall k i a, nth_error l i = Some a ->
                nth_error (mapi f k l) i = Some (f (k + i) a).
Proof.
  induction l as [|x l IH]; intros k [|i] a; simpl; try discriminate.
  - intros [= ->]. now rewrite Nat.add_0_r.
  - intros H. rewrite (IH (S k) i a H). f_equal. f_equal. lia.
Qed.

End LogFacts.

(** ** Runs of the sync script *)

Module SyncFacts.
Import JS GitLog JSFacts LogFacts SyncData.

Section Run.
Variable fm : string -> option (string * string).
Variable pf : string -> ProjectConfig.
Variable dh : string -> string.
Variable e : Env.

(** The script, cut at the one call that can abort it. *)
Lemma main_unfold :
  main fm pf dh e =
  match logShort (git e) with
  | Throw => (setup fm pf dh e, Throw)
  | Ok logOutput =>
      let stepRuns := steps (git e) (commits logOutput) in
      ((setup fm pf dh e ++ List.concat (map fst stepRuns)
        ++ [WriteJson DATA_FILE
              (projectData e (config fm pf dh e) (map snd stepRuns))])%list,
       Ok tt)
  end.
Proof.
  unfold main, setup, config, andThen, emit, ret, exec.
  destruct (stepsDirExists e), (docsDirExists e), (readme e) as [raw|];
    try destruct (readReadme fm pf dh raw) as [cfg body] eqn:R;
    destruct (logShort (git e)) as [out|]; simpl;
    rewrite ?app_nil_r; try reflexivity.
Qed.

Lemma logShort_empty : history (git e) = [] -> logShort (git e) = Throw.
Proof. unfold logShort. now intros ->. Qed.

Lemma logShort_commits :
  history (git e) <> [] -> wfHistory (git e) = true ->
  exists out, logShort (git e) = Ok out
              /\ commits out = map Spec.syncRecord (history (git e)).
Proof.
  unfold logShort, wfHistory. intros Hne Hwf.
  destruct (history (git e)) as [|c cs] eqn:Hh; [now elim Hne|].
  eexists. split; [reflexivity|]. now apply sync_commits.
Qed.

Lemma manifest_some :
  history (git e) <> [] -> wfHistory (git e) = true ->
  manifest fm pf dh e = Some (projectData e (config fm pf dh e) (Spec.entries (git e))).
Proof.
  intros Hne Hwf. destruct (logShort_commits Hne Hwf) as (out & Hout & Hcs).
  unfold manifest. rewrite main_unfold, Hout. simpl.
  rewrite !rev_app_distr. simpl. unfold Spec.entries. now rewrite Hcs.
Qed.

Lemma manifest_none :
  history (git e) = [] -> manifest fm pf dh e = None.
Proof.
  intros H. unfold manifest. now rewrite main_unfold, (logShort_empty H).
Qed.

End Run.
End SyncFacts.

(** ** getSteps: the trimmed log and the sections *)

Module StepsFacts.
Import JS GitLog JSFacts LogFacts.

Lemma trimEnd_cons (c : ascii) (s : string) :
  isSpace c = false -> trimEnd (String c s) = String c (trimEnd s).
Proof. intros H. simpl. rewrite H. now destruct (trimEnd s). Qed.

Lemma trimEnd_hex_app (h t : string) :
  allChars isHex h = true -> trimEnd (h ++ t) = h ++ trimEnd t.
Proof.
  induction h as [|c h IH]; simpl append; [reflexivity|].
  intros H. simpl in H. apply andb_true_iff in H as [Hc Hh].
  apply isHex_plain in Hc as (Hs & _).
  now rewrite trimEnd_cons, IH.
Qed.

(** Trimming the end stops inside the last non-blank part. *)
Lemma trimEnd_app_keep (a b : string) :
  truthy (trimEnd b) = true -> trimEnd (a ++ b) = a ++ trimEnd b.
Proof.
  intros Hb. induction a as [|c a IH]; simpl append; [reflexivity|].
  simpl. rewrite IH. destruct (a ++ trimEnd b) eqn:E; [|reflexivity].
  destruct a; simpl in E; [rewrite E in Hb|]; discriminate.
Qed.

Lemma trimEnd_app_blank (a b : string) :
  trimEnd b = EmptyString -> trimEnd (a ++ b) = trimEnd a.
Proof.
  intros Hb. induction a as [|c a IH]; simpl append; [assumption|].
  simpl. now rewrite IH.
Qed.

Lemma trimEnd_one_line (s : string) :
  allChars (fun x => negb (Ascii.eqb x LF)) s = true ->
  allChars (fun x => negb (Ascii.eqb x LF)) (trimEnd s) = true.
Proof.
  induction s as [|c s IH]; simpl; [reflexivity|].
  intros H. apply andb_true_iff in H as [Hc Hs]. specialize (IH Hs).
  destruct (trimEnd s) as [|d t].
  - destruct (isSpace c); simpl; [reflexivity | now rewrite Hc].
  - change (allChars _ (String c (String d t)))
      with ((fun x => negb (Ascii.eqb x LF)) c
            && allChars (fun x => negb (Ascii.eqb x LF)) (String d t)).
    now rewrite IH, Hc.
Qed.

(** What is left of a blank tail starts with the blank it started with. *)
Lemma trimEnd_head (c : ascii) (s : string) :
  trimEnd (String c s) = EmptyString
  \/ exists t, trimEnd (String c s) = String c t.
Proof.
  simpl. destruct (trimEnd s).
  - destruct (isSpace c); eauto.
  - eauto.
Qed.

Lemma hex_line_truthy (h t : string) :
  allChars isHex h = true -> truthy h = true -> truthy (trimEnd (h ++ t)) = true.
Proof.
  intros Hh Ht. rewrite trimEnd_hex_app by assumption.
  now apply truthy_app_l.
Qed.

Lemma trimStart_hex (h t : string) :
  allChars isHex h = true -> truthy h = true -> trimStart (h ++ t) = h ++ t.
Proof.
  destruct h as [|c h]; [discriminate|]. simpl. intros H _.
  apply andb_true_iff in H as [Hc _]. apply isHex_plain in Hc as (-> & _).
  reflexivity.
Qed.

(** The name [getSteps] reads from a line of the trimmed log. *)
Lemma steps_hash (h s : string) :
  allChars isHex h = true ->
  StepsTs.hash (StepsTs.parseLine (h ++ " " ++ s)) = h
  /\ StepsTs.hash (StepsTs.parseLine (trimEnd (h ++ " " ++ s))) = h.
Proof.
  intros Hh. unfold StepsTs.parseLine. split.
  - change (" " ++ s) with (String SP s).
    rewrite splitParts_app by (apply (hex_no SP); auto).
    reflexivity.
  - rewrite trimEnd_hex_app by assumption.
    change (" " ++ s) with (String SP s).
    destruct (trimEnd_head SP s) as [-> | (t & ->)].
    + rewrite append_nil_r, splitParts_none by (apply (hex_no SP); auto).
      reflexivity.
    + rewrite splitParts_app by (apply (hex_no SP); auto). reflexivity.
Qed.

(** The lines of the trimmed log: all but the last as printed, the last
    one trimmed at its end. *)
Lemma split_trimmed (c : Commit) (cs : list Commit) :
  forallb wfCommit (c :: cs) = true ->
  exists l x,
    split LF (trim (lines (map fullLine (c :: cs)))) = (map fullLine l ++ [trimEnd (fullLine x)])%list
    /\ (c :: cs = l ++ [x])%list.
Proof.
  intros Hwf.
  assert (Hstart : trim (lines (map fullLine (c :: cs)))
                   = trimEnd (lines (map fullLine (c :: cs)))).
  { unfold trim. f_equal.
    change (lines (map fullLine (c :: cs)))
      with ((c_hash c ++ " " ++ c_subject c) ++ nl ++ lines (map fullLine cs)).
    rewrite append_assoc. apply trimStart_hex.
    - apply wf_parts. simpl in Hwf. now apply andb_true_iff in Hwf as [? _].
    - apply hash_truthy. simpl in Hwf. now apply andb_true_iff in Hwf as [? _]. }
  rewrite Hstart. clear Hstart.
  revert c Hwf. induction cs as [|d cs IH]; intros c Hwf.
  - exists [], c. split; [|reflexivity].
    change (lines (map fullLine [c])) with (fullLine c ++ nl ++ EmptyString).
    rewrite (trimEnd_app_blank (fullLine c) (nl ++ EmptyString)) by reflexivity.
    change (map fullLine [] ++ [trimEnd (fullLine c)])%list
      with [trimEnd (fullLine c)].
    unfold split. rewrite splitParts_none; [reflexivity|].
    simpl in Hwf. apply andb_true_iff in Hwf as [Hc _].
    apply trimEnd_one_line, line_one_line; apply (wf_parts c Hc).
  - pose proof Hwf as Hwf'. simpl in Hwf'.
    apply andb_true_iff in Hwf' as [Hc Hrest].
    destruct (IH d Hrest) as (l & x & Hsplit & Heq).
    exists (c :: l), x. split; [|simpl; now rewrite Heq].
    change (lines (map fullLine (c :: d :: cs)))
      with (fullLine c ++ nl ++ lines (map fullLine (d :: cs))).
    rewrite <- append_assoc.
    rewrite trimEnd_app_keep.
    2:{ simpl. unfold fullLine at 1. rewrite append_assoc.
        apply andb_true_iff in Hrest as [Hd _].
        apply hex_line_truthy; [apply (wf_parts d Hd) | apply (hash_truthy d Hd)]. }
    rewrite append_assoc.
    change (nl ++ trimEnd (lines (map fullLine (d :: cs))))
      with (String LF (trimEnd (lines (map fullLine (d :: cs))))).
    rewrite split_app by (apply line_one_line; apply (wf_parts c Hc)).
    now rewrite Hsplit.
Qed.

(** The names [getSteps] reads are the full names, in log order. *)
Lemma steps_commits (cs : list Commit) :
  cs <> [] -> forallb wfCommit cs = true ->
  map StepsTs.hash (StepsTs.commits (lines (map fullLine cs))) = map c_hash cs.
Proof.
  intros Hne Hwf. destruct cs as [|c cs]; [now elim Hne|].
  destruct (split_trimmed c cs Hwf) as (l & x & Hsplit & Heq).
  unfold StepsTs.commits. rewrite Hsplit, Heq.
  assert (Hall : forall y, In y (l ++ [x])%list -> allChars isHex (c_hash y) = true).
  { intros y Hy. rewrite <- Heq in Hy. rewrite forallb_forall in Hwf.
    apply wf_parts; auto. }
  rewrite !map_app, !map_map. f_equal.
  - apply map_ext_in. intros y Hy.
    apply steps_hash, Hall, in_or_app; auto.
  - simpl. f_equal. apply steps_hash, Hall, in_or_app. right. now left.
Qed.

Lemma splitH1_count (n : nat) :
  forall s bol, String.length s <= n ->
    List.length (snd (splitH1From bol s)) = Spec.countH1From bol s.
Proof.
  induction n as [|n IH]; intros [|c s] bol Hlen; simpl in *; try reflexivity;
    try lia.
  assert (Hs : String.length s <= n) by lia.
  assert (Hplain :
    List.length (snd (let (p, ps) := splitH1From (isLineTerminator c) s in
                      (String c p, ps)))
    = Spec.countH1From (isLineTerminator c) s).
  { specialize (IH s (isLineTerminator c) Hs).
    destruct (splitH1From (isLineTerminator c) s); exact IH. }
  destruct bol; simpl; [|exact Hplain].
  destruct (Ascii.eqb c "#") eqn:Ec; simpl; [|exact Hplain].
  destruct s as [|d s']; [exact Hplain|].
  unfold Spec.startsWithSpace.
  destruct (Ascii.eqb d SP) eqn:Ed; [|exact Hplain].
  apply Ascii.eqb_eq in Ec, Ed. subst c d.
  assert (Hs' : String.length s' <= n) by (simpl in Hs; lia).
  specialize (IH s' false Hs').
  destruct (splitH1From false s') as [p ps]. simpl in *. now rewrite IH.
Qed.

Lemma sections_length (fileContent : string) :
  List.length (StepsTs.sections fileContent) = Spec.countH1From true fileContent.
Proof.
  unfold StepsTs.sections, splitH1. rewrite length_map.
  rewrite <- (splitH1_count (String.length fileContent) fileContent true (le_n _)).
  now destruct (splitH1From true fileContent).
Qed.

Lemma merge_length (cs : list StepsTs.CommitInfo) (ss : list StepsTs.SectionEntry) :
  forall n i, List.length (StepsTs.merge i n cs ss) = n.
Proof. induction n as [|n IH]; intros i; simpl; auto. Qed.

Lemma merge_nth (cs : list StepsTs.CommitInfo) (ss : list StepsTs.SectionEntry) :
  forall n i k st,
    nth_error (StepsTs.merge i n cs ss) k = Some st ->
    StepsTs.id st = toString (i + k) /\ StepsTs.slug st = toString (i + k)
    /\ StepsTs.commit st
       = StepsTs.hash (nth (i + k) cs (StepsTs.mkCommitInfo EmptyString EmptyString)).
Proof.
  induction n as [|n IH]; intros i [|k] st; simpl; try discriminate.
  - intros [= <-]. simpl. now rewrite Nat.add_0_r.
  - intros H. apply IH in H. now replace (i + S k) with (S i + k) by lia.
Qed.

End StepsFacts.

(** ** The claims *)

Import GitLog.

Lemma step_fields (g : Git) (i : nat) (c : SyncData.CommitInfo) :
  SyncData.id (snd (SyncData.step g i c)) = JS.toString i
  /\ SyncData.slug (snd (SyncData.step g i c)) = JS.toString i
  /\ SyncData.commit (snd (SyncData.step g i c)) = SyncData.hash c
  /\ SyncData.commitMessage (snd (SyncData.step g i c)) = SyncData.message c.
Proof.
  unfold SyncData.step. destruct (SyncData.readStep g c). simpl. auto.
Qed.

Lemma entries_nth (g : Git) (i : nat) (c : Commit) :
  nth_error (history g) i = Some c ->
  nth_error (Spec.entries g) i
  = Some (snd (SyncData.step g i (Spec.syncRecord c))).
Proof.
  intros H. unfold Spec.entries, SyncData.steps.
  rewrite nth_error_map.
  rewrite (LogFacts.mapi_nth_error (SyncData.step g) _ 0 i (Spec.syncRecord c)).
  - reflexivity.
  - rewrite nth_error_map, H. reflexivity.
Qed.

Lemma entries_length (g : Git) :
  List.length (Spec.entries g) = List.length (history g).
Proof.
  unfold Spec.entries, SyncData.steps.
  now rewrite length_map, LogFacts.mapi_length, length_map.
Qed.

(** C1, as amended.  With a history of N commits as git prints them,
    the sync script (one STEP.md per commit) stores exactly N step
    entries when N is not 0, and when N = 0 it aborts at [git log] and
    stores no list at all; [getSteps] (one combined STEPS.md) returns
    exactly min(N, number of H1 sections) steps.  In both, the step at
    index i has id and slug equal to the decimal string of i, and it
    belongs to the i-th commit of the history, oldest first: its
    commit field is the abbreviated name [%h] of that commit in the
    sync script, and its full name in [getSteps]. *)
Theorem C1_step_list_order :
  forall (fm : string -> option (string * string))
         (pf : string -> SyncData.ProjectConfig) (dh : string -> string)
         (e : SyncData.Env) (stepsFile : result string),
    wfHistory (SyncData.git e) = true ->
    let g := SyncData.git e in
    (history g = [] -> SyncData.manifest fm pf dh e = None)
    /\ (history g <> [] ->
        exists d,
          SyncData.manifest fm pf dh e = Some d
          /\ List.length (SyncData.pd_steps d) = List.length (history g)
          /\ forall i c, nth_error (history g) i = Some c ->
               exists st, nth_error (SyncData.pd_steps d) i = Some st
                          /\ SyncData.id st = JS.toString i
                          /\ SyncData.slug st = JS.toString i
                          /\ SyncData.commit st = abbrevHash c)
    /\ List.length (StepsTs.getSteps g stepsFile)
       = Nat.min (List.length (history g)) (Spec.sectionCount stepsFile)
    /\ forall i st, nth_error (StepsTs.getSteps g stepsFile) i = Some st ->
         StepsTs.id st = JS.toString i /\ StepsTs.slug st = JS.toString i
         /\ exists c, nth_error (history g) i = Some c
                      /\ StepsTs.commit st = c_hash c.
Proof.
  intros fm pf dh e stepsFile Hwf g. subst g.
  split; [apply SyncFacts.manifest_none|]. split.
  - intros Hne. eexists. split; [now apply SyncFacts.manifest_some|].
    cbn [SyncData.pd_steps SyncData.projectData].
    rewrite entries_length. split; [reflexivity|].
    intros i c Hi.
    eexists. split; [apply entries_nth; eassumption|].
    destruct (step_fields (SyncData.git e) i (Spec.syncRecord c)) as (A & B & C & _).
    auto.
  - unfold StepsTs.getSteps, logFull.
    destruct (history (SyncData.git e)) as [|c0 cs] eqn:Hh.
    + split; [reflexivity|]. intros [|i] st; discriminate.
    + pose proof (StepsFacts.steps_commits (c0 :: cs)) as Hcs.
      unfold wfHistory in Hwf. rewrite Hh in Hwf.
      specialize (Hcs ltac:(discriminate) Hwf).
      set (rs := StepsTs.commits (lines (map fullLine (c0 :: cs)))) in *.
      assert (Hlen : List.length rs = List.length (c0 :: cs)).
      { rewrite <- (length_map StepsTs.hash rs), Hcs. apply length_map. }
      destruct stepsFile as [fileContent|]; simpl Spec.sectionCount.
      * rewrite StepsFacts.merge_length, StepsFacts.sections_length, Hlen.
        split; [reflexivity|]. intros i st Hi.
        assert (Hlt : i < List.length (c0 :: cs)).
        { assert (Hn : nth_error
                         (StepsTs.merge 0
                            (Nat.min (List.length (c0 :: cs))
                               (Spec.countH1From true fileContent))
                            rs (StepsTs.sections fileContent)) i <> None)
            by (rewrite Hi; discriminate).
          apply nth_error_Some in Hn.
          rewrite StepsFacts.merge_length in Hn. lia. }
        apply StepsFacts.merge_nth in Hi as (A & B & C). simpl in A, B, C.
        repeat split; trivial.
        destruct (nth_error (c0 :: cs) i) as [c|] eqn:Hc;
          [|apply nth_error_None in Hc; lia].
        exists c. split; [reflexivity|]. rewrite C.
        change EmptyString with (StepsTs.hash (StepsTs.mkCommitInfo EmptyString EmptyString)) at 1.
        rewrite <- map_nth, Hcs.
        apply nth_error_nth. now rewrite nth_error_map, Hc.
      * rewrite Nat.min_0_r. split; [reflexivity|]. intros [|i] st; discriminate.
Qed.

(** The sample history meets the theorem's hypothesis, and there the
    sync script stores two steps and [getSteps] pairs the two commits
    with the first two of three sections. *)
Lemma C1_witness :
  wfHistory Example.sampleGit = true
  /\ List.length (StepsTs.getSteps Example.sampleGit Example.sampleStepsFile)
     = Nat.min (List.length (history Example.sampleGit))
               (Spec.sectionCount Example.sampleStepsFile).
Proof.
  split; [reflexivity|].
  exact (proj1 (proj2 (proj2 (C1_step_list_order Example.noMatch Example.noFields
                                Example.keepBody Example.sampleEnv
                                Example.sampleStepsFile eq_refl)))).
Defined.

(** C1 as stated fails on the sample: the step of its first commit
    carries the 7-digit name [1a2b3c4], not the hash of that commit.
    And before the first commit the script stores no list, where the
    claim has a list of no steps. *)
Lemma C1_counterexample :
  (exists d st c,
     SyncData.manifest Example.noMatch Example.noFields Example.keepBody
                       Example.sampleEnv = Some d
     /\ nth_error (SyncData.pd_steps d) 0 = Some st
     /\ nth_error (history Example.sampleGit) 0 = Some c
     /\ SyncData.commit st = "1a2b3c4"
     /\ c_hash c = "1a2b3c4d5e6f7a8b9c0d1a2b3c4d5e6f7a8b9c0d"
     /\ String.eqb (SyncData.commit st) (c_hash c) = false)
  /\ (history (SyncData.git Example.emptyEnv) = []
      /\ SyncData.manifest Example.noMatch Example.noFields Example.keepBody
                           Example.emptyEnv = None).
Proof.
  split; [|split; reflexivity].
  eexists. eexists. eexists. repeat split.
Qed.


Lemma substring_all (s : string) : substring 0 (String.length s) s = s.
Proof. induction s as [|c s IH]; simpl; [reflexivity | now rewrite IH]. Qed.

Lemma manifest_steps (fm : string -> option (string * string))
  (pf : string -> SyncData.ProjectConfig) (dh : string -> string)
  (e : SyncData.Env) (d : SyncData.ProjectData) :
  wfHistory (SyncData.git e) = true ->
  SyncData.manifest fm pf dh e = Some d ->
  history (SyncData.git e) <> []
  /\ SyncData.pd_steps d = Spec.entries (SyncData.git e).
Proof.
  intros Hwf Hd.
  destruct (history (SyncData.git e)) as [|c cs] eqn:Hh.
  - rewrite SyncFacts.manifest_none in Hd by assumption. discriminate.
  - rewrite SyncFacts.manifest_some in Hd by (trivial; rewrite Hh; discriminate).
    injection Hd as <-. split; [discriminate | reflexivity].
Qed.

Lemma entries_inv (g : Git) (i : nat) (st : SyncData.StepMeta) :
  nth_error (Spec.entries g) i = Some st ->
  exists c, nth_error (history g) i = Some c
            /\ st = snd (SyncData.step g i (Spec.syncRecord c)).
Proof.
  intros H.
  destruct (nth_error (history g) i) as [c|] eqn:Hc.
  - exists c. split; [reflexivity|].
    rewrite (entries_nth g i c Hc) in H. now injection H.
  - apply nth_error_None in Hc. rewrite <- entries_length in Hc.
    apply nth_error_None in Hc. congruence.
Qed.

(** C2, as amended.  The records [getSteps] reads from
    [git log --no-abbrev-commit] carry the full name of each commit.  The records the sync script reads from [--format="%h %s"],
    and with them the commit field of every manifest entry, carry the
    name as [%h] abbreviates it: a prefix of the full name, of the
    length git chose, equal to the full name only when that length is
    the length of the full name. *)
Theorem C2_commit_names :
  forall (fm : string -> option (string * string))
         (pf : string -> SyncData.ProjectConfig) (dh : string -> string)
         (e : SyncData.Env),
    wfHistory (SyncData.git e) = true ->
    let g := SyncData.git e in
    (forall out, logFull g = Ok out ->
       map StepsTs.hash (StepsTs.commits out) = map c_hash (history g))
    /\ (forall out, logShort g = Ok out ->
          map SyncData.hash (SyncData.commits out) = map abbrevHash (history g))
    /\ (forall d i st,
          SyncData.manifest fm pf dh e = Some d ->
          nth_error (SyncData.pd_steps d) i = Some st ->
          exists c, nth_error (history g) i = Some c
                    /\ SyncData.commit st = abbrevHash c
                    /\ String.prefix (SyncData.commit st) (c_hash c) = true
                    /\ String.length (SyncData.commit st) = c_abbrev c
                    /\ (SyncData.commit st = c_hash c
                        <-> c_abbrev c = String.length (c_hash c))).
Proof.
  intros fm pf dh e Hwf g. subst g.
  pose proof Hwf as Hall. unfold wfHistory in Hall. rewrite forallb_forall in Hall.
  split; [|split].
  - intros out Hout. unfold logFull in Hout.
    destruct (history (SyncData.git e)) as [|c cs] eqn:Hh; [discriminate|].
    replace out with (lines (map fullLine (c :: cs))) by congruence.
    unfold wfHistory in Hwf. rewrite Hh in Hwf.
    now rewrite StepsFacts.steps_commits by (trivial; discriminate).
  - intros out Hout. unfold logShort in Hout.
    destruct (history (SyncData.git e)) as [|c cs] eqn:Hh; [discriminate|].
    replace out with (lines (map shortLine (c :: cs))) by congruence.
    unfold wfHistory in Hwf. rewrite Hh in Hwf.
    rewrite LogFacts.sync_commits, map_map by assumption. reflexivity.
  - intros d i st Hd Hi.
    destruct (manifest_steps fm pf dh e d Hwf Hd) as (_ & Hsteps).
    rewrite Hsteps in Hi. apply entries_inv in Hi as (c & Hc & ->).
    exists c. split; [assumption|].
    destruct (step_fields (SyncData.git e) i (Spec.syncRecord c)) as (_ & _ & -> & _).
    simpl. assert (Hwc : wfCommit c = true) by (eapply Hall, nth_error_In; eauto).
    repeat split.
    + apply LogFacts.prefix_substring.
    + now apply LogFacts.abbrev_length.
    + intros E. now rewrite <- (LogFacts.abbrev_length c Hwc), E.
    + intros E. unfold abbrevHash. rewrite E. apply substring_all.
Qed.

(** The sample history meets the hypothesis; there the sync script reads
    the two abbreviated names. *)
Lemma C2_witness :
  wfHistory Example.sampleGit = true
  /\ forall out, logShort Example.sampleGit = Ok out ->
       map SyncData.hash (SyncData.commits out)
       = map abbrevHash (history Example.sampleGit).
Proof.
  split; [reflexivity|].
  exact (proj1 (proj2 (C2_commit_names Example.noMatch Example.noFields
                         Example.keepBody Example.sampleEnv eq_refl))).
Defined.

(** C2 as stated fails on the sample history: the manifest stores the
    7-digit names, not the 40-digit ones. *)
Lemma C2_counterexample :
  exists d,
    SyncData.manifest Example.noMatch Example.noFields Example.keepBody
                      Example.sampleEnv = Some d
    /\ map SyncData.commit (SyncData.pd_steps d) = ["1a2b3c4"; "ffeeddc"]
    /\ map c_hash (history Example.sampleGit) = [Example.hash0; Example.hash1]
    /\ map String.length (map SyncData.commit (SyncData.pd_steps d)) = [7; 7]
    /\ map String.length (map c_hash (history Example.sampleGit)) = [40; 40].
Proof. eexists. split; [reflexivity|]. repeat split. Qed.

(** ** File-system calls of a run *)

Lemma setup_calls (fm : string -> option (string * string))
  (pf : string -> SyncData.ProjectConfig) (dh : string -> string)
  (e : SyncData.Env) (x : SyncData.Effect) :
  In x (SyncData.setup fm pf dh e) ->
  x = SyncData.RmSync SyncData.STEPS_DIR
  \/ x = SyncData.MkdirSync SyncData.STEPS_DIR
  \/ x = SyncData.MkdirSync SyncData.DOCS_DIR
  \/ exists body, x = SyncData.WriteFileSync
                        (SyncData.Join SyncData.DOCS_DIR "readme.md") body.
Proof.
  unfold SyncData.setup.
  destruct (SyncData.stepsDirExists e), (SyncData.docsDirExists e),
    (SyncData.readme e); simpl; intuition eauto.
Qed.

(** C4, as amended.  When [git log] fails (the location is not a
    repository, or it has no commit), the sync script stops there with
    the exception of [execSync], uncaught: no step file and no manifest
    is written, so no manifest with an empty step list exists.  The
    steps directory has been cleared and made again by then, and the
    README copy written when a README exists, and through
    [build-site.ts] the run ends with the message [Failed to sync data]
    and exit status 1.  A local path that does not exist or has no
    [.git] directory is refused by [build-site.ts] before anything is
    written, with a message that names the path.  [getSteps] logs the
    failure and returns the empty list. *)
Theorem C4_abort_on_empty_history :
  forall (fm : string -> option (string * string))
         (pf : string -> SyncData.ProjectConfig) (dh : string -> string)
         (e : SyncData.Env) (stepsFile : result string),
    history (SyncData.git e) = [] ->
    SyncData.main fm pf dh e = (SyncData.setup fm pf dh e, Throw)
    /\ SyncData.manifest fm pf dh e = None
    /\ (forall p d, ~ In (SyncData.WriteJson p d) (SyncData.effects fm pf dh e))
    /\ (forall name data,
          ~ In (SyncData.WriteFileSync (SyncData.Join SyncData.STEPS_DIR name) data)
               (SyncData.effects fm pf dh e))
    /\ In (SyncData.MkdirSync SyncData.STEPS_DIR) (SyncData.effects fm pf dh e)
    /\ (forall raw, SyncData.readme e = Some raw ->
          In (SyncData.WriteFileSync (SyncData.Join SyncData.DOCS_DIR "readme.md")
                (snd (SyncData.readReadme fm pf dh raw)))
             (SyncData.effects fm pf dh e))
    /\ (forall loc npmBuild,
          BuildSite.isRemote (BuildSite.gitPath loc) = false ->
          BuildSite.pathExists loc = true -> BuildSite.dotGitExists loc = true ->
          BuildSite.run loc (SyncData.main fm pf dh e) npmBuild
          = (SyncData.setup fm pf dh e, BuildSite.Exit1 "Failed to sync data"))
    /\ (forall loc npmBuild,
          BuildSite.isRemote (BuildSite.gitPath loc) = false ->
          BuildSite.pathExists loc = false \/ BuildSite.dotGitExists loc = false ->
          BuildSite.run loc (SyncData.main fm pf dh e) npmBuild
          = ([], BuildSite.Exit1
                   ((if BuildSite.pathExists loc
                     then "Error: Not a git repository: "
                     else "Error: Local path does not exist: ")
                    ++ BuildSite.sourceRepo loc)))
    /\ StepsTs.getSteps (SyncData.git e) stepsFile = [].
Proof.
  intros fm pf dh e stepsFile Hh.
  assert (Hmain : SyncData.main fm pf dh e = (SyncData.setup fm pf dh e, Throw)).
  { now rewrite SyncFacts.main_unfold, (SyncFacts.logShort_empty e Hh). }
  unfold SyncData.effects. rewrite Hmain. simpl fst.
  repeat split.
  - now apply SyncFacts.manifest_none.
  - intros p d Hin.
    apply setup_calls in Hin as [H|[H|[H|(b & H)]]]; discriminate.
  - intros name data Hin.
    apply setup_calls in Hin as [H|[H|[H|(b & H)]]]; discriminate.
  - unfold SyncData.setup. apply in_or_app. right. now left.
  - intros raw Hraw. unfold SyncData.setup. rewrite Hraw.
    apply in_or_app. right. simpl. right. apply in_or_app. right. now left.
  - intros loc npmBuild Hlocal Hpath Hgit. unfold BuildSite.run.
    now rewrite Hlocal, Hpath, Hgit.
  - intros loc npmBuild Hlocal Hbad. unfold BuildSite.run. rewrite Hlocal.
    destruct (BuildSite.pathExists loc); [|reflexivity].
    destruct Hbad as [Hbad|Hbad]; [discriminate | now rewrite Hbad].
  - unfold StepsTs.getSteps, logFull. now rewrite Hh.
Qed.

(** The location before its first commit: no manifest is written. *)
Lemma C4_witness :
  history (SyncData.git Example.emptyEnv) = []
  /\ SyncData.manifest Example.noMatch Example.noFields Example.keepBody
                       Example.emptyEnv = None.
Proof.
  split; [reflexivity|].
  exact (proj1 (proj2 (C4_abort_on_empty_history Example.noMatch
                         Example.noFields Example.keepBody Example.emptyEnv
                         Throw eq_refl))).
Defined.

(** C4 as stated fails before the first commit: the run aborts, but
    only after it has removed and remade the steps directory and
    written the README copy. *)
Lemma C4_counterexample :
  history (SyncData.git Example.emptyEnv) = []
  /\ SyncData.main Example.noMatch Example.noFields Example.keepBody
                   Example.emptyEnv
     = ([SyncData.RmSync SyncData.STEPS_DIR;
         SyncData.MkdirSync SyncData.STEPS_DIR;
         SyncData.MkdirSync SyncData.DOCS_DIR;
         SyncData.WriteFileSync (SyncData.Join SyncData.DOCS_DIR "readme.md")
                                "Work in progress"],
        Throw).
Proof. split; reflexivity. Qed.

Lemma toString_inj (i j : nat) : JS.toString i = JS.toString j -> i = j.
Proof.
  unfold JS.toString. intros H.
  apply (f_equal NilEmpty.uint_of_string) in H. rewrite !NilEmpty.usu in H.
  injection H as H. apply (f_equal Nat.of_uint) in H.
  now rewrite !Unsigned.of_to in H.
Qed.

Lemma length_append (a b : string) :
  String.length (a ++ b) = String.length a + String.length b.
Proof. induction a as [|c a IH]; simpl; [reflexivity | now rewrite IH]. Qed.

Lemma append_inj_l (s a b : string) : a ++ s = b ++ s -> a = b.
Proof.
  revert b. induction a as [|c a IH]; intros [|d b] H; simpl in H.
  - reflexivity.
  - apply (f_equal String.length) in H. simpl in H.
    rewrite length_append in H. lia.
  - apply (f_equal String.length) in H. simpl in H.
    rewrite length_append in H. lia.
  - injection H as -> H. now rewrite (IH b H).
Qed.

(** The last code unit of a string. *)
Lemma last_append (a : string) (c : ascii) (t : string) :
  get (String.length (a ++ String c t) - 1) (a ++ String c t)
  = get (String.length (String c t) - 1) (String c t).
Proof.
  rewrite (append_correct2 a (String c t)). f_equal.
  rewrite length_append. simpl. lia.
Qed.

Lemma step_file_not_output (a b : string) : a ++ ".md" <> b ++ ".output.txt".
Proof.
  intros H.
  pose proof (last_append a "." "md") as Ha.
  pose proof (last_append b "." "output.txt") as Hb.
  rewrite H in Ha. rewrite Ha in Hb. discriminate.
Qed.

Lemma step_calls (g : Git) (i : nat) (c : SyncData.CommitInfo) :
  fst (SyncData.step g i c)
  = (SyncData.WriteFileSync (SyncData.destStepFile (JS.toString i))
       (SyncData.fileContent (snd (SyncData.readStep g c)) (SyncData.hash c)
          (JS.toString i) (fst (SyncData.readStep g c)))
     :: (if SyncData.hasOutput (snd (SyncData.step g i c))
         then [SyncData.WriteFileSync (SyncData.destOutputFile (JS.toString i))
                 (SyncData.readOutput g c)]
         else []))%list.
Proof. unfold SyncData.step. now destruct (SyncData.readStep g c). Qed.

Lemma step_hasOutput (g : Git) (i : nat) (c : SyncData.CommitInfo) :
  SyncData.hasOutput (snd (SyncData.step g i c)) = true
  <-> exists out, showText g (SyncData.hash c) "OUTPUT.md" = Ok out
                  /\ out <> EmptyString.
Proof.
  unfold SyncData.step. destruct (SyncData.readStep g c). simpl.
  unfold SyncData.readOutput.
  destruct (showText g (SyncData.hash c) "OUTPUT.md") as [[|x out]|]; simpl; split;
    try discriminate.
  - intros (out & [= <-] & H). now elim H.
  - intros _. eexists. split; [reflexivity | discriminate].
  - reflexivity.
  - intros (out & H & _). discriminate.
Qed.

Section SyncRun.
Variable fm : string -> option (string * string).
Variable pf : string -> SyncData.ProjectConfig.
Variable dh : string -> string.
Variable e : SyncData.Env.
Hypothesis wf : wfHistory (SyncData.git e) = true.
Hypothesis some : history (SyncData.git e) <> [].

Let g := SyncData.git e.
Let runs := SyncData.steps g (map Spec.syncRecord (history g)).

Lemma run_ok :
  SyncData.main fm pf dh e
  = ((SyncData.setup fm pf dh e ++ List.concat (map fst runs)
      ++ [SyncData.WriteJson SyncData.DATA_FILE
            (SyncData.projectData e (SyncData.config fm pf dh e) (Spec.entries g))])%list,
     Ok tt).
Proof.
  destruct (SyncFacts.logShort_commits e some wf) as (out & Hout & Hcs).
  rewrite SyncFacts.main_unfold, Hout. simpl. unfold Spec.entries.
  now rewrite Hcs.
Qed.

Lemma runs_nth (i : nat) (c : Commit) :
  nth_error (history g) i = Some c ->
  nth_error runs i = Some (SyncData.step g i (Spec.syncRecord c)).
Proof.
  intros H. unfold runs, SyncData.steps.
  rewrite (LogFacts.mapi_nth_error (SyncData.step g) _ 0 i (Spec.syncRecord c)).
  - reflexivity.
  - now rewrite nth_error_map, H.
Qed.

Lemma runs_inv (r : list SyncData.Effect * SyncData.StepMeta) :
  In r runs ->
  exists i c, nth_error (history g) i = Some c
              /\ r = SyncData.step g i (Spec.syncRecord c).
Proof.
  intros Hin. apply In_nth_error in Hin as (i & Hi).
  destruct (nth_error (history g) i) as [c|] eqn:Hc.
  - exists i, c. split; [exact Hc|]. rewrite (runs_nth i c Hc) in Hi. congruence.
  - apply nth_error_None in Hc.
    assert (Hlen : List.length runs = List.length (history g)).
    { unfold runs, SyncData.steps. now rewrite LogFacts.mapi_length, length_map. }
    rewrite <- Hlen in Hc. apply nth_error_None in Hc. congruence.
Qed.

(** Every file-system call of a completed run: the setup, the calls of
    one of the steps, or the manifest. *)
Lemma effects_inv (x : SyncData.Effect) :
  In x (SyncData.effects fm pf dh e) <->
  In x (SyncData.setup fm pf dh e)
  \/ (exists i c, nth_error (history g) i = Some c
                  /\ In x (fst (SyncData.step g i (Spec.syncRecord c))))
  \/ x = SyncData.WriteJson SyncData.DATA_FILE
           (SyncData.projectData e (SyncData.config fm pf dh e) (Spec.entries g)).
Proof.
  unfold SyncData.effects. rewrite run_ok. simpl fst.
  rewrite !in_app_iff, in_concat. split.
  - intros [H|[(l & Hl & Hx)|[H|[]]]]; auto.
    right. left. apply in_map_iff in Hl as (r & <- & Hr).
    apply runs_inv in Hr as (i & c & Hc & ->). eauto.
  - intros [H|[(i & c & Hc & Hx)|H]]; auto.
    + right. left. exists (fst (SyncData.step g i (Spec.syncRecord c))).
      split; [|assumption]. apply in_map. eapply nth_error_In, runs_nth, Hc.
    + right. right. now left.
Qed.

End SyncRun.

Lemma manifest_entry (fm : string -> option (string * string))
  (pf : string -> SyncData.ProjectConfig) (dh : string -> string)
  (e : SyncData.Env) (i : nat) (c : Commit) :
  wfHistory (SyncData.git e) = true ->
  nth_error (history (SyncData.git e)) i = Some c ->
  history (SyncData.git e) <> []
  /\ exists d, SyncData.manifest fm pf dh e = Some d
               /\ nth_error (SyncData.pd_steps d) i
                  = Some (snd (SyncData.step (SyncData.git e) i (Spec.syncRecord c))).
Proof.
  intros Hwf Hc.
  assert (Hne : history (SyncData.git e) <> []).
  { intros E. rewrite E in Hc. destruct i; discriminate. }
  split; [assumption|]. eexists. split.
  - now apply SyncFacts.manifest_some.
  - simpl. now apply entries_nth.
Qed.

(** C6, as amended.  For a commit without STEP.md the run still
    completes and stores a step for it: the step file written is the
    frontmatter (the subject as title, with its double quotes escaped,
    the commit name and the index as slug), a blank line, the
    synthetic text [# <subject>], a blank line and
    [*No STEP.md found for this commit.*], and a line feed; the title
    is the subject.  The hasOutput flag does not depend on STEP.md: it is true
    exactly when OUTPUT.md is read at that commit with non-empty
    content, hence false when OUTPUT.md is missing too. *)
Theorem C6_missing_step_fallback :
  forall (fm : string -> option (string * string))
         (pf : string -> SyncData.ProjectConfig) (dh : string -> string)
         (e : SyncData.Env) (i : nat) (c : Commit),
    wfHistory (SyncData.git e) = true ->
    nth_error (history (SyncData.git e)) i = Some c ->
    showText (SyncData.git e) (abbrevHash c) "STEP.md" = Throw ->
    snd (SyncData.main fm pf dh e) = Ok tt
    /\ In (SyncData.WriteFileSync
             (SyncData.Join SyncData.STEPS_DIR (JS.toString i ++ ".md"))
             ("---" ++ nl
              ++ "title: " ++ String JS.DQUOTE EmptyString
              ++ SyncData.escapeQuotes (c_subject c)
              ++ String JS.DQUOTE EmptyString ++ nl
              ++ "commit: " ++ String JS.DQUOTE EmptyString
              ++ abbrevHash c ++ String JS.DQUOTE EmptyString ++ nl
              ++ "slug: " ++ String JS.DQUOTE EmptyString
              ++ JS.toString i ++ String JS.DQUOTE EmptyString ++ nl
              ++ "---" ++ nl ++ nl
              ++ "# " ++ c_subject c ++ nl ++ nl
              ++ "*No STEP.md found for this commit.*" ++ nl))
          (SyncData.effects fm pf dh e)
    /\ exists d st,
         SyncData.manifest fm pf dh e = Some d
         /\ nth_error (SyncData.pd_steps d) i = Some st
         /\ SyncData.title st = c_subject c
         /\ (SyncData.hasOutput st = true
             <-> exists out, showText (SyncData.git e) (abbrevHash c) "OUTPUT.md" = Ok out
                             /\ out <> EmptyString)
         /\ (showText (SyncData.git e) (abbrevHash c) "OUTPUT.md" = Throw
             -> SyncData.hasOutput st = false).
Proof.
  intros fm pf dh e i c Hwf Hc Hstep.
  destruct (manifest_entry fm pf dh e i c Hwf Hc) as (Hne & d & Hd & Hst).
  assert (Hread : SyncData.readStep (SyncData.git e) (Spec.syncRecord c)
                  = (SyncData.fallbackStep (c_subject c), c_subject c)).
  { unfold SyncData.readStep. simpl. now rewrite Hstep. }
  split; [now rewrite run_ok|]. split.
  - apply effects_inv; trivial. right. left. exists i, c. split; [assumption|].
    rewrite step_calls, Hread. left.
    unfold SyncData.destStepFile, SyncData.fileContent, SyncData.quoted,
      SyncData.fallbackStep.
    cbn [fst snd Spec.syncRecord SyncData.hash]. f_equal.
    rewrite !JSFacts.append_assoc. simpl. rewrite !JSFacts.append_assoc.
    reflexivity.
  - exists d, (snd (SyncData.step (SyncData.git e) i (Spec.syncRecord c))).
    split; [assumption|]. split; [assumption|]. split; [|split].
    + unfold SyncData.step. now rewrite Hread.
    + exact (step_hasOutput (SyncData.git e) i (Spec.syncRecord c)).
    + intros Hout. apply not_true_is_false. intros H.
      apply step_hasOutput in H as (out & H & _). simpl in H. congruence.
Qed.

(** The second commit of the sample has no STEP.md: the run completes
    and writes this text to [1.md]. *)
Lemma C6_witness :
  (wfHistory (SyncData.git Example.sampleEnv) = true
   /\ nth_error (history (SyncData.git Example.sampleEnv)) 1
      = Some (mkCommit Example.hash1 7 "Add  agent loop" "2025-11-30 09:30:00 -0500")
   /\ showText (SyncData.git Example.sampleEnv) "ffeeddc" "STEP.md" = Throw)
  /\ snd (SyncData.main Example.noMatch Example.noFields Example.keepBody
            Example.sampleEnv) = Ok tt
  /\ In (SyncData.WriteFileSync (SyncData.Join SyncData.STEPS_DIR "1.md")
           ("---" ++ nl
            ++ "title: " ++ Example.quote ++ "Add  agent loop" ++ Example.quote ++ nl
            ++ "commit: " ++ Example.quote ++ "ffeeddc" ++ Example.quote ++ nl
            ++ "slug: " ++ Example.quote ++ "1" ++ Example.quote ++ nl
            ++ "---" ++ nl ++ nl
            ++ "# Add  agent loop" ++ nl ++ nl
            ++ "*No STEP.md found for this commit.*" ++ nl))
        (SyncData.effects Example.noMatch Example.noFields Example.keepBody
           Example.sampleEnv).
Proof.
  split; [repeat split|].
  destruct (C6_missing_step_fallback Example.noMatch Example.noFields
              Example.keepBody Example.sampleEnv 1
              (mkCommit Example.hash1 7 "Add  agent loop" "2025-11-30 09:30:00 -0500")
              eq_refl eq_refl eq_refl) as (Hrun & Hfile & _).
  split; [exact Hrun | exact Hfile].
Defined.

(** C6 as stated fails on the second commit of the sample: it has no
    STEP.md, and its step has hasOutput = true because its OUTPUT.md
    is there. *)
Lemma C6_counterexample :
  showText Example.sampleGit "ffeeddc" "STEP.md" = Throw
  /\ exists d,
       SyncData.manifest Example.noMatch Example.noFields Example.keepBody
                         Example.sampleEnv = Some d
       /\ map SyncData.commit (SyncData.pd_steps d) = ["1a2b3c4"; "ffeeddc"]
       /\ map SyncData.hasOutput (SyncData.pd_steps d) = [false; true].
Proof. split; [reflexivity|]. eexists. repeat split. Qed.

(** C10.  The step stored for a commit has hasOutput = true exactly
    when [git show <commit>:OUTPUT.md] returned non-empty content; an
    OUTPUT.md that exists and is empty gives false; and the run writes
    the output file of that step, [<index>.output.txt], exactly when
    the flag is true. *)
Theorem C10_hasOutput_iff_output :
  forall (fm : string -> option (string * string))
         (pf : string -> SyncData.ProjectConfig) (dh : string -> string)
         (e : SyncData.Env) (i : nat) (c : Commit),
    wfHistory (SyncData.git e) = true ->
    nth_error (history (SyncData.git e)) i = Some c ->
    exists d st,
      SyncData.manifest fm pf dh e = Some d
      /\ nth_error (SyncData.pd_steps d) i = Some st
      /\ (SyncData.hasOutput st = true
          <-> exists out, showText (SyncData.git e) (abbrevHash c) "OUTPUT.md" = Ok out
                          /\ out <> EmptyString)
      /\ (showText (SyncData.git e) (abbrevHash c) "OUTPUT.md" = Ok EmptyString
          -> SyncData.hasOutput st = false)
      /\ ((exists data,
             In (SyncData.WriteFileSync (SyncData.destOutputFile (JS.toString i)) data)
                (SyncData.effects fm pf dh e))
          <-> SyncData.hasOutput st = true).
Proof.
  intros fm pf dh e i c Hwf Hc.
  destruct (manifest_entry fm pf dh e i c Hwf Hc) as (Hne & d & Hd & Hst).
  exists d, (snd (SyncData.step (SyncData.git e) i (Spec.syncRecord c))).
  split; [assumption|]. split; [assumption|]. split; [|split; [|split]].
  - exact (step_hasOutput (SyncData.git e) i (Spec.syncRecord c)).
  - intros Hout. apply not_true_is_false. intros H.
    apply step_hasOutput in H as (out & H & Hx). simpl in H. congruence.
  - intros (data & Hin). apply effects_inv in Hin; trivial.
    destruct Hin as [Hin|[(j & c' & Hj & Hin)|Hin]]; [| |discriminate].
    + apply setup_calls in Hin as [H|[H|[H|(b & H)]]]; discriminate.
    + rewrite step_calls in Hin. destruct Hin as [Hin|Hin].
      * injection Hin as Hp _. now apply step_file_not_output in Hp.
      * destruct (SyncData.hasOutput
                    (snd (SyncData.step (SyncData.git e) j (Spec.syncRecord c'))))
          eqn:Hflag; [|contradiction].
        destruct Hin as [Hin|[]]. injection Hin as Hp _.
        apply append_inj_l, toString_inj in Hp. subst j.
        rewrite Hc in Hj. injection Hj as <-. exact Hflag.
  - intros Hflag. exists (SyncData.readOutput (SyncData.git e) (Spec.syncRecord c)).
    apply effects_inv; trivial. right. left. exists i, c. split; [assumption|].
    rewrite step_calls, Hflag. right. now left.
Qed.

(** The second commit of the sample has a non-empty OUTPUT.md, and its
    step has the flag. *)
Lemma C10_witness :
  (wfHistory (SyncData.git Example.sampleEnv) = true
   /\ nth_error (history (SyncData.git Example.sampleEnv)) 1
      = Some (mkCommit Example.hash1 7 "Add  agent loop" "2025-11-30 09:30:00 -0500"))
  /\ exists d st,
       SyncData.manifest Example.noMatch Example.noFields Example.keepBody
                         Example.sampleEnv = Some d
       /\ nth_error (SyncData.pd_steps d) 1 = Some st
       /\ SyncData.hasOutput st = true.
Proof.
  split; [split; reflexivity|].
  destruct (C10_hasOutput_iff_output Example.noMatch Example.noFields
              Example.keepBody Example.sampleEnv 1
              (mkCommit Example.hash1 7 "Add  agent loop" "2025-11-30 09:30:00 -0500")
              eq_refl eq_refl) as (d & st & Hd & Hst & Hflag & _).
  exists d, st. repeat split; trivial.
  apply Hflag. exists "$ npm test". split; [reflexivity | discriminate].
Defined.

(** ** The git accessors and the diff view *)

Module GitFacts.
Import GitTs Workspace.

Section Accessors.
Variable decode : list byte -> result string.
Variable g : Git.
Variable commit : string.

Lemma includes0_iff (buf : list byte) : includes0 buf = true <-> In x00 buf.
Proof.
  unfold includes0. rewrite existsb_exists. split.
  - intros (b & Hb & E). apply Byte.byte_dec_bl in E. now subst.
  - intros H. exists x00. split; [assumption | reflexivity].
Qed.

(** [getFileContent], case by case. *)
Lemma getFileContent_cases (filePath : string) :
  getFileContent decode g commit filePath
  = Ok match showBuffer g commit filePath with
       | Ok buf =>
           if includes0 buf then None
           else match decode buf with Ok s => Some s | Throw => None end
       | Throw => None
       end.
Proof.
  unfold getFileContent, tryCatch, bind.
  destruct (showBuffer g commit filePath) as [buf|]; [|reflexivity].
  destruct (includes0 buf); [reflexivity|].
  now destruct (decode buf).
Qed.

Lemma fileNode_total (filePath : string) :
  fileNode decode g commit filePath = Ok (Spec.nodeFor decode g commit filePath).
Proof.
  unfold fileNode, Spec.nodeFor, tryCatch, bind.
  rewrite getFileContent_cases.
  now destruct (match showBuffer g commit filePath with Ok _ => _ | Throw => _ end).
Qed.

Lemma mapM_total {A B : Type} (f : A -> result B) (f' : A -> B) (l : list A) :
  (forall a, f a = Ok (f' a)) -> mapM f l = Ok (map f' l).
Proof.
  intros H. induction l as [|a l IH]; simpl; [reflexivity|].
  now rewrite H, IH.
Qed.

Lemma getCommitFiles_cases :
  getCommitFiles decode g commit
  = Ok match lsTree g commit with
       | Ok output => map (Spec.nodeFor decode g commit) (nonEmptyLines output)
       | Throw => []
       end.
Proof.
  unfold getCommitFiles, tryCatch, bind.
  destruct (lsTree g commit) as [output|]; [|reflexivity].
  now rewrite (mapM_total _ _ _ fileNode_total).
Qed.

Lemma getChangedFiles_cases :
  getChangedFiles g commit
  = Ok match showNameOnly g commit with
       | Ok output => nonEmptyLines output
       | Throw => []
       end.
Proof.
  unfold getChangedFiles, tryCatch, bind.
  now destruct (showNameOnly g commit).
Qed.

Lemma nodeFor_path (filePath : string) :
  path (Spec.nodeFor decode g commit filePath) = filePath.
Proof.
  unfold Spec.nodeFor.
  now destruct (getFileContent decode g commit filePath) as [[c|]|].
Qed.

(** The view looks a path up by its first listing. *)
Lemma findFile_nodes (paths : list string) (sel : string) :
  In sel paths ->
  findFile (map (Spec.nodeFor decode g commit) paths) sel
  = Some (Spec.nodeFor decode g commit sel).
Proof.
  unfold findFile. induction paths as [|p paths IH]; simpl; [contradiction|].
  intros Hin. rewrite nodeFor_path.
  destruct (String.eqb p sel) eqn:E.
  - apply String.eqb_eq in E. now subst.
  - destruct Hin as [->|Hin]; [now rewrite String.eqb_refl in E | auto].
Qed.

End Accessors.

(** A binary side, current or previous, ends the diff before any patch
    is computed. *)
Lemma diffView_binary (files prevFiles : list FileNode) (sel : string) :
  binary (findFile files sel) || binary (findFile prevFiles sel) = true ->
  diffView files prevFiles sel = BinaryNotSupported.
Proof.
  unfold diffView. intros H. rewrite H.
  destruct (findFile files sel), (findFile prevFiles sel); trivial.
  discriminate.
Qed.

End GitFacts.

(** When the bytes [execSync] returned for a path at a commit hold a
    null byte, [getFileContent] returns null, the node listed for the
    path is marked binary and has no content, and the diff view of the
    path is the notice that binary diffs are not supported; the notice
    is shown whenever either side is binary. *)
Lemma binary_output :
  forall (decode : list byte -> result string) (g : Git)
         (commit filePath : string) (buf : list byte),
    showBuffer g commit filePath = Ok buf ->
    In x00 buf ->
    GitTs.getFileContent decode g commit filePath = Ok None
    /\ (forall output,
          lsTree g commit = Ok output ->
          In filePath (GitTs.nonEmptyLines output) ->
          exists files,
            GitTs.getCommitFiles decode g commit = Ok files
            /\ Workspace.findFile files filePath = Some (GitTs.binaryNode filePath)
            /\ forall others,
                 Workspace.diffView files others filePath = Workspace.BinaryNotSupported
                 /\ Workspace.diffView others files filePath = Workspace.BinaryNotSupported)
    /\ (forall files prevFiles selectedFile,
          Workspace.binary (Workspace.findFile files selectedFile) = true
          \/ Workspace.binary (Workspace.findFile prevFiles selectedFile) = true ->
          Workspace.diffView files prevFiles selectedFile = Workspace.BinaryNotSupported).
Proof.
  intros decode g commit filePath buf Hshow Hnull.
  assert (Hnone : GitTs.getFileContent decode g commit filePath = Ok None).
  { rewrite GitFacts.getFileContent_cases, Hshow.
    now rewrite (proj2 (GitFacts.includes0_iff buf) Hnull). }
  split; [exact Hnone|]. split.
  - intros output Hls Hin. eexists. split.
    + rewrite GitFacts.getCommitFiles_cases, Hls. reflexivity.
    + assert (Hfind : Workspace.findFile
                        (map (Spec.nodeFor decode g commit) (GitTs.nonEmptyLines output))
                        filePath = Some (GitTs.binaryNode filePath)).
      { rewrite GitFacts.findFile_nodes by assumption.
        unfold Spec.nodeFor. now rewrite Hnone. }
      split; [exact Hfind|]. intros others. split.
      * apply GitFacts.diffView_binary. now rewrite Hfind.
      * apply GitFacts.diffView_binary. rewrite Hfind. apply orb_true_r.
  - intros files prevFiles sel [H|H]; apply GitFacts.diffView_binary;
      rewrite H; [reflexivity | apply orb_true_r].
Qed.

Module ShellFacts.
Import GitLog Shell.

Lemma wordOf_plain (p : string) :
  allChars plainChar p = true -> wordOf p = Some p.
Proof.
  induction p as [|c p IH]; [reflexivity|]. simpl. intros H.
  apply andb_true_iff in H as [Hc Hp]. now rewrite Hc, (IH Hp).
Qed.

Lemma wordOf_comment (p rest : string) :
  allChars plainChar p = true ->
  allChars (fun x => negb (Ascii.eqb x JS.LF)) rest = true ->
  wordOf (p ++ " #" ++ rest) = Some p.
Proof.
  intros Hp Hrest. induction p as [|c p IH].
  - simpl. now rewrite Hrest.
  - simpl in Hp. apply andb_true_iff in Hp as [Hc Hp].
    change (wordOf (String c (p ++ " #" ++ rest)) = Some (String c p)).
    cbn [wordOf]. now rewrite Hc, (IH Hp).
Qed.

Lemma pathArg_plain (p : string) : plain p = true -> pathArg p = Some p.
Proof.
  unfold plain, pathArg. intros H. apply andb_true_iff in H as [Hne Hp].
  rewrite (wordOf_plain p Hp). now destruct p.
Qed.

Lemma pathArg_comment (p rest : string) :
  plain p = true ->
  allChars (fun x => negb (Ascii.eqb x JS.LF)) rest = true ->
  pathArg (p ++ " #" ++ rest) = Some p.
Proof.
  unfold plain. intros H Hrest. apply andb_true_iff in H as [Hne Hp].
  pose proof (wordOf_comment p rest Hp Hrest) as Hw.
  unfold pathArg. simpl append in *. rewrite Hw. now destruct p.
Qed.

(** A path with a comment in it is read as the path in front of the
    comment. *)
Lemma comment_path (decode : list byte -> result string) (g : Git)
  (blob : string -> string -> option (list byte))
  (commit p rest : string) (txt : list byte) (s : string) :
  showsBlobs g blob ->
  plain commit = true -> plain p = true ->
  allChars (fun x => negb (Ascii.eqb x JS.LF)) rest = true ->
  blob commit p = Some txt ->
  GitTs.includes0 txt = false ->
  decode txt = Ok s ->
  GitTs.getFileContent decode g commit (p ++ " #" ++ rest) = Ok (Some s).
Proof.
  intros Hg Hc Hp Hrest Hblob H0 Hd.
  rewrite GitFacts.getFileContent_cases.
  rewrite (Hg commit (p ++ " #" ++ rest) (Ok txt)).
  - now rewrite H0, Hd.
  - unfold gitShow. now rewrite Hc, (pathArg_comment p rest Hp Hrest), Hblob.
Qed.

Lemma example_shows : showsBlobs ShellExample.git ShellExample.blob.
Proof. intros commit filePath r H. cbn [showBuffer ShellExample.git]. now rewrite H. Qed.

End ShellFacts.

(** C3 (binary safety) does not hold of the code.  [getFileContent]
    pastes the path into the text of a shell command without quoting
    it, so git is not always asked for the file the path names.  In
    the example a commit tracks the text file [notes] and the file
    [notes #1], whose content holds a null byte.  For the path
    [notes #1] the shell takes [#1] as a comment and git prints
    [notes]: [getFileContent] returns the text of [notes], the node
    listed for [notes #1] is a text node with that content, and the
    diff view computes a patch for it.  This happens for every path
    that is a plain path, a space, a hash sign and a rest, when the
    plain path names a text file. *)
Theorem C3_binary_blob_read_as_text :
  Shell.showsBlobs ShellExample.git ShellExample.blob
  /\ (ShellExample.blob "1a2b3c4" "notes #1" = Some [x89; x00; x4e]
      /\ GitTs.includes0 [x89; x00; x4e] = true)
  /\ ShellExample.blob "1a2b3c4" "notes" = Some [x6f; x6b]
  /\ Shell.gitShow ShellExample.blob "1a2b3c4" "notes #1" = Some (Ok [x6f; x6b])
  /\ GitTs.getFileContent Example.asciiText ShellExample.git "1a2b3c4" "notes #1"
     = Ok (Some "ok")
  /\ (exists files,
        GitTs.getCommitFiles Example.asciiText ShellExample.git "1a2b3c4" = Ok files
        /\ map GitTs.path files = ["logo.png"; "notes"; "notes #1"]
        /\ Workspace.findFile files "notes #1"
           = Some (GitTs.textNode "notes #1" "ok")
        /\ Workspace.diffView files [] "notes #1"
           = Workspace.TwoFilesPatch "notes #1" EmptyString "ok")
  /\ (forall (decode : list byte -> result string) (g : Git)
             (blob : string -> string -> option (list byte))
             (commit p rest : string) (bin txt : list byte) (s : string),
        Shell.showsBlobs g blob ->
        Shell.plain commit = true -> Shell.plain p = true ->
        allChars (fun x => negb (Ascii.eqb x JS.LF)) rest = true ->
        blob commit (p ++ " #" ++ rest) = Some bin ->
        In x00 bin ->
        blob commit p = Some txt ->
        GitTs.includes0 txt = false ->
        decode txt = Ok s ->
        GitTs.getFileContent decode g commit (p ++ " #" ++ rest) = Ok (Some s)).
Proof.
  split; [exact ShellFacts.example_shows|].
  split; [split; reflexivity|]. split; [reflexivity|]. split; [reflexivity|].
  split; [reflexivity|]. split.
  - eexists. split; [reflexivity|]. repeat split.
  - intros decode g blob commit p rest bin txt s Hg Hc Hp Hrest _ _ Hblob H0 Hd.
    exact (ShellFacts.comment_path decode g blob commit p rest txt s
             Hg Hc Hp Hrest Hblob H0 Hd).
Qed.

(** X26 (binary safety of plain paths).  For a commit name and a path
    of plain characters (ASCII letters, digits, [_], [-], [.], [/]),
    which the shell passes to git as they are: when the blob tracked
    at the path holds a null byte, [getFileContent] returns null,
    never a text; the node [getCommitFiles] lists for the path is
    marked binary and has no content; and the diff view of the path,
    with this listing on either side, is the notice that binary diffs
    are not supported.  Whatever the paths, the notice is shown
    whenever either side is binary. *)
Theorem X26_binary_safety_plain_path :
  forall (decode : list byte -> result string) (g : Git)
         (blob : string -> string -> option (list byte))
         (commit filePath : string) (bytes : list byte),
    Shell.showsBlobs g blob ->
    Shell.plain commit = true ->
    Shell.plain filePath = true ->
    blob commit filePath = Some bytes ->
    In x00 bytes ->
    GitTs.getFileContent decode g commit filePath = Ok None
    /\ (forall output,
          lsTree g commit = Ok output ->
          In filePath (GitTs.nonEmptyLines output) ->
          exists files,
            GitTs.getCommitFiles decode g commit = Ok files
            /\ Workspace.findFile files filePath = Some (GitTs.binaryNode filePath)
            /\ forall others,
                 Workspace.diffView files others filePath = Workspace.BinaryNotSupported
                 /\ Workspace.diffView others files filePath = Workspace.BinaryNotSupported)
    /\ (forall files prevFiles selectedFile,
          Workspace.binary (Workspace.findFile files selectedFile) = true
          \/ Workspace.binary (Workspace.findFile prevFiles selectedFile) = true ->
          Workspace.diffView files prevFiles selectedFile = Workspace.BinaryNotSupported).
Proof.
  intros decode g blob commit filePath bytes Hg Hc Hp Hblob Hnull.
  apply (binary_output decode g commit filePath bytes); [|exact Hnull].
  apply Hg. unfold Shell.gitShow.
  now rewrite Hc, (ShellFacts.pathArg_plain filePath Hp), Hblob.
Qed.

(** [logo.png] of the example holds a null byte. *)
Lemma X26_witness :
  (Shell.showsBlobs ShellExample.git ShellExample.blob
   /\ Shell.plain "1a2b3c4" = true
   /\ Shell.plain "logo.png" = true
   /\ ShellExample.blob "1a2b3c4" "logo.png" = Some [x89; x50; x00; x4e]
   /\ In x00 [x89; x50; x00; x4e])
  /\ GitTs.getFileContent Example.asciiText ShellExample.git "1a2b3c4" "logo.png"
     = Ok None
  /\ exists files,
       GitTs.getCommitFiles Example.asciiText ShellExample.git "1a2b3c4" = Ok files
       /\ Workspace.diffView files [] "logo.png" = Workspace.BinaryNotSupported.
Proof.
  assert (Hin : In x00 [x89; x50; x00; x4e]) by (simpl; auto).
  split; [repeat split; [exact ShellFacts.example_shows | exact Hin]|].
  destruct (X26_binary_safety_plain_path Example.asciiText ShellExample.git
              ShellExample.blob "1a2b3c4" "logo.png" [x89; x50; x00; x4e]
              ShellFacts.example_shows eq_refl eq_refl eq_refl Hin)
    as (Hnone & Hlist & _).
  split; [exact Hnone|].
  destruct (Hlist ShellExample.listing eq_refl (or_introl eq_refl))
    as (files & Hf & _ & Hdiff).
  exists files. split; [exact Hf | exact (proj1 (Hdiff []))].
Defined.





(** C9 (totality).  Whatever [execSync] and the decoder do, the three
    accessors return a value: [getFileContent] returns null when
    [git show] or the decoding fails, and [getChangedFiles] and
    [getCommitFiles] return the empty list when their command fails. *)
Theorem C9_accessors_total :
  forall (decode : list byte -> result string) (g : Git) (commit filePath : string),
    (exists r, GitTs.getFileContent decode g commit filePath = Ok r)
    /\ (exists l, GitTs.getChangedFiles g commit = Ok l)
    /\ (exists files, GitTs.getCommitFiles decode g commit = Ok files)
    /\ (showBuffer g commit filePath = Throw ->
        GitTs.getFileContent decode g commit filePath = Ok None)
    /\ (forall buf, showBuffer g commit filePath = Ok buf -> decode buf = Throw ->
          GitTs.getFileContent decode g commit filePath = Ok None)
    /\ (showNameOnly g commit = Throw -> GitTs.getChangedFiles g commit = Ok [])
    /\ (lsTree g commit = Throw -> GitTs.getCommitFiles decode g commit = Ok []).
Proof.
  intros decode g commit filePath.
  rewrite GitFacts.getFileContent_cases, GitFacts.getChangedFiles_cases,
    GitFacts.getCommitFiles_cases.
  repeat split; eauto.
  - intros ->. reflexivity.
  - intros buf -> ->. now destruct (GitTs.includes0 buf).
  - intros ->. reflexivity.
  - intros ->. reflexivity.
Qed.

(** ** Project metadata *)

Module MetaFacts.
Import JS GitLog JSFacts.

Lemma nameChar_cases (c : ascii) :
  Spec.nameChar c = true ->
  Ascii.eqb c SP = false /\ Ascii.eqb c "_" = false /\ isSpace c = false
  /\ (Ascii.eqb c "-" = false -> isWord c = true).
Proof.
  destruct c as [[] [] [] [] [] [] [] []]; vm_compute; intuition discriminate.
Qed.

Lemma upperChar_idem (c : ascii) : upperChar (upperChar c) = upperChar c.
Proof. destruct c as [[] [] [] [] [] [] [] []]; reflexivity. Qed.

Lemma upperChar_space (c : ascii) : Ascii.eqb (upperChar c) SP = Ascii.eqb c SP.
Proof. destruct c as [[] [] [] [] [] [] [] []]; reflexivity. Qed.

Lemma upper_upperChar (c : ascii) : upper (upperChar c) = upper c.
Proof. destruct c as [[] [] [] [] [] [] [] []]; reflexivity. Qed.

Lemma upper_idem (c : ascii) : toUpperCase (upper c) = upper c.
Proof. destruct c as [[] [] [] [] [] [] [] []]; reflexivity. Qed.

Lemma upper_no_space (c : ascii) :
  Ascii.eqb c SP = false ->
  allChars (fun x => negb (Ascii.eqb x SP)) (upper c) = true.
Proof.
  destruct c as [[] [] [] [] [] [] [] []]; vm_compute; intros H;
    try discriminate; reflexivity.
Qed.

(** The first characters of a word made of ASCII letters and digits. *)
Lemma upper_word (c : ascii) :
  isWord c = true -> upper c = String (upperChar c) EmptyString.
Proof.
  destruct c as [[] [] [] [] [] [] [] []]; vm_compute; intros H;
    try discriminate; reflexivity.
Qed.

Lemma isDigit_plain (c : ascii) :
  isDigit c = true -> isSpace c = false /\ Ascii.eqb c "-" = false.
Proof.
  destruct c as [[] [] [] [] [] [] [] []]; vm_compute; intuition discriminate.
Qed.

Lemma join_cons_char (sep : string) (c : ascii) (p : string) (ps : list string) :
  join sep (String c p :: ps) = String c (join sep (p :: ps)).
Proof. now destruct ps. Qed.

Lemma no_underscore (name : string) :
  allChars Spec.nameChar name = true ->
  Spec.replaceSeparators name = replaceDashes name.
Proof.
  induction name as [|c name IH]; simpl; [reflexivity|].
  intros H. apply andb_true_iff in H as [Hc Hn].
  apply nameChar_cases in Hc as (_ & -> & _). now rewrite orb_false_r, IH.
Qed.

(** On such names the two passes of [defaultTitle] capitalise exactly
    the space-separated words. *)
Lemma title_words (name : string) :
  allChars Spec.nameChar name = true ->
  forall prevWord,
    upperAtWordStart prevWord (replaceDashes name)
    = let (p, ps) := splitParts SP (replaceDashes name) in
      join " " ((if prevWord then p else Spec.capitalize p)
                :: map Spec.capitalize ps).
Proof.
  induction name as [|c name IH]; intros H prevWord.
  - now destruct prevWord.
  - simpl in H. apply andb_true_iff in H as [Hc Hn].
    specialize (IH Hn). simpl replaceDashes. simpl upperAtWordStart.
    simpl splitParts.
    destruct (splitParts SP (replaceDashes name)) as [p ps] eqn:Hsp.
    destruct (Ascii.eqb c "-") eqn:Hd.
    + rewrite Ascii.eqb_refl. change (isWord SP) with false. simpl andb.
      cbv iota. rewrite (IH false).
      now destruct prevWord.
    + apply nameChar_cases in Hc as (Hs & _ & _ & Hw).
      rewrite Hs, (Hw Hd), (IH true). simpl andb.
      destruct prevWord; simpl negb; cbv iota; simpl map;
        symmetry; apply join_cons_char.
Qed.

Lemma defaultTitle_agrees (name : string) :
  allChars Spec.nameChar name = true ->
  SyncData.defaultTitle name = Spec.claimedTitle name.
Proof.
  intros H. unfold SyncData.defaultTitle, Spec.claimedTitle, Spec.titleCase.
  rewrite (no_underscore name H), (title_words name H false). unfold split.
  now destruct (splitParts SP (replaceDashes name)).
Qed.

Lemma splitParts_pieces (sep : ascii) (s : string) :
  allChars (fun x => negb (Ascii.eqb x sep)) (fst (splitParts sep s)) = true
  /\ Forall (fun w => allChars (fun x => negb (Ascii.eqb x sep)) w = true)
            (snd (splitParts sep s)).
Proof.
  induction s as [|c s (IHp & IHps)]; simpl; [now split|].
  destruct (splitParts sep s) as [p ps]. simpl in *.
  destruct (Ascii.eqb c sep) eqn:E; simpl; [now split; [|constructor]|].
  rewrite E. now split.
Qed.

(** Joining pieces that hold no separator and cutting again gives the
    pieces back. *)
Lemma split_join (sep : ascii) (w : string) (ws : list string) :
  Forall (fun w => allChars (fun x => negb (Ascii.eqb x sep)) w = true) (w :: ws) ->
  split sep (join (String sep EmptyString) (w :: ws)) = w :: ws.
Proof.
  revert w. induction ws as [|w' ws IH]; intros w H; inversion_clear H as [|? ? Hw Hws].
  - simpl. unfold split. now rewrite splitParts_none.
  - change (join (String sep EmptyString) (w :: w' :: ws))
      with (w ++ String sep (join (String sep EmptyString) (w' :: ws))).
    now rewrite split_app, IH.
Qed.

Lemma capitalize_no_space (w : string) :
  allChars (fun x => negb (Ascii.eqb x SP)) w = true ->
  allChars (fun x => negb (Ascii.eqb x SP)) (Spec.capitalize w) = true.
Proof.
  destruct w as [|c w]; [trivial|]. cbn [Spec.capitalize allChars].
  now rewrite upperChar_space.
Qed.

Lemma initial_capitalize (w : string) :
  Spec.initial (Spec.capitalize w) = Spec.initial w.
Proof.
  destruct w as [|c w]; [reflexivity|]. unfold Spec.initial.
  cbn [Spec.capitalize charAt0 toUpperCase]. now rewrite upper_upperChar.
Qed.

Lemma splitParts_dashes (name : string) :
  allChars Spec.nameChar name = true ->
  splitParts SP (replaceDashes name) = splitParts "-" name.
Proof.
  induction name as [|c name IH]; simpl; [reflexivity|].
  intros H. apply andb_true_iff in H as [Hc Hn]. rewrite (IH Hn).
  destruct (splitParts "-" name) as [p ps].
  destruct (Ascii.eqb c "-") eqn:Hd; [now rewrite Ascii.eqb_refl|].
  apply nameChar_cases in Hc as (-> & _). reflexivity.
Qed.

Lemma split_pieces (sep : ascii) (s : string) :
  exists p ps,
    split sep s = p :: ps
    /\ Forall (fun w => allChars (fun x => negb (Ascii.eqb x sep)) w = true) (p :: ps).
Proof.
  pose proof (splitParts_pieces sep s) as (Hp & Hps). unfold split.
  destruct (splitParts sep s) as [p ps]. exists p, ps. split; [reflexivity|].
  now constructor.
Qed.

Lemma initials_agree (name : string) :
  allChars Spec.nameChar name = true ->
  map Spec.initial (split SP (Spec.claimedTitle name))
  = map Spec.initial (split "-" name).
Proof.
  intros H. unfold Spec.claimedTitle, Spec.titleCase.
  rewrite (no_underscore name H).
  assert (Hsplit : split SP (replaceDashes name) = split "-" name).
  { unfold split. now rewrite splitParts_dashes. }
  rewrite <- Hsplit.
  destruct (split_pieces SP (replaceDashes name)) as (p & ps & -> & Hall).
  change " " with (String SP EmptyString).
  change (map Spec.capitalize (p :: ps))
    with (Spec.capitalize p :: map Spec.capitalize ps).
  rewrite split_join.
  - change (Spec.capitalize p :: map Spec.capitalize ps)
      with (map Spec.capitalize (p :: ps)).
    rewrite map_map. apply map_ext. apply initial_capitalize.
  - change (Spec.capitalize p :: map Spec.capitalize ps)
      with (map Spec.capitalize (p :: ps)).
    apply Forall_forall. intros w Hw. apply in_map_iff in Hw as (v & <- & Hv).
    apply capitalize_no_space. rewrite Forall_forall in Hall. auto.
Qed.

Lemma trimEnd_plain_app (a t : string) :
  allChars (fun c => negb (isSpace c)) a = true ->
  trimEnd (a ++ t) = a ++ trimEnd t.
Proof.
  induction a as [|c a IH]; simpl append; [reflexivity|].
  intros H. simpl in H. apply andb_true_iff in H as [Hc Ha].
  apply negb_true_iff in Hc.
  now rewrite StepsFacts.trimEnd_cons, IH.
Qed.

(** The year the script reads from the date of a commit. *)
Lemma year_of_date (year date : string) :
  Spec.datedIn year date ->
  fst (splitParts "-" (SyncData.dateOf (date ++ nl))) = year.
Proof.
  intros (md & rest & -> & Hlen & Hy & Hmd).
  assert (Hyp : allChars (fun c => negb (isSpace c)) year = true).
  { revert Hy. apply allChars_weaken. intros c Hc.
    apply isDigit_plain in Hc as (-> & _). reflexivity. }
  assert (Hyd : allChars (fun c => negb (Ascii.eqb c "-")) year = true).
  { revert Hy. apply allChars_weaken. intros c Hc.
    apply isDigit_plain in Hc as (_ & ->). reflexivity. }
  assert (Hday : allChars (fun c => negb (isSpace c)) (year ++ "-" ++ md) = true).
  { rewrite allChars_app, Hyp. simpl. exact Hmd. }
  assert (Hnosp : allChars (fun c => negb (Ascii.eqb c SP)) (year ++ "-" ++ md) = true).
  { revert Hday. apply allChars_weaken. intros c Hc.
    apply negb_true_iff in Hc. apply negb_true_iff.
    destruct (Ascii.eqb c SP) eqn:E; trivial.
    apply Ascii.eqb_eq in E. subst c. discriminate. }
  assert (Hdate : SyncData.dateOf ((year ++ "-" ++ md ++ " " ++ rest) ++ nl)
                  = year ++ "-" ++ md).
  { unfold SyncData.dateOf, trim.
    replace ((year ++ "-" ++ md ++ " " ++ rest) ++ nl)
      with ((year ++ "-" ++ md) ++ String SP (rest ++ nl))
      by (rewrite !append_assoc; reflexivity).
    assert (Hstart : trimStart ((year ++ "-" ++ md) ++ String SP (rest ++ nl))
                     = (year ++ "-" ++ md) ++ String SP (rest ++ nl)).
    { destruct year as [|y year]; [discriminate|]. simpl.
      simpl in Hyp. apply andb_true_iff in Hyp as [Hy0 _].
      apply negb_true_iff in Hy0. now rewrite Hy0. }
    rewrite Hstart, trimEnd_plain_app by assumption.
    destruct (StepsFacts.trimEnd_head SP (rest ++ nl)) as [-> | (t & ->)].
    - rewrite append_nil_r, splitParts_none by assumption. reflexivity.
    - rewrite splitParts_app by assumption. reflexivity. }
  rewrite Hdate. change ("-" ++ md) with (String "-" md).
  now rewrite splitParts_app.
Qed.

Lemma underscore_kept (name : string) :
  forall prevWord i,
    get i name = Some "_"%char ->
    get i (upperAtWordStart prevWord (replaceDashes name)) = Some "_"%char.
Proof.
  induction name as [|c name IH]; intros prevWord [|i]; simpl; try discriminate.
  - intros [= ->]. simpl. now destruct prevWord.
  - apply IH.
Qed.

End MetaFacts.

Lemma manifest_data (fm : string -> option (string * string))
  (pf : string -> SyncData.ProjectConfig) (dh : string -> string)
  (e : SyncData.Env) (d : SyncData.ProjectData) :
  SyncData.manifest fm pf dh e = Some d ->
  exists entries,
    d = SyncData.projectData e (SyncData.config fm pf dh e) entries.
Proof.
  unfold SyncData.manifest. rewrite SyncFacts.main_unfold.
  destruct (logShort (SyncData.git e)) as [out|]; [|discriminate].
  simpl. rewrite !rev_app_distr. simpl. intros [= <-]. eauto.
Qed.

Lemma config_absent (fm : string -> option (string * string))
  (pf : string -> SyncData.ProjectConfig) (dh : string -> string)
  (e : SyncData.Env) :
  Spec.noFrontmatter fm e -> SyncData.config fm pf dh e = SyncData.emptyConfig.
Proof.
  unfold Spec.noFrontmatter, SyncData.config, SyncData.readReadme.
  destruct (SyncData.readme e) as [raw|]; [|reflexivity].
  now intros ->.
Qed.

Lemma startDate_first (e : SyncData.Env) (c0 : Commit) :
  SyncData.bashRuns e = true ->
  hd_error (history (SyncData.git e)) = Some c0 ->
  SyncData.startDate e = SyncData.dateOf (c_date c0 ++ nl).
Proof.
  unfold SyncData.startDate, SyncData.dates, logFirstDate. intros ->.
  destruct (history (SyncData.git e)) as [|c cs]; [discriminate|].
  intros [= ->]. now destruct (logLastDate (SyncData.git e)).
Qed.

Lemma dates_today (e : SyncData.Env) :
  SyncData.bashRuns e = false ->
  SyncData.startDate e = SyncData.today e
  /\ SyncData.lastDate e = SyncData.today e.
Proof.
  unfold SyncData.startDate, SyncData.lastDate, SyncData.dates, logFirstDate.
  now intros ->.
Qed.

(** C8, as amended.  Without README frontmatter, the title is the
    repository name with every dash replaced by a space and the first
    character of each word in upper case, a word being a run of ASCII
    letters, digits and underscores; and the document number is the
    upper-case first characters of the dash-separated parts of the
    name, a dash, and the year of the start date: the four-digit year
    of the earliest commit when the command that reads its date ran,
    and the year of the day of the run when that command threw.  An
    underscore is not replaced: it stays where it is.  On names made
    of ASCII letters, digits and dashes this is the title and the
    document number of the specification. *)
Theorem C8_default_title_and_doc_number :
  forall (fm : string -> option (string * string))
         (pf : string -> SyncData.ProjectConfig) (dh : string -> string)
         (e : SyncData.Env) (d : SyncData.ProjectData),
    SyncData.manifest fm pf dh e = Some d ->
    Spec.noFrontmatter fm e ->
    let name := SyncData.repoName e in
    let initials :=
      JS.join EmptyString
        (map (fun word => JS.toUpperCase (JS.charAt0 word)) (JS.split "-" name)) in
    SyncData.pd_repoName d = name
    /\ SyncData.pd_title d
       = JS.upperAtWordStart false (JS.replaceDashes name)
    /\ (forall c0 year,
          SyncData.bashRuns e = true ->
          hd_error (history (SyncData.git e)) = Some c0 ->
          Spec.datedIn year (c_date c0) ->
          SyncData.pd_docNumber d = initials ++ "-" ++ year)
    /\ (SyncData.bashRuns e = false ->
        SyncData.pd_docNumber d
        = initials ++ "-" ++ fst (JS.splitParts "-" (SyncData.today e)))
    /\ (forall i, get i name = Some "_"%char ->
                  get i (SyncData.pd_title d) = Some "_"%char)
    /\ (allChars Spec.nameChar name = true ->
        SyncData.pd_title d = Spec.claimedTitle name
        /\ forall c0 year,
             SyncData.bashRuns e = true ->
             hd_error (history (SyncData.git e)) = Some c0 ->
             Spec.datedIn year (c_date c0) ->
             SyncData.pd_docNumber d = Spec.claimedDocNumber name year).
Proof.
  intros fm pf dh e d Hd Hfm name initials.
  apply manifest_data in Hd as (entries & ->).
  rewrite (config_absent fm pf dh e Hfm). simpl.
  assert (Hdoc : forall c0 year,
             SyncData.bashRuns e = true ->
             hd_error (history (SyncData.git e)) = Some c0 ->
             Spec.datedIn year (c_date c0) ->
             SyncData.defaultDocNumber name (SyncData.startDate e)
             = initials ++ "-" ++ year).
  { intros c0 year Hbash Hc0 Hyear. unfold SyncData.defaultDocNumber.
    now rewrite (startDate_first e c0 Hbash Hc0),
      (MetaFacts.year_of_date year _ Hyear). }
  fold name. split; [reflexivity|]. split; [reflexivity|].
  split; [exact Hdoc|]. split; [|split].
  - intros Hbash. unfold SyncData.defaultDocNumber.
    now rewrite (proj1 (dates_today e Hbash)).
  - intros i. apply MetaFacts.underscore_kept.
  - intros Hname. split.
    + now apply MetaFacts.defaultTitle_agrees.
    + intros c0 year Hbash Hc0 Hyear. rewrite (Hdoc c0 year Hbash Hc0 Hyear).
      unfold Spec.claimedDocNumber, initials.
      now rewrite MetaFacts.initials_agree.
Qed.

(** The sample has no README; its first commit is dated 2025. *)
Lemma C8_witness :
  (SyncData.manifest Example.noMatch Example.noFields Example.keepBody
                     Example.sampleEnv
   = Some (SyncData.projectData Example.sampleEnv SyncData.emptyConfig
             (Spec.entries Example.sampleGit))
   /\ Spec.noFrontmatter Example.noMatch Example.sampleEnv
   /\ hd_error (history (SyncData.git Example.sampleEnv))
      = Some (mkCommit Example.hash0 7 "Initial commit" "2025-11-28 10:00:00 -0500")
   /\ Spec.datedIn "2025" "2025-11-28 10:00:00 -0500")
  /\ SyncData.pd_docNumber
       (SyncData.projectData Example.sampleEnv SyncData.emptyConfig
          (Spec.entries Example.sampleGit))
     = "M-2025".
Proof.
  assert (Hdate : Spec.datedIn "2025" "2025-11-28 10:00:00 -0500").
  { exists "11-28", "10:00:00 -0500". repeat split. }
  split; [repeat split; exact Hdate|].
  exact (proj1 (proj2 (proj2 (C8_default_title_and_doc_number
           Example.noMatch Example.noFields Example.keepBody
           Example.sampleEnv _ eq_refl I)))
           (mkCommit Example.hash0 7 "Initial commit" "2025-11-28 10:00:00 -0500")
           "2025" eq_refl eq_refl Hdate).
Defined.

(** C8 as stated fails on the repository name [my_repo]: the
    underscore stays in the title, and the document number has the one
    initial of the one dash-separated part.  It fails on a word that
    starts with a letter outside ASCII too: of [<e acute>dition-web]
    the title has the second character of the first word in upper
    case, not the first.  And where the date command throws, the year
    is the one of the day of the run, not the one of the earliest
    commit. *)
Lemma C8_counterexample :
  (exists d,
     SyncData.manifest Example.noMatch Example.noFields Example.keepBody
                       Example.sampleEnv = Some d
     /\ SyncData.readme Example.sampleEnv = None
     /\ SyncData.pd_repoName d = "my_repo"
     /\ SyncData.pd_title d = "My_repo"
     /\ Spec.claimedTitle "my_repo" = "My Repo"
     /\ SyncData.pd_docNumber d = "M-2025"
     /\ Spec.claimedDocNumber "my_repo" "2025" = "MR-2025")
  /\ (SyncData.defaultTitle Example.accentedName
      = String Example.E_ACUTE "Dition Web"
      /\ Spec.claimedTitle Example.accentedName
         = String Example.CAPITAL_E_ACUTE "dition Web"
      /\ SyncData.defaultDocNumber Example.accentedName "2025-11-28"
         = String Example.CAPITAL_E_ACUTE "W-2025")
  /\ (exists d,
        SyncData.manifest Example.noMatch Example.noFields Example.keepBody
                          Example.noBashEnv = Some d
        /\ map c_date (history (SyncData.git Example.noBashEnv))
           = ["2025-11-28 10:00:00 -0500"; "2025-11-30 09:30:00 -0500"]
        /\ SyncData.pd_docNumber d = "M-2026").
Proof.
  split; [eexists; repeat split|]. split; [repeat split|].
  eexists. repeat split.
Qed.

(** C5 (title extraction) does not hold of the code.  The STEP.md of
    the draft sample has no H1-style heading line with a text: its
    first line is a hash sign alone.  The pattern [/^#\s+(.+)$/m] lets
    [\s+] run over the line ends, so the title becomes the sentence two
    lines below, not the subject of the commit. *)
Theorem C5_title_taken_from_later_line :
  Spec.textLines Example.draftStep
  = ("#", [EmptyString; "Notes for this step."])
  /\ Spec.firstH1 Example.draftStep = None
  /\ JS.matchH1 Example.draftStep = Some "Notes for this step."
  /\ exists d,
       SyncData.manifest Example.noMatch Example.noFields Example.keepBody
                         Example.draftEnv = Some d
       /\ map SyncData.commitMessage (SyncData.pd_steps d) = ["Initial commit"]
       /\ map SyncData.title (SyncData.pd_steps d) = ["Notes for this step."].
Proof. repeat split. eexists. repeat split. Qed.

(** ** Titles of narratives without a bare hash line *)

Module TitleFacts.
Import JS GitLog.

Lemma lineRun_first (s : string) : lineRun s = fst (Spec.textLines s).
Proof.
  induction s as [|c s IH]; simpl; [reflexivity|].
  destruct (Spec.textLines s) as [l ls]. simpl in IH.
  destruct (isLineTerminator c); simpl; [reflexivity | now rewrite IH].
Qed.

Lemma terminator_space (c : ascii) : isLineTerminator c = true -> isSpace c = true.
Proof. destruct c as [[] [] [] [] [] [] [] []]; vm_compute; trivial. Qed.

(** After the hash sign and one blank: on a line with something else
    than blanks, [\s*(.+)$] captures the line from its first such
    character on. *)
Lemma spaces_line (s : string) :
  allChars isSpace (fst (Spec.textLines s)) = false ->
  exists d t, trimStart (fst (Spec.textLines s)) = String d t
              /\ spacesThenText s = Some (String d t).
Proof.
  induction s as [|x r IH]; simpl; [discriminate|].
  destruct (Spec.textLines r) as [lr ls] eqn:Hr. simpl in IH.
  destruct (isLineTerminator x) eqn:Hlt; simpl; [discriminate|].
  destruct (isSpace x) eqn:Hsp; simpl.
  - intros H. destruct (IH H) as (d & t & Ht & Hs). exists d, t.
    now rewrite Hs.
  - intros _. exists x, lr. split; [reflexivity|].
    unfold dotPlusEol. simpl. rewrite Hlt, lineRun_first, Hr. reflexivity.
Qed.

(** At the start of a line that is not a bare hash, the pattern and the
    specification read the same heading. *)
Lemma h1At_line (s : string) :
  Spec.bareHash (fst (Spec.textLines s)) = false ->
  h1At s = Spec.h1Text (fst (Spec.textLines s)).
Proof.
  destruct s as [|c s']; [reflexivity|].
  destruct (Ascii.eqb c "#") eqn:Hc.
  - apply Ascii.eqb_eq in Hc. subst c.
    destruct s' as [|c2 s'']; [discriminate|].
    simpl. destruct (Spec.textLines s'') as [l'' ls''] eqn:Hs''.
    destruct (isLineTerminator c2) eqn:Hlt; simpl; [discriminate|].
    destruct (isSpace c2) eqn:Hsp; simpl; [|reflexivity].
    intros Hbare.
    assert (Hl : allChars isSpace (fst (Spec.textLines s'')) = false)
      by now rewrite Hs''.
    destruct (spaces_line s'' Hl) as (d & t & Ht & Hm).
    rewrite Hs'' in Ht. simpl in Ht. now rewrite Hm, Ht.
  - intros _.
    assert (Hat : h1At (String c s') = None).
    { unfold h1At. destruct s'; [reflexivity | now rewrite Hc]. }
    rewrite Hat. simpl. destruct (Spec.textLines s') as [l' ls'].
    destruct (isLineTerminator c); simpl; [reflexivity|].
    destruct l'; [reflexivity | now rewrite Hc].
Qed.

Lemma matchH1_lines (s : string) :
  (forallb (fun x => negb (Spec.bareHash x)) (snd (Spec.textLines s)) = true ->
   matchH1From false s = Spec.firstSome Spec.h1Text (snd (Spec.textLines s)))
  /\ (forallb (fun x => negb (Spec.bareHash x))
              (fst (Spec.textLines s) :: snd (Spec.textLines s)) = true ->
      matchH1From true s
      = Spec.firstSome Spec.h1Text
          (fst (Spec.textLines s) :: snd (Spec.textLines s))).
Proof.
  induction s as [|c s (IHf & IHt)]; [split; reflexivity|].
  assert (Hrest :
    forallb (fun x => negb (Spec.bareHash x)) (snd (Spec.textLines (String c s))) = true ->
    matchH1From (isLineTerminator c) s
    = Spec.firstSome Spec.h1Text (snd (Spec.textLines (String c s)))).
  { simpl. destruct (Spec.textLines s) as [l ls]. simpl in *.
    destruct (isLineTerminator c); simpl; auto. }
  split; [exact Hrest|].
  intros H. change (forallb _ (_ :: _))
    with (negb (Spec.bareHash (fst (Spec.textLines (String c s))))
          && forallb (fun x => negb (Spec.bareHash x))
                     (snd (Spec.textLines (String c s)))) in H.
  apply andb_true_iff in H as [Hl Hls]. apply negb_true_iff in Hl.
  change (matchH1From true (String c s))
    with (match h1At (String c s) with
          | Some t => Some t
          | None => matchH1From (isLineTerminator c) s
          end).
  rewrite (h1At_line _ Hl), (Hrest Hls). reflexivity.
Qed.

(** Where no line is a bare hash, the match of the pattern is the
    first H1-style heading. *)
Lemma matchH1_firstH1 (content : string) :
  Spec.noBareHash content = true -> matchH1 content = Spec.firstH1 content.
Proof.
  unfold Spec.noBareHash, Spec.firstH1, matchH1. intros H.
  pose proof (proj2 (matchH1_lines content)) as Hm.
  destruct (Spec.textLines content) as [l ls]. now apply Hm.
Qed.

End TitleFacts.

(** ** Further properties *)

(** X1 (title of a clean narrative).  When STEP.md is read at a commit
    and none of its lines is a bare hash sign (a hash followed by
    nothing but white space), the title stored for the step is the text
    of its first H1-style heading line, and the subject of the commit
    when it has no such line. *)
Theorem X1_title_of_clean_step :
  forall (fm : string -> option (string * string))
         (pf : string -> SyncData.ProjectConfig) (dh : string -> string)
         (e : SyncData.Env) (i : nat) (c : Commit) (stepContent : string),
    wfHistory (SyncData.git e) = true ->
    nth_error (history (SyncData.git e)) i = Some c ->
    showText (SyncData.git e) (abbrevHash c) "STEP.md" = Ok stepContent ->
    Spec.noBareHash stepContent = true ->
    exists d st,
      SyncData.manifest fm pf dh e = Some d
      /\ nth_error (SyncData.pd_steps d) i = Some st
      /\ SyncData.title st
         = match Spec.firstH1 stepContent with
           | Some heading => heading
           | None => c_subject c
           end.
Proof.
  intros fm pf dh e i c stepContent Hwf Hc Hshow Hclean.
  destruct (manifest_entry fm pf dh e i c Hwf Hc) as (_ & d & Hd & Hst).
  exists d, (snd (SyncData.step (SyncData.git e) i (Spec.syncRecord c))).
  split; [assumption|]. split; [assumption|].
  unfold SyncData.step, SyncData.readStep. simpl SyncData.hash.
  rewrite Hshow, (TitleFacts.matchH1_firstH1 stepContent Hclean). reflexivity.
Qed.

(** The STEP.md of the first commit of the sample starts with its
    heading. *)
Lemma X1_witness :
  (wfHistory (SyncData.git Example.sampleEnv) = true
   /\ nth_error (history (SyncData.git Example.sampleEnv)) 0
      = Some (mkCommit Example.hash0 7 "Initial commit" "2025-11-28 10:00:00 -0500")
   /\ showText (SyncData.git Example.sampleEnv) "1a2b3c4" "STEP.md"
      = Ok Example.stepText
   /\ Spec.noBareHash Example.stepText = true)
  /\ exists d st,
       SyncData.manifest Example.noMatch Example.noFields Example.keepBody
                         Example.sampleEnv = Some d
       /\ nth_error (SyncData.pd_steps d) 0 = Some st
       /\ SyncData.title st = "Project Setup".
Proof.
  split; [repeat split|].
  exact (X1_title_of_clean_step Example.noMatch Example.noFields Example.keepBody
           Example.sampleEnv 0
           (mkCommit Example.hash0 7 "Initial commit" "2025-11-28 10:00:00 -0500")
           Example.stepText eq_refl eq_refl eq_refl eq_refl).
Defined.

(** X2 (commit message).  The commitMessage of every manifest entry is
    the subject of its commit, character for character, whatever
    spaces the subject holds. *)
Theorem X2_commit_message_exact :
  forall (fm : string -> option (string * string))
         (pf : string -> SyncData.ProjectConfig) (dh : string -> string)
         (e : SyncData.Env) (i : nat) (c : Commit),
    wfHistory (SyncData.git e) = true ->
    nth_error (history (SyncData.git e)) i = Some c ->
    exists d st,
      SyncData.manifest fm pf dh e = Some d
      /\ nth_error (SyncData.pd_steps d) i = Some st
      /\ SyncData.commitMessage st = c_subject c.
Proof.
  intros fm pf dh e i c Hwf Hc.
  destruct (manifest_entry fm pf dh e i c Hwf Hc) as (_ & d & Hd & Hst).
  exists d, (snd (SyncData.step (SyncData.git e) i (Spec.syncRecord c))).
  split; [assumption|]. split; [assumption|].
  now destruct (step_fields (SyncData.git e) i (Spec.syncRecord c)) as (_ & _ & _ & ->).
Qed.

(** The subject of the second commit of the sample holds two spaces in
    a row. *)
Lemma X2_witness :
  (wfHistory (SyncData.git Example.sampleEnv) = true
   /\ nth_error (history (SyncData.git Example.sampleEnv)) 1
      = Some (mkCommit Example.hash1 7 "Add  agent loop" "2025-11-30 09:30:00 -0500"))
  /\ exists d st,
       SyncData.manifest Example.noMatch Example.noFields Example.keepBody
                         Example.sampleEnv = Some d
       /\ nth_error (SyncData.pd_steps d) 1 = Some st
       /\ SyncData.commitMessage st = "Add  agent loop".
Proof.
  split; [split; reflexivity|].
  exact (X2_commit_message_exact Example.noMatch Example.noFields Example.keepBody
           Example.sampleEnv 1
           (mkCommit Example.hash1 7 "Add  agent loop" "2025-11-30 09:30:00 -0500")
           eq_refl eq_refl).
Defined.

(** X3 (new file).  With no previous snapshot, the diff view of a text
    file is the patch of its whole content against the empty text. *)
Theorem X3_new_file_diff :
  forall (files : list GitTs.FileNode) (selectedFile : string) (f : GitTs.FileNode),
    Workspace.findFile files selectedFile = Some f ->
    GitTs.isBinary f = false ->
    Workspace.diffView files [] selectedFile
    = Workspace.TwoFilesPatch selectedFile EmptyString
        (match GitTs.content f with Some c => c | None => EmptyString end).
Proof.
  intros files sel f Hf Hb. unfold Workspace.diffView.
  rewrite Hf. simpl. now rewrite Hb.
Qed.

(** One text file and no previous snapshot. *)
Lemma X3_witness :
  (Workspace.findFile [GitTs.textNode "main.ts" "ok"] "main.ts"
   = Some (GitTs.textNode "main.ts" "ok")
   /\ GitTs.isBinary (GitTs.textNode "main.ts" "ok") = false)
  /\ Workspace.diffView [GitTs.textNode "main.ts" "ok"] [] "main.ts"
     = Workspace.TwoFilesPatch "main.ts" EmptyString "ok".
Proof.
  split; [split; reflexivity|].
  exact (X3_new_file_diff [GitTs.textNode "main.ts" "ok"] "main.ts"
           (GitTs.textNode "main.ts" "ok") eq_refl eq_refl).
Defined.

(** ** The arguments of build-site.ts *)

Module ArgsFacts.
Import BuildArgs.

Lemma endsWithSlash_app (s : string) : endsWithSlash (s ++ "/") = true.
Proof.
  induction s as [|c s IH]; [reflexivity|].
  simpl append. simpl endsWithSlash. rewrite IH.
  now destruct s.
Qed.

Lemma startsWithSlash_app (s t : string) :
  startsWithSlash s = true -> startsWithSlash (s ++ t) = true.
Proof. destruct s; [discriminate | trivial]. Qed.

Lemma normalizeBase_slashes (value : string) :
  startsWithSlash (normalizeBase value) = true
  /\ endsWithSlash (normalizeBase value) = true.
Proof.
  unfold normalizeBase.
  set (basedir := if startsWithSlash value then value else "/" ++ value).
  assert (Hs : startsWithSlash basedir = true).
  { unfold basedir. destruct (startsWithSlash value) eqn:E; [exact E | reflexivity]. }
  destruct (endsWithSlash basedir) eqn:E.
  - now split.
  - split; [now apply startsWithSlash_app | apply endsWithSlash_app].
Qed.

Lemma normalizeBase_fixed (basedir : string) :
  startsWithSlash basedir = true -> endsWithSlash basedir = true ->
  normalizeBase basedir = basedir.
Proof. intros Hs He. unfold normalizeBase. now rewrite Hs, He. Qed.

(** A property of [basedir] that every [--base] value has after it is
    normalised holds at the end of the loop. *)
Lemma scan_basedir (P : string -> Prop) :
  (forall value, P (normalizeBase value)) ->
  forall n args gitPath basedir g b,
    List.length args <= n -> P basedir ->
    scan args gitPath basedir = Some (g, b) -> P b.
Proof.
  intros HP. induction n as [|n IH]; intros [|arg rest] gitPath basedir g b Hlen Hb;
    simpl; try (intros [= <- <-]; assumption); simpl in Hlen; try lia.
  assert (Hplain : match plainArg arg gitPath with
                   | Some g0 => scan rest g0 basedir
                   | None => None
                   end = Some (g, b) -> P b).
  { destruct (plainArg arg gitPath) as [g0|]; [|discriminate].
    apply IH; [lia | assumption]. }
  destruct rest as [|value rest']; [exact Hplain|].
  destruct (String.eqb arg "--base" && JS.truthy value); [|exact Hplain].
  apply IH; [simpl in Hlen; lia | apply HP].
Qed.

(** Once set, [gitPath] is not changed by the arguments that follow. *)
Lemma scan_gitPath (n : nat) :
  forall args gitPath basedir g b,
    List.length args <= n -> JS.truthy gitPath = true ->
    scan args gitPath basedir = Some (g, b) -> g = gitPath.
Proof.
  induction n as [|n IH]; intros [|arg rest] gitPath basedir g b Hlen Hg;
    simpl; try (intros [= <- <-]; reflexivity); simpl in Hlen; try lia.
  assert (Hplain : match plainArg arg gitPath with
                   | Some g0 => scan rest g0 basedir
                   | None => None
                   end = Some (g, b) -> g = gitPath).
  { unfold plainArg. rewrite Hg. destruct (isHelp arg); [discriminate|].
    apply IH; [lia | assumption]. }
  destruct rest as [|value rest']; [exact Hplain|].
  destruct (String.eqb arg "--base" && JS.truthy value); [|exact Hplain].
  apply IH; [simpl in Hlen; lia | assumption].
Qed.

End ArgsFacts.

(** X4 (base directory).  Whatever arguments [build-site.ts] accepts,
    the base directory it passes on starts and ends with a slash: the
    default is [/], and every [--base] value is given the slash it
    lacks at either end.  It is therefore never empty, so the fallback
    of [astro.config.mjs] is not taken, and normalising it again
    changes nothing. *)
Theorem X4_basedir_slashes :
  forall (args : list string) (gitPath basedir : string),
    BuildArgs.parseArgs args = BuildArgs.Args gitPath basedir ->
    BuildArgs.startsWithSlash basedir = true
    /\ BuildArgs.endsWithSlash basedir = true
    /\ BuildArgs.normalizeBase basedir = basedir
    /\ BuildArgs.astroBase basedir = basedir.
Proof.
  intros args gitPath basedir H.
  assert (Hb : BuildArgs.startsWithSlash basedir = true
               /\ BuildArgs.endsWithSlash basedir = true).
  { unfold BuildArgs.parseArgs in H. destruct args as [|a args]; [discriminate|].
    destruct (BuildArgs.scan (a :: args) EmptyString "/") as [[g b]|] eqn:E;
      [|discriminate].
    destruct (JS.truthy g); [|discriminate]. injection H as _ <-.
    apply (ArgsFacts.scan_basedir
             (fun b => BuildArgs.startsWithSlash b = true
                       /\ BuildArgs.endsWithSlash b = true)
             ArgsFacts.normalizeBase_slashes (List.length (a :: args)) (a :: args)
             EmptyString "/" g b (le_n _) (conj eq_refl eq_refl) E). }
  destruct Hb as (Hs & He). repeat split; trivial.
  - now apply ArgsFacts.normalizeBase_fixed.
  - unfold BuildArgs.astroBase, JS.orElse. destruct basedir; [discriminate | reflexivity].
Qed.

(** A run with a base that lacks both slashes. *)
Lemma X4_witness :
  BuildArgs.parseArgs ["../my-project"; "--base"; "my-site"]
  = BuildArgs.Args "../my-project" "/my-site/"
  /\ BuildArgs.endsWithSlash "/my-site/" = true.
Proof.
  split; [reflexivity|].
  exact (proj1 (proj2 (X4_basedir_slashes ["../my-project"; "--base"; "my-site"]
                         "../my-project" "/my-site/" eq_refl))).
Defined.

(** X5 (git path).  When the first argument is a path (not empty,
    not [--help], [-h] or [--base]) and the arguments are accepted, the
    git path is that first argument: no later argument replaces it. *)
Theorem X5_first_path_wins :
  forall (first : string) (rest : list string),
    JS.truthy first = true ->
    BuildArgs.isHelp first = false ->
    String.eqb first "--base" = false ->
    forall gitPath basedir,
      BuildArgs.parseArgs (first :: rest) = BuildArgs.Args gitPath basedir ->
      gitPath = first.
Proof.
  intros first rest Ht Hh Hb gitPath basedir H.
  unfold BuildArgs.parseArgs in H.
  destruct (BuildArgs.scan (first :: rest) EmptyString "/") as [[g b]|] eqn:E;
    [|discriminate].
  destruct (JS.truthy g); [|discriminate]. injection H as <- <-.
  assert (E' : BuildArgs.scan rest first "/" = Some (g, b)).
  { simpl in E. rewrite Hb in E. unfold BuildArgs.plainArg in E.
    rewrite Hh in E. simpl in E. now destruct rest. }
  exact (ArgsFacts.scan_gitPath _ _ _ _ _ _ (le_n _) Ht E').
Qed.

(** A second path after the first is ignored. *)
Lemma X5_witness :
  (JS.truthy "../a" = true /\ BuildArgs.isHelp "../a" = false
   /\ String.eqb "../a" "--base" = false
   /\ BuildArgs.parseArgs ["../a"; "../b"; "--base"; "/x"]
      = BuildArgs.Args "../a" "/x/")
  /\ "../a" = "../a".
Proof.
  split; [repeat split|].
  exact (X5_first_path_wins "../a" ["../b"; "--base"; "/x"] eq_refl eq_refl eq_refl
           "../a" "/x/" eq_refl).
Defined.

(** ** Escaping *)

Module HtmlFacts.
Import Viewer JSFacts.

Lemma replaceChar_app (c : ascii) (r a b : string) :
  replaceChar c r (a ++ b) = replaceChar c r a ++ replaceChar c r b.
Proof.
  induction a as [|x a IH]; [reflexivity|].
  simpl. now rewrite IH, append_assoc.
Qed.

Lemma escapeHtml_app (a b : string) :
  escapeHtml (a ++ b) = escapeHtml a ++ escapeHtml b.
Proof. unfold escapeHtml. now rewrite !replaceChar_app. Qed.

(** The five passes, applied to one character, give its entity: the
    ampersand goes first, so the ampersands the later passes write are
    not escaped again. *)
Lemma escapeHtml_char (c : ascii) :
  escapeHtml (String c EmptyString) = More.entity c.
Proof. destruct c as [[] [] [] [] [] [] [] []]; reflexivity. Qed.

Lemma escapeHtml_cons (c : ascii) (s : string) :
  escapeHtml (String c s) = More.entity c ++ escapeHtml s.
Proof.
  change (String c s) with (String c EmptyString ++ s).
  now rewrite escapeHtml_app, escapeHtml_char.
Qed.

Lemma entity_plain (c : ascii) :
  GitLog.allChars (fun x => negb (More.markup x)) (More.entity c) = true.
Proof. destruct c as [[] [] [] [] [] [] [] []]; reflexivity. Qed.

Lemma unescape_entity (c : ascii) (t : string) :
  More.unescape (More.entity c ++ t) = String c (More.unescape t).
Proof. destruct c as [[] [] [] [] [] [] [] []]; reflexivity. Qed.

End HtmlFacts.

(** X6 (escaping).  The text [escapeHtml] returns holds none of the
    characters [<], [>], the double quote and the single quote,
    whatever the line; it is the concatenation of the entities of the
    characters of the line, so escaping distributes over
    concatenation. *)
Theorem X6_escapeHtml_no_markup :
  forall line rest : string,
    GitLog.allChars (fun c => negb (More.markup c)) (Viewer.escapeHtml line) = true
    /\ Viewer.escapeHtml (line ++ rest)
       = Viewer.escapeHtml line ++ Viewer.escapeHtml rest
    /\ forall c, Viewer.escapeHtml (String c line)
                 = More.entity c ++ Viewer.escapeHtml line.
Proof.
  intros line rest. split; [|split].
  - induction line as [|c line IH]; [reflexivity|].
    now rewrite HtmlFacts.escapeHtml_cons, JSFacts.allChars_app,
      HtmlFacts.entity_plain, IH.
  - apply HtmlFacts.escapeHtml_app.
  - intros c. apply HtmlFacts.escapeHtml_cons.
Qed.

(** X7 (escaping loses nothing).  Decoding the five entities gives the
    line back, so two different lines are never escaped to the same
    text. *)
Theorem X7_escapeHtml_injective :
  forall a b : string,
    More.unescape (Viewer.escapeHtml a) = a
    /\ (Viewer.escapeHtml a = Viewer.escapeHtml b -> a = b).
Proof.
  assert (H : forall s, More.unescape (Viewer.escapeHtml s) = s).
  { induction s as [|c s IH]; [reflexivity|].
    now rewrite HtmlFacts.escapeHtml_cons, HtmlFacts.unescape_entity, IH. }
  intros a b. split; [apply H|].
  intros E. rewrite <- (H a), <- (H b). now rewrite E.
Qed.

(** ** Selection and mode in the viewer *)

Module ViewerFacts.
Import GitTs Workspace Viewer.

Lemma orOption_truthy (a b : option string) (f : string) :
  orOption a b = Some f ->
  (a = Some f /\ JS.truthy f = true) \/ b = Some f.
Proof.
  unfold orOption. destruct a as [s|]; [|auto].
  destruct (JS.truthy s) eqn:E; [|auto]. intros [= <-]. auto.
Qed.

Lemma hd_filter {A : Type} (p : A -> bool) (l : list A) (x : A) :
  hd_error (filter p l) = Some x -> p x = true /\ In x l.
Proof.
  intros H. assert (Hin : In x (filter p l)).
  { destruct (filter p l); [discriminate|]. injection H as ->. now left. }
  apply filter_In in Hin. tauto.
Qed.

Lemma includes_In (l : list string) (x : string) :
  includes l x = true <-> In x l.
Proof.
  unfold includes. rewrite existsb_exists. split.
  - intros (y & Hy & E). apply String.eqb_eq in E. now subst.
  - intros H. exists x. split; [assumption | apply String.eqb_refl].
Qed.

End ViewerFacts.

(** X8 (default selection and automatic mode).  Without an initial
    file, the file the viewer starts on is never one of the hidden
    narrative files and never the empty name: it is a changed file or a
    listed file.  The automatic mode is the diff mode exactly when the
    selected file is a visible changed file that the previous snapshot
    has; the diff then shown is never the notice that the file was not
    found. *)
Theorem X8_start_file_and_mode :
  forall (files prevFiles : list GitTs.FileNode) (changedFiles : list string)
         (f : string),
    (Viewer.startFile files changedFiles None = Some f ->
     Viewer.includes Viewer.hiddenFiles f = false
     /\ JS.truthy f = true
     /\ (In f changedFiles \/ exists n, In n files /\ GitTs.path n = f))
    /\ (Viewer.autoMode prevFiles changedFiles (Some f) = Viewer.diff
        <-> JS.truthy f = true /\ In f changedFiles
            /\ Viewer.includes Viewer.hiddenFiles f = false
            /\ exists n, Workspace.findFile prevFiles f = Some n)
    /\ (Viewer.autoMode prevFiles changedFiles (Some f) = Viewer.diff ->
        Viewer.render (Viewer.autoMode prevFiles changedFiles (Some f)) (Some f)
                      true files prevFiles
        = Viewer.DiffHtml (Workspace.diffView files prevFiles f)
        /\ Workspace.diffView files prevFiles f <> Workspace.FileNotFound).
Proof.
  intros files prevFiles changedFiles f.
  assert (Hmode : Viewer.autoMode prevFiles changedFiles (Some f) = Viewer.diff
        <-> JS.truthy f = true /\ In f changedFiles
            /\ Viewer.includes Viewer.hiddenFiles f = false
            /\ exists n, Workspace.findFile prevFiles f = Some n).
  { unfold Viewer.autoMode.
    destruct (JS.truthy f) eqn:Ht; cbn [andb].
    - destruct (Viewer.includes (Viewer.visibleChangedFiles changedFiles) f) eqn:Hi.
      + apply ViewerFacts.includes_In in Hi. unfold Viewer.visibleChangedFiles in Hi.
        apply filter_In in Hi as (Hin & Hv). apply negb_true_iff in Hv.
        destruct (Workspace.findFile prevFiles f) as [n|]; split;
          try discriminate; eauto 6.
        intros (_ & _ & _ & n & Hn). discriminate.
      + split; [discriminate|]. intros (_ & Hin & Hv & _).
        assert (Hc : Viewer.includes (Viewer.visibleChangedFiles changedFiles) f = true).
        { apply ViewerFacts.includes_In. unfold Viewer.visibleChangedFiles.
          apply filter_In. split; [assumption | now rewrite Hv]. }
        congruence.
    - split; [discriminate | intros (H & _); discriminate]. }
  split; [|split; [exact Hmode|]].
  - unfold Viewer.startFile. simpl Viewer.orOption at 1. intros H.
    apply ViewerFacts.orOption_truthy in H as [(H & Ht)|H].
    + apply ViewerFacts.hd_filter in H as (Hv & Hin).
      apply negb_true_iff in Hv. auto.
    + apply ViewerFacts.orOption_truthy in H as [(H & Ht)|H]; [|discriminate].
      destruct (hd_error (Viewer.visibleFiles files)) as [n|] eqn:Hn; [|discriminate].
      injection H as <-. apply ViewerFacts.hd_filter in Hn as (Hv & Hin).
      apply negb_true_iff in Hv. repeat split; eauto.
  - intros Hd. rewrite Hd. apply Hmode in Hd as (Ht & _ & _ & n & Hn).
    unfold Viewer.render. rewrite Ht. simpl. split; [reflexivity|].
    unfold Workspace.diffView. rewrite Hn.
    destruct (Workspace.findFile files f);
      destruct (Workspace.binary _ || Workspace.binary _); discriminate.
Qed.

(** ** Title lines *)

Module TitleLineFacts.
Import JS GitLog JSFacts MetaFacts.

Lemma toUpperCase_app (a b : string) :
  toUpperCase (a ++ b) = toUpperCase a ++ toUpperCase b.
Proof.
  induction a as [|c a IH]; simpl; [reflexivity|].
  now rewrite IH, append_assoc.
Qed.

Lemma toUpperCase_join (ws : list string) :
  toUpperCase (join " " ws) = join " " (map toUpperCase ws).
Proof.
  induction ws as [|w ws IH]; [reflexivity|].
  destruct ws as [|w' ws]; [reflexivity|].
  change (join " " (w :: w' :: ws)) with (w ++ " " ++ join " " (w' :: ws)).
  rewrite !toUpperCase_app, IH. reflexivity.
Qed.

Lemma toUpperCase_no_space (w : string) :
  allChars (fun x => negb (Ascii.eqb x SP)) w = true ->
  allChars (fun x => negb (Ascii.eqb x SP)) (toUpperCase w) = true.
Proof.
  induction w as [|c w IH]; simpl; [trivial|].
  intros H. apply andb_true_iff in H as [Hc Hw].
  apply negb_true_iff in Hc.
  now rewrite allChars_app, (upper_no_space c Hc), IH.
Qed.

Lemma toUpperCase_capitalize (w : string) :
  toUpperCase (Spec.capitalize w) = toUpperCase w.
Proof. destruct w as [|c w]; simpl; [trivial|]. now rewrite upper_upperChar. Qed.

Lemma toUpperCase_idem (s : string) : toUpperCase (toUpperCase s) = toUpperCase s.
Proof.
  induction s as [|c s IH]; simpl; [reflexivity|].
  now rewrite toUpperCase_app, upper_idem, IH.
Qed.

Lemma splitParts_prefix (sep : ascii) (u s : string) :
  allChars (fun x => negb (Ascii.eqb x sep)) u = true ->
  splitParts sep (u ++ s)
  = let (p, ps) := splitParts sep s in (u ++ p, ps).
Proof.
  induction u as [|c u IH]; simpl.
  - intros _. now destruct (splitParts sep s).
  - intros H. apply andb_true_iff in H as [Hc Hu]. rewrite (IH Hu).
    destruct (splitParts sep s) as [p ps]. apply negb_true_iff in Hc.
    now rewrite Hc.
Qed.

(** Upper case neither adds nor takes away a space. *)
Lemma splitParts_upper (s : string) :
  splitParts SP (toUpperCase s)
  = let (p, ps) := splitParts SP s in (toUpperCase p, map toUpperCase ps).
Proof.
  induction s as [|c s IH]; [reflexivity|].
  cbn [toUpperCase splitParts]. destruct (Ascii.eqb c SP) eqn:Hc.
  - apply Ascii.eqb_eq in Hc. subst c.
    change (upper SP ++ toUpperCase s) with (String SP (toUpperCase s)).
    cbn [splitParts]. rewrite IH, Ascii.eqb_refl.
    now destruct (splitParts SP s).
  - rewrite (splitParts_prefix SP (upper c) _ (upper_no_space c Hc)), IH.
    now destruct (splitParts SP s).
Qed.

End TitleLineFacts.

(** X9 (title lines).  The lines [getTitleLines] returns are the
    space-separated words of the title, each in upper case, so the
    title of the comment in the source, [Weekend Coding Agent], gives
    [WEEKEND], [CODING], [AGENT]; a letter outside ASCII is mapped too,
    and the upper case of U+00DF is [SS].  Joining the lines with
    spaces gives the upper-case title back, the lines are never none,
    and a title in upper case gives its own words.  For a repository
    name made of ASCII letters, digits and dashes, the lines of its
    default title are its dash-separated parts in upper case. *)
Theorem X9_title_lines :
  forall title name : string,
    JS.join " " (ProjectTs.getTitleLines title) = JS.toUpperCase title
    /\ ProjectTs.getTitleLines title <> []
    /\ (allChars Spec.nameChar name = true ->
        ProjectTs.getTitleLines (SyncData.defaultTitle name)
        = map JS.toUpperCase (JS.split "-" name))
    /\ ProjectTs.getTitleLines title
       = map JS.toUpperCase (JS.split JS.SP title)
    /\ ProjectTs.getTitleLines (JS.toUpperCase title)
       = ProjectTs.getTitleLines title
    /\ ProjectTs.getTitleLines "Weekend Coding Agent"
       = ["WEEKEND"; "CODING"; "AGENT"]
    /\ ProjectTs.getTitleLines
         ("caf" ++ String Example.E_ACUTE " stra" ++ String Example.SHARP_S "e")
       = ["CAF" ++ String Example.CAPITAL_E_ACUTE EmptyString; "STRASSE"].
Proof.
  intros title name. unfold ProjectTs.getTitleLines.
  split; [|split; [|split; [|split; [|split; [|split; reflexivity]]]]].
  - change " " with (String JS.SP EmptyString). apply JSFacts.join_split.
  - unfold JS.split. now destruct (JS.splitParts JS.SP (JS.toUpperCase title)).
  - intros Hname.
    rewrite (MetaFacts.defaultTitle_agrees name Hname).
    unfold Spec.claimedTitle, Spec.titleCase.
    rewrite (MetaFacts.no_underscore name Hname).
    assert (Hsplit : JS.split JS.SP (JS.replaceDashes name) = JS.split "-" name).
    { unfold JS.split. now rewrite MetaFacts.splitParts_dashes. }
    rewrite <- Hsplit.
    destruct (MetaFacts.split_pieces JS.SP (JS.replaceDashes name))
      as (p & ps & -> & Hall).
    rewrite TitleLineFacts.toUpperCase_join, map_map.
    change " " with (String JS.SP EmptyString).
    change (map (fun x => JS.toUpperCase (Spec.capitalize x)) (p :: ps))
      with (JS.toUpperCase (Spec.capitalize p)
            :: map (fun x => JS.toUpperCase (Spec.capitalize x)) ps).
    rewrite MetaFacts.split_join.
    + change (JS.toUpperCase (Spec.capitalize p)
              :: map (fun x => JS.toUpperCase (Spec.capitalize x)) ps)
        with (map (fun x => JS.toUpperCase (Spec.capitalize x)) (p :: ps)).
      apply map_ext. apply TitleLineFacts.toUpperCase_capitalize.
    + change (JS.toUpperCase (Spec.capitalize p)
              :: map (fun x => JS.toUpperCase (Spec.capitalize x)) ps)
        with (map (fun x => JS.toUpperCase (Spec.capitalize x)) (p :: ps)).
      apply Forall_forall. intros w Hw. apply in_map_iff in Hw as (v & <- & Hv).
      apply TitleLineFacts.toUpperCase_no_space, MetaFacts.capitalize_no_space.
      rewrite Forall_forall in Hall. auto.
  - unfold JS.split. rewrite TitleLineFacts.splitParts_upper.
    now destruct (JS.splitParts JS.SP title).
  - now rewrite TitleLineFacts.toUpperCase_idem.
Qed.

(** ** Steps with the content of the collection *)

Module CollectionFacts.
Import StepsCollection.




Lemma notFound_truthy (title : string) : JS.truthy (notFound title) = true.
Proof. reflexivity. Qed.



End CollectionFacts.


(** ** Sections of a combined STEPS.md *)

Module SectionFacts.
Import JS GitLog JSFacts.

Lemma endsLine_cons (c : ascii) (s : string) :
  More.endsLine (String c s) = true ->
  (s = EmptyString /\ isLineTerminator c = true)
  \/ (s <> EmptyString /\ More.endsLine s = true).
Proof.
  simpl. destruct s; [left; auto | right; split; [discriminate | assumption]].
Qed.

(** A block of whole lines without a heading goes to the piece being
    read, and the text after it starts a line. *)
Lemma splitH1_block (a : string) :
  forall bol rest,
    Spec.countH1From bol a = 0 -> More.endsLine a = true ->
    splitH1From bol (a ++ rest)
    = let (p, ps) := splitH1From (match a with EmptyString => bol | _ => true end) rest in
      (a ++ p, ps).
Proof.
  induction a as [|c a IH]; intros bol rest Hcount Hend.
  - simpl. now destruct (splitH1From bol rest).
  - assert (Hplain :
      (let (p, ps) := splitH1From (isLineTerminator c) (a ++ rest) in (String c p, ps))
      = let (p, ps) := splitH1From true rest in (String c a ++ p, ps)).
    { simpl in Hcount. destruct (endsLine_cons c a Hend) as [(-> & Hc)|(Hne & Ha)].
      - simpl. rewrite Hc. now destruct (splitH1From true rest).
      - rewrite (IH (isLineTerminator c) rest); [|lia|assumption].
        destruct a; [now elim Hne|]. now destruct (splitH1From true rest). }
    simpl append. simpl splitH1From.
    destruct bol; [|exact Hplain].
    destruct (Ascii.eqb c "#") eqn:Hc; [|exact Hplain].
    destruct a as [|d a'].
    { apply Ascii.eqb_eq in Hc. subst c. discriminate. }
    simpl append. simpl in Hcount. cbv [SP] in *.
    destruct (Ascii.eqb d " ") eqn:Hd; [|exact Hplain].
    rewrite Hc in Hcount. simpl in Hcount. lia.
Qed.

Lemma oneLine_count (t : string) :
  More.oneLine t = true -> Spec.countH1From false (t ++ nl) = 0.
Proof.
  induction t as [|c t IH]; [reflexivity|].
  unfold More.oneLine. simpl. intros H. apply andb_true_iff in H as [Hc Ht].
  apply negb_true_iff in Hc. rewrite Hc. now apply IH.
Qed.

Lemma endsLine_nl (t : string) : More.endsLine (t ++ nl) = true.
Proof.
  induction t as [|c t IH]; [reflexivity|].
  simpl append. simpl More.endsLine. rewrite IH.
  now destruct (t ++ nl) eqn:E; [destruct t; discriminate|].
Qed.

(** The pieces of a file written section by section. *)
Lemma splitH1_sections (l : list (string * string)) (tail : string) :
  Forall (fun x => More.wellFormedSection x = true) l ->
  splitH1From true (More.renderSections l ++ tail)
  = let (p, ps) := splitH1From true tail in
    match l with
    | [] => (p, ps)
    | _ :: _ =>
        (EmptyString,
         List.app
           (map (fun x => fst x ++ nl ++ snd x) (removelast l))
           (cons (fst (last l (EmptyString, EmptyString)) ++ nl
                  ++ snd (last l (EmptyString, EmptyString)) ++ p) ps))
    end.
Proof.
  induction 1 as [|[t b] l Hx Hl IH].
  - simpl. now destruct (splitH1From true tail).
  - unfold More.wellFormedSection in Hx. simpl in Hx.
    apply andb_true_iff in Hx as [Ht Hb]. unfold More.plainBlock in Hb.
    apply andb_true_iff in Hb as [Hb0 Hbe]. apply Nat.eqb_eq in Hb0.
    change (More.renderSections ((t, b) :: l) ++ tail)
      with (String "#" (String SP (((t ++ nl ++ b) ++ More.renderSections l) ++ tail))).
    assert (Hhead : forall x,
      splitH1From true (String "#" (String SP x))
      = let (p, ps) := splitH1From false x in (EmptyString, (p :: ps)%list)).
    { intros x. reflexivity. }
    rewrite Hhead.
    replace (((t ++ nl ++ b) ++ More.renderSections l) ++ tail)
      with ((t ++ nl) ++ b ++ More.renderSections l ++ tail)
      by (rewrite !append_assoc; reflexivity).
    rewrite (splitH1_block (t ++ nl) false) by (auto using oneLine_count, endsLine_nl).
    assert (Hne : match t ++ nl with EmptyString => false | _ => true end = true)
      by (destruct t; reflexivity).
    rewrite Hne.
    rewrite (splitH1_block b true) by assumption.
    assert (Hb' : match b with EmptyString => true | _ => true end = true)
      by (destruct b; reflexivity).
    rewrite Hb', IH.
    destruct (splitH1From true tail) as [p ps].
    destruct l as [|y l'].
    + simpl. now rewrite !append_assoc.
    + change (removelast ((t, b) :: y :: l')) with ((t, b) :: removelast (y :: l')).
      change (last ((t, b) :: y :: l') (EmptyString, EmptyString))
        with (last (y :: l') (EmptyString, EmptyString)).
      simpl map. rewrite !append_nil_r, !append_assoc. reflexivity.
Qed.

Lemma cutAtLF_line (t rest : string) :
  allChars (fun c => negb (Ascii.eqb c LF)) t = true ->
  cutAtLF (t ++ String LF rest) = (t, Some (String LF rest)).
Proof.
  induction t as [|c t IH]; [reflexivity|].
  simpl. intros H. apply andb_true_iff in H as [Hc Ht].
  apply negb_true_iff in Hc. now rewrite Hc, (IH Ht).
Qed.

Lemma cutAtLF_none (t : string) :
  allChars (fun c => negb (Ascii.eqb c LF)) t = true ->
  cutAtLF t = (t, None).
Proof.
  induction t as [|c t IH]; [reflexivity|].
  simpl. intros H. apply andb_true_iff in H as [Hc Ht].
  apply negb_true_iff in Hc. now rewrite Hc, (IH Ht).
Qed.

Lemma oneLine_no_LF (t : string) :
  More.oneLine t = true -> allChars (fun c => negb (Ascii.eqb c LF)) t = true.
Proof.
  apply allChars_weaken. intros c Hc. apply negb_true_iff in Hc.
  apply negb_true_iff. unfold isLineTerminator in Hc.
  now apply orb_false_iff in Hc as [-> _].
Qed.

Lemma sectionOf_part (t b : string) :
  More.oneLine t = true ->
  StepsTs.sectionOf (t ++ nl ++ b) = More.parsedSection (t, b).
Proof.
  intros Ht. unfold StepsTs.sectionOf.
  change (t ++ nl ++ b) with (t ++ String LF b).
  now rewrite (cutAtLF_line t b (oneLine_no_LF t Ht)).
Qed.


Lemma splitH1_oneLine (t : string) :
  More.oneLine t = true -> splitH1From false t = (t, []).
Proof.
  induction t as [|c t IH]; [reflexivity|].
  unfold More.oneLine. simpl. intros H. apply andb_true_iff in H as [Hc Ht].
  apply negb_true_iff in Hc. rewrite Hc, (IH Ht). reflexivity.
Qed.

Lemma map_removelast_last {A B : Type} (f : A -> B) (l : list A) (d : A) :
  l <> [] -> (map f (removelast l) ++ [f (last l d)])%list = map f l.
Proof.
  intros H. rewrite (app_removelast_last d H) at 3.
  now rewrite map_app.
Qed.

(** The sections of a file that is a preamble followed by sections
    written one after the other, then [tail]. *)
Lemma sections_rendered (pre : string) (l : list (string * string)) (tail : string) :
  More.plainBlock pre = true ->
  Forall (fun x => More.wellFormedSection x = true) l ->
  snd (splitH1From true (pre ++ More.renderSections l ++ tail))
  = match l with
    | [] => snd (splitH1From true tail)
    | _ :: _ =>
        List.app (map (fun x => fst x ++ nl ++ snd x) (removelast l))
          (cons (fst (last l (EmptyString, EmptyString)) ++ nl
                 ++ snd (last l (EmptyString, EmptyString))
                 ++ fst (splitH1From true tail))
                (snd (splitH1From true tail)))
    end.
Proof.
  intros Hpre Hl. unfold More.plainBlock in Hpre.
  apply andb_true_iff in Hpre as [H0 He]. apply Nat.eqb_eq in H0.
  rewrite (splitH1_block pre true) by assumption.
  assert (Hb : match pre with EmptyString => true | _ => true end = true)
    by (destruct pre; reflexivity).
  rewrite Hb, (splitH1_sections l tail Hl).
  destruct (splitH1From true tail) as [p ps]. now destruct l.
Qed.

Lemma pieces_rendered (pre : string) (l : list (string * string)) (tail : string) :
  More.plainBlock pre = true ->
  Forall (fun x => More.wellFormedSection x = true) l ->
  fst (splitH1From true tail) = EmptyString ->
  snd (splitH1From true (pre ++ More.renderSections l ++ tail))
  = List.app (map (fun x => fst x ++ nl ++ snd x) l) (snd (splitH1From true tail)).
Proof.
  intros Hpre Hl Ht. rewrite (sections_rendered pre l tail Hpre Hl).
  destruct l as [|x l']; [reflexivity|].
  rewrite Ht, append_nil_r.
  rewrite <- (map_removelast_last (fun x => fst x ++ nl ++ snd x) (x :: l')
                (EmptyString, EmptyString)) by discriminate.
  rewrite <- app_assoc. reflexivity.
Qed.

Lemma sectionOf_parts (l : list (string * string)) :
  Forall (fun x => More.wellFormedSection x = true) l ->
  map StepsTs.sectionOf (map (fun x => fst x ++ nl ++ snd x) l)
  = map More.parsedSection l.
Proof.
  intros Hl. rewrite map_map. apply map_ext_in. intros [t b] Hy.
  rewrite Forall_forall in Hl. specialize (Hl _ Hy).
  unfold More.wellFormedSection in Hl. apply andb_true_iff in Hl as [Ht _].
  now apply sectionOf_part.
Qed.

Lemma merge_titles (cs : list StepsTs.CommitInfo) (ss : list StepsTs.SectionEntry) :
  forall n i, i + n <= List.length ss ->
    map (fun s => (StepsTs.title s, StepsTs.content s)) (StepsTs.merge i n cs ss)
    = firstn n (skipn i (map (fun s => (StepsTs.s_title s, StepsTs.s_content s)) ss)).
Proof.
  induction n as [|n IH]; intros i Hlen; [reflexivity|].
  simpl StepsTs.merge. simpl map. rewrite IH by lia.
  set (f := fun s => (StepsTs.s_title s, StepsTs.s_content s)).
  assert (Hi : i < List.length (map f ss)) by (rewrite length_map; lia).
  destruct (nth_error (map f ss) i) as [x|] eqn:Hx;
    [|apply nth_error_None in Hx; lia].
  pose proof (nth_error_split _ _ Hx) as (l1 & l2 & Heq & Hl1).
  assert (Hnth : f (nth i ss (StepsTs.mkSection EmptyString EmptyString)) = x).
  { rewrite <- (map_nth f). now apply nth_error_nth. }
  change (StepsTs.s_title (nth i ss (StepsTs.mkSection EmptyString EmptyString)),
          StepsTs.s_content (nth i ss (StepsTs.mkSection EmptyString EmptyString)))
    with (f (nth i ss (StepsTs.mkSection EmptyString EmptyString))).
  rewrite Hnth, Heq. subst i.
  assert (H1 : skipn (List.length l1) (l1 ++ x :: l2)%list = (x :: l2)%list).
  { rewrite skipn_app, skipn_all, Nat.sub_diag. reflexivity. }
  assert (H2 : skipn (S (List.length l1)) (l1 ++ x :: l2)%list = l2).
  { rewrite skipn_app, skipn_all2 by lia.
    replace (S (List.length l1) - List.length l1) with 1 by lia. reflexivity. }
  rewrite H1, H2. reflexivity.
Qed.

End SectionFacts.

Lemma getSteps_length (g : Git) (fileContent : string) :
  wfHistory g = true ->
  List.length (StepsTs.getSteps g (Ok fileContent))
  = Nat.min (List.length (history g))
            (List.length (StepsTs.sections fileContent)).
Proof.
  intros Hwf. unfold StepsTs.getSteps, logFull.
  destruct (history g) as [|c0 cs] eqn:Hh; [reflexivity|].
  pose proof (StepsFacts.steps_commits (c0 :: cs)) as Hcs.
  unfold wfHistory in Hwf. rewrite Hh in Hwf.
  specialize (Hcs ltac:(discriminate) Hwf).
  rewrite StepsFacts.merge_length.
  rewrite <- (length_map StepsTs.hash
                (StepsTs.commits (lines (map fullLine (c0 :: cs))))), Hcs.
  now rewrite length_map.
Qed.

(** X11 (sections round trip).  A STEPS.md made of a preamble of whole
    lines and then, for each section, a heading line [# title] and a
    body of whole lines, none of these lines starting with a hash sign
    and a space, is cut into exactly these sections: each with its
    title and its body, trimmed.  With a history of N commits as git
    prints them and S such sections, [getSteps] returns exactly
    min(N, S) steps, and they carry, in order, the titles and
    contents of the first min(N, S) sections. *)
Theorem X11_sections_round_trip :
  forall (g : Git) (pre : string) (l : list (string * string)),
    wfHistory g = true ->
    More.plainBlock pre = true ->
    Forall (fun x => More.wellFormedSection x = true) l ->
    StepsTs.sections (pre ++ More.renderSections l) = map More.parsedSection l
    /\ List.length (StepsTs.getSteps g (Ok (pre ++ More.renderSections l)))
       = Nat.min (List.length (history g)) (List.length l)
    /\ map (fun s => (StepsTs.title s, StepsTs.content s))
           (StepsTs.getSteps g (Ok (pre ++ More.renderSections l)))
       = firstn (Nat.min (List.length (history g)) (List.length l))
                (map (fun x => (JS.trim (fst x), JS.trim (snd x))) l).
Proof.
  intros g pre l Hwf Hpre Hl.
  assert (Hs : StepsTs.sections (pre ++ More.renderSections l)
               = map More.parsedSection l).
  { unfold StepsTs.sections, JS.splitH1.
    pose proof (SectionFacts.pieces_rendered pre l EmptyString Hpre Hl eq_refl) as H.
    rewrite JSFacts.append_nil_r in H.
    destruct (JS.splitH1From true (pre ++ More.renderSections l)) as [p ps].
    cbn [snd] in H. cbn [tl]. rewrite H.
    change (snd (JS.splitH1From true EmptyString)) with (@nil string).
    rewrite List.app_nil_r. now apply SectionFacts.sectionOf_parts. }
  assert (Hlen : List.length (StepsTs.getSteps g (Ok (pre ++ More.renderSections l)))
                 = Nat.min (List.length (history g)) (List.length l)).
  { rewrite (getSteps_length g _ Hwf), Hs. now rewrite length_map. }
  split; [exact Hs|]. split; [exact Hlen|]. rewrite <- Hlen.
  unfold StepsTs.getSteps. destruct (logFull g) as [out|]; [|reflexivity].
  rewrite Hs, StepsFacts.merge_length.
  rewrite SectionFacts.merge_titles by (rewrite length_map; lia).
  simpl skipn. rewrite map_map. reflexivity.
Qed.

(** The two commits of the sample, and a file with three sections
    after a preamble: two steps. *)
Lemma X11_witness :
  (wfHistory Example.sampleGit = true
   /\ More.plainBlock ("Steps" ++ nl) = true
   /\ Forall (fun x => More.wellFormedSection x = true)
             [("One ", "first" ++ nl); ("Two", EmptyString);
              ("Three", "third" ++ nl)])
  /\ map (fun s => (StepsTs.title s, StepsTs.content s))
         (StepsTs.getSteps Example.sampleGit
            (Ok (("Steps" ++ nl)
                 ++ More.renderSections
                      [("One ", "first" ++ nl); ("Two", EmptyString);
                       ("Three", "third" ++ nl)])))
     = [("One", "first"); ("Two", EmptyString)].
Proof.
  assert (H : Forall (fun x => More.wellFormedSection x = true)
                     [("One ", "first" ++ nl); ("Two", EmptyString);
                      ("Three", "third" ++ nl)])
    by (repeat constructor).
  split; [split; [reflexivity | split; [reflexivity | exact H]]|].
  exact (proj2 (proj2 (X11_sections_round_trip Example.sampleGit ("Steps" ++ nl)
                         [("One ", "first" ++ nl); ("Two", EmptyString);
                          ("Three", "third" ++ nl)] eq_refl eq_refl H))).
Defined.

(** X12 (heading on the last line).  When the file ends with a heading
    line that has no line end after it, that last section has an empty
    title, and the text of the heading is its content. *)
Theorem X12_last_heading_without_newline :
  forall (pre : string) (l : list (string * string)) (heading : string),
    More.plainBlock pre = true ->
    Forall (fun x => More.wellFormedSection x = true) l ->
    More.oneLine heading = true ->
    StepsTs.sections (pre ++ More.renderSections l ++ "# " ++ heading)
    = (map More.parsedSection l
       ++ [StepsTs.mkSection EmptyString (JS.trim heading)])%list.
Proof.
  intros pre l heading Hpre Hl Hh.
  unfold StepsTs.sections, JS.splitH1.
  assert (Htail : JS.splitH1From true ("# " ++ heading) = (EmptyString, [heading])).
  { change (JS.splitH1From true ("# " ++ heading))
      with (let (p, ps) := JS.splitH1From false heading in
            (EmptyString, (p :: ps)%list)).
    now rewrite (SectionFacts.splitH1_oneLine heading Hh). }
  pose proof (SectionFacts.pieces_rendered pre l ("# " ++ heading) Hpre Hl) as H.
  rewrite Htail in H. specialize (H eq_refl). cbn [snd] in H.
  destruct (JS.splitH1From true (pre ++ More.renderSections l ++ "# " ++ heading))
    as [p ps].
  cbn [snd] in H. cbn [tl]. rewrite H, map_app.
  rewrite (SectionFacts.sectionOf_parts l Hl). f_equal.
  unfold StepsTs.sectionOf. cbn [map].
  now rewrite (SectionFacts.cutAtLF_none heading (SectionFacts.oneLine_no_LF _ Hh)).
Qed.

(** A file that is one heading and nothing else. *)
Lemma X12_witness :
  (More.plainBlock EmptyString = true
   /\ Forall (fun x => More.wellFormedSection x = true) []
   /\ More.oneLine "Only title" = true)
  /\ StepsTs.sections "# Only title"
     = [StepsTs.mkSection EmptyString "Only title"].
Proof.
  split; [repeat split; constructor|].
  exact (X12_last_heading_without_newline EmptyString [] "Only title"
           eq_refl (Forall_nil _) eq_refl).
Defined.

(** ** The repository name and the commit dates *)

Module RepoFacts.
Import JS GitLog SyncData JSFacts.

Lemma afterLastSlash_none (t : string) :
  More.noSlash t = true -> afterLastSlash t = None.
Proof.
  induction t as [|c t IH]; [reflexivity|].
  unfold More.noSlash. simpl. intros H. apply andb_true_iff in H as [Hc Ht].
  apply negb_true_iff in Hc. now rewrite (IH Ht), Hc.
Qed.

Lemma afterLastSlash_app (p t : string) :
  More.noSlash t = true -> afterLastSlash (p ++ "/" ++ t) = Some t.
Proof.
  intros Ht. induction p as [|c p IH]; simpl.
  - now rewrite (afterLastSlash_none t Ht).
  - simpl in IH. now rewrite IH.
Qed.

(** The text after the last slash has no slash, and the text is what
    stands before it, the slash, and it. *)
Lemma afterLastSlash_inv (s t : string) :
  afterLastSlash s = Some t ->
  More.noSlash t = true /\ exists p, s = p ++ "/" ++ t.
Proof.
  revert t. induction s as [|c s IH]; simpl; [discriminate|].
  intros t. destruct (afterLastSlash s) as [t'|] eqn:E.
  - intros [= <-]. destruct (IH t' eq_refl) as (Hn & p & ->).
    split; [exact Hn|]. now exists (String c p).
  - destruct (Ascii.eqb c "/") eqn:Hc; [|discriminate].
    intros [= <-]. apply Ascii.eqb_eq in Hc. subst c. split.
    + clear IH. induction s as [|d s IH]; [reflexivity|].
      simpl in E. destruct (afterLastSlash s); [discriminate|].
      destruct (Ascii.eqb d "/") eqn:Hd; [discriminate|].
      unfold More.noSlash. simpl. rewrite Hd. now apply IH.
    + now exists EmptyString.
Qed.

Lemma afterLastSlash_some (s : string) :
  afterLastSlash s = None -> More.noSlash s = true.
Proof.
  induction s as [|c s IH]; [reflexivity|]. simpl.
  destruct (afterLastSlash s); [discriminate|].
  destruct (Ascii.eqb c "/") eqn:Hc; [discriminate|].
  intros _. unfold More.noSlash. simpl. rewrite Hc. now apply IH.
Qed.

Lemma endsWithSlash_slash (p : string) :
  BuildArgs.endsWithSlash (p ++ "/") = true.
Proof.
  induction p as [|c p IH]; [reflexivity|].
  simpl. destruct (p ++ "/") eqn:E; [now destruct p|exact IH].
Qed.

Lemma eqb_app_dot_git (t : string) :
  String.eqb (t ++ ".git") ".git" = match t with EmptyString => true | _ => false end.
Proof.
  destruct t as [|c t]; [reflexivity|].
  apply String.eqb_neq. intros H. apply (f_equal String.length) in H.
  simpl in H. rewrite length_append in H. simpl in H. lia.
Qed.

Lemma nameOfTail_dot_git (name : string) :
  truthy name = true -> nameOfTail (name ++ ".git") = name.
Proof.
  induction name as [|c name IH]; [discriminate|]. intros _.
  simpl. rewrite eqb_app_dot_git.
  destruct name as [|d name]; [reflexivity|].
  replace (String.eqb (String d name ++ ".git") EmptyString) with false
    by reflexivity.
  simpl orb. now rewrite IH.
Qed.

Lemma noSlash_app (a b : string) :
  More.noSlash (a ++ b) = More.noSlash a && More.noSlash b.
Proof. apply allChars_app. Qed.

(** What the name read from a tail is: not empty, and the tail itself
    or the tail without a final [.git]. *)
Lemma nameOfTail_inv (t : string) :
  truthy t = true ->
  truthy (nameOfTail t) = true
  /\ (t = nameOfTail t \/ t = nameOfTail t ++ ".git").
Proof.
  induction t as [|c t IH]; [discriminate|]. intros _. simpl.
  destruct (String.eqb t ".git") eqn:E1.
  - apply String.eqb_eq in E1. subst t. simpl. auto.
  - destruct (String.eqb t EmptyString) eqn:E2.
    + apply String.eqb_eq in E2. subst t. simpl. auto.
    + simpl. split; [reflexivity|].
      destruct t as [|d t]; [discriminate|].
      destruct (IH eq_refl) as (_ & [H|H]).
      * left. now f_equal.
      * right.
        change (String c (String d t)
                = String c (nameOfTail (String d t) ++ ".git")).
        now f_equal.
Qed.

Lemma noSlash_nameOfTail (t : string) :
  More.noSlash t = true -> More.noSlash (nameOfTail t) = true.
Proof.
  induction t as [|c t IH]; [reflexivity|].
  unfold More.noSlash. simpl. intros H. apply andb_true_iff in H as [Hc Ht].
  destruct (String.eqb t ".git" || String.eqb t EmptyString); simpl; rewrite Hc;
    [reflexivity|]. now apply IH.
Qed.

(** What the pattern finds in a URL. *)
Lemma urlMatch_cases (url : string) :
  match urlMatch url with
  | Some n =>
      truthy n = true /\ More.noSlash n = true
      /\ exists p, url = p ++ "/" ++ n \/ url = p ++ "/" ++ n ++ ".git"
  | None => More.noSlash url = true \/ BuildArgs.endsWithSlash url = true
  end.
Proof.
  unfold urlMatch. destruct (afterLastSlash url) as [t|] eqn:E.
  - apply afterLastSlash_inv in E as (Hn & p & ->).
    destruct t as [|c t].
    + right. apply endsWithSlash_slash.
    + destruct (nameOfTail_inv (String c t) eq_refl) as (Ht & Hcase).
      split; [exact Ht|]. split; [now apply noSlash_nameOfTail|].
      exists p. destruct Hcase as [H|H]; [left | right]; now rewrite <- H.
  - left. now apply afterLastSlash_some.
Qed.

Lemma urlMatch_dot_git (p name : string) :
  truthy name = true -> More.noSlash name = true ->
  urlMatch (p ++ "/" ++ name ++ ".git") = Some name.
Proof.
  intros Hne Hn. unfold urlMatch.
  rewrite afterLastSlash_app by (rewrite noSlash_app, Hn; reflexivity).
  destruct name as [|c name]; [discriminate|].
  change (Some (nameOfTail (String c name ++ ".git")) = Some (String c name)).
  now rewrite (nameOfTail_dot_git (String c name) eq_refl).
Qed.

(** The day of a date as [%ai] prints it. *)
Lemma dateOf_day (day rest : string) :
  truthy day = true -> More.noSpace day = true ->
  dateOf (day ++ " " ++ rest ++ nl) = day.
Proof.
  intros Hne Hday. unfold dateOf, trim.
  assert (Hsp : allChars (fun c => negb (Ascii.eqb c SP)) day = true).
  { revert Hday. apply allChars_weaken. intros c Hc.
    apply negb_true_iff in Hc. apply negb_true_iff.
    destruct (Ascii.eqb c SP) eqn:E; [|reflexivity].
    apply Ascii.eqb_eq in E. subst c. discriminate. }
  assert (Hstart : trimStart (day ++ " " ++ rest ++ nl) = day ++ " " ++ rest ++ nl).
  { destruct day as [|c day]; [discriminate|]. simpl.
    unfold More.noSpace in Hday. simpl in Hday.
    apply andb_true_iff in Hday as [Hc _].
    apply negb_true_iff in Hc. now rewrite Hc. }
  rewrite Hstart, MetaFacts.trimEnd_plain_app by assumption.
  change (" " ++ rest ++ nl) with (String SP (rest ++ nl)).
  destruct (StepsFacts.trimEnd_head SP (rest ++ nl)) as [-> | (t & ->)].
  - rewrite append_nil_r, splitParts_none by assumption. reflexivity.
  - rewrite splitParts_app by assumption. reflexivity.
Qed.

Lemma lastDate_last (e : Env) (c : Commit) :
  bashRuns e = true ->
  hd_error (rev (history (git e))) = Some c ->
  history (git e) <> [] ->
  lastDate e = dateOf (c_date c ++ nl).
Proof.
  unfold lastDate, dates, logFirstDate, logLastDate. intros ->.
  destruct (history (git e)) as [|c0 cs] eqn:Hh; [congruence|].
  destruct (rev (c0 :: cs)) as [|c' r]; [discriminate|].
  now intros [= ->].
Qed.

End RepoFacts.

(** X13 (repository name from the remote).  When the URL of the remote
    [origin], trimmed, ends with a slash, a name without a slash and
    [.git], the repository name is that name, without the [.git], and
    the URL is stored as it is; the directory name is not used. *)
Theorem X13_repo_name_without_dot_git :
  forall (e : SyncData.Env) (out prefix name : string),
    remoteGetUrl (SyncData.git e) = Ok out ->
    JS.trim out = prefix ++ "/" ++ name ++ ".git" ->
    JS.truthy name = true ->
    More.noSlash name = true ->
    SyncData.repoName e = name
    /\ SyncData.repoUrl e = prefix ++ "/" ++ name ++ ".git".
Proof.
  intros e out prefix name Hout Htrim Hne Hn.
  unfold SyncData.repoName, SyncData.repoUrl, SyncData.repoInfo.
  rewrite Hout, Htrim. cbn [fst snd].
  now rewrite (RepoFacts.urlMatch_dot_git prefix name Hne Hn).
Qed.

(** X14 (the cases of the repository name).  Without a remote the URL
    is empty and the name is the directory name.  With a remote the URL
    is the trimmed output, and the name is either the directory name,
    which happens only when the URL has no slash or ends with one, or a
    non-empty text without a slash that ends the URL, alone or followed
    by [.git]. *)
Theorem X14_repo_name_cases :
  forall (e : SyncData.Env),
    match remoteGetUrl (SyncData.git e) with
    | Throw =>
        SyncData.repoUrl e = EmptyString
        /\ SyncData.repoName e = SyncData.sourceBasename e
    | Ok out =>
        SyncData.repoUrl e = JS.trim out
        /\ ((SyncData.repoName e = SyncData.sourceBasename e
             /\ (More.noSlash (JS.trim out) = true
                 \/ BuildArgs.endsWithSlash (JS.trim out) = true))
            \/ (JS.truthy (SyncData.repoName e) = true
                /\ More.noSlash (SyncData.repoName e) = true
                /\ exists prefix,
                     JS.trim out = prefix ++ "/" ++ SyncData.repoName e
                     \/ JS.trim out
                        = prefix ++ "/" ++ SyncData.repoName e ++ ".git"))
    end.
Proof.
  intros e. unfold SyncData.repoName, SyncData.repoUrl, SyncData.repoInfo.
  destruct (remoteGetUrl (SyncData.git e)) as [out|]; [|now split].
  cbn [fst snd]. split; [reflexivity|].
  pose proof (RepoFacts.urlMatch_cases (JS.trim out)) as H.
  destruct (SyncData.urlMatch (JS.trim out)) as [n|]; [right | left]; auto.
Qed.

(** The remote of the sample. *)
Lemma X13_witness :
  (remoteGetUrl (SyncData.git Example.sampleEnv)
     = Ok ("git@github.com:user/my_repo.git" ++ GitLog.nl)
   /\ JS.trim ("git@github.com:user/my_repo.git" ++ GitLog.nl)
      = "git@github.com:user" ++ "/" ++ "my_repo" ++ ".git"
   /\ JS.truthy "my_repo" = true
   /\ More.noSlash "my_repo" = true)
  /\ SyncData.repoName Example.sampleEnv = "my_repo".
Proof.
  split; [repeat split|].
  exact (proj1 (X13_repo_name_without_dot_git Example.sampleEnv
                  ("git@github.com:user/my_repo.git" ++ GitLog.nl)
                  "git@github.com:user" "my_repo"
                  eq_refl eq_refl eq_refl eq_refl)).
Defined.

(** X15 (dates of a stored manifest).  Whenever the manifest is
    written, the history has a first and a last commit.  When the
    command that reads the first date ran (it needs [/bin/bash]), the
    two dates stored are read from the dates git printed for these two
    commits, and for a date printed as a day, a space and the rest,
    the date stored is the day: today's date, the initial value of
    both, is not stored.  When that command threw, both dates stored
    are today's. *)
Theorem X15_dates_from_commits :
  forall (fm : string -> option (string * string))
         (pf : string -> SyncData.ProjectConfig) (dh : string -> string)
         (e : SyncData.Env) (d : SyncData.ProjectData),
    SyncData.manifest fm pf dh e = Some d ->
    exists first last,
      hd_error (history (SyncData.git e)) = Some first
      /\ hd_error (rev (history (SyncData.git e))) = Some last
      /\ (SyncData.bashRuns e = true ->
          SyncData.pd_startDate d = SyncData.dateOf (c_date first ++ GitLog.nl)
          /\ SyncData.pd_lastDate d = SyncData.dateOf (c_date last ++ GitLog.nl)
          /\ (forall day rest,
                c_date first = day ++ " " ++ rest ->
                JS.truthy day = true -> More.noSpace day = true ->
                SyncData.pd_startDate d = day)
          /\ (forall day rest,
                c_date last = day ++ " " ++ rest ->
                JS.truthy day = true -> More.noSpace day = true ->
                SyncData.pd_lastDate d = day))
      /\ (SyncData.bashRuns e = false ->
          SyncData.pd_startDate d = SyncData.today e
          /\ SyncData.pd_lastDate d = SyncData.today e).
Proof.
  intros fm pf dh e d Hd.
  destruct (history (SyncData.git e)) as [|c0 cs] eqn:Hh.
  { now rewrite (SyncFacts.manifest_none fm pf dh e Hh) in Hd. }
  destruct (rev (c0 :: cs)) as [|cl r] eqn:Hr.
  { apply (f_equal (@List.length Commit)) in Hr.
    rewrite length_rev in Hr. discriminate. }
  apply manifest_data in Hd as (entries & ->).
  exists c0, cl. cbn [SyncData.pd_startDate SyncData.pd_lastDate SyncData.projectData].
  split; [reflexivity|]. split; [reflexivity|]. split.
  - intros Hbash.
    assert (H1 : SyncData.startDate e = SyncData.dateOf (c_date c0 ++ GitLog.nl)).
    { apply startDate_first; [assumption | now rewrite Hh]. }
    assert (H2 : SyncData.lastDate e = SyncData.dateOf (c_date cl ++ GitLog.nl)).
    { apply RepoFacts.lastDate_last; [assumption | |];
        rewrite Hh; [now rewrite Hr | discriminate]. }
    repeat split; trivial.
    + intros day rest Hdate Hne Hday. rewrite H1, Hdate.
      rewrite !JSFacts.append_assoc. now apply RepoFacts.dateOf_day.
    + intros day rest Hdate Hne Hday. rewrite H2, Hdate.
      rewrite !JSFacts.append_assoc. now apply RepoFacts.dateOf_day.
  - intros Hbash. exact (dates_today e Hbash).
Qed.

(** The dates of the sample, with and without the shell. *)
Lemma X15_witness :
  (exists d,
     SyncData.manifest Example.noMatch Example.noFields Example.keepBody
                       Example.sampleEnv = Some d
     /\ SyncData.pd_startDate d = "2025-11-28"
     /\ SyncData.pd_lastDate d = "2025-11-30")
  /\ (exists d,
        SyncData.manifest Example.noMatch Example.noFields Example.keepBody
                          Example.noBashEnv = Some d
        /\ SyncData.pd_startDate d = "2026-01-01"
        /\ SyncData.pd_lastDate d = "2026-01-01").
Proof.
  split.
  - eexists. split; [reflexivity|].
    destruct (X15_dates_from_commits Example.noMatch Example.noFields
                Example.keepBody Example.sampleEnv _ eq_refl)
      as (first & last & Hf & Hl & Hrun & _).
    injection Hf as <-. injection Hl as <-.
    destruct (Hrun eq_refl) as (_ & _ & Hs & He). split.
    + exact (Hs "2025-11-28" "10:00:00 -0500" eq_refl eq_refl eq_refl).
    + exact (He "2025-11-30" "09:30:00 -0500" eq_refl eq_refl eq_refl).
  - eexists. split; [reflexivity|].
    destruct (X15_dates_from_commits Example.noMatch Example.noFields
                Example.keepBody Example.noBashEnv _ eq_refl)
      as (first & last & _ & _ & _ & Hno).
    exact (Hno eq_refl).
Defined.

(** ** The files a run writes *)

Module WriteFacts.
Import JS GitLog SyncData.

Lemma written_app (a b : list Effect) :
  More.written (a ++ b) = (More.written a ++ More.written b)%list.
Proof. apply flat_map_app. Qed.

Lemma written_step (g : Git) (i : nat) (c : CommitInfo) :
  More.written (fst (step g i c))
  = (destStepFile (toString i)
     :: (if hasOutput (snd (step g i c)) then [destOutputFile (toString i)] else []))%list.
Proof.
  rewrite step_calls. simpl.
  now destruct (hasOutput (snd (step g i c))).
Qed.

(** The files the steps from index [k] on write are named after an
    index that is at least [k]. *)
Lemma written_steps_in (g : Git) (cs : list CommitInfo) :
  forall k p,
    In p (More.written (List.concat (map fst (mapi (step g) k cs)))) ->
    exists i, k <= i < k + List.length cs
              /\ (p = destStepFile (toString i) \/ p = destOutputFile (toString i)).
Proof.
  induction cs as [|c cs IH]; intros k p; simpl; [contradiction|].
  rewrite written_app, written_step. intros H. apply in_app_or in H as [H|H].
  - exists k. split; [lia|]. destruct H as [<-|H]; [now left|].
    destruct (hasOutput (snd (step g k c))); [|contradiction].
    destruct H as [<-|[]]. now right.
  - apply IH in H as (i & Hi & Hp). exists i. split; [lia | exact Hp].
Qed.

Lemma written_steps_NoDup (g : Git) (cs : list CommitInfo) :
  forall k, NoDup (More.written (List.concat (map fst (mapi (step g) k cs)))).
Proof.
  induction cs as [|c cs IH]; intros k; simpl; [constructor|].
  rewrite written_app, written_step. apply NoDup_app.
  - destruct (hasOutput (snd (step g k c))).
    + constructor; [|constructor; [intros []|constructor]].
      intros [H|[]]. injection H as H. symmetry in H.
      now apply step_file_not_output in H.
    + constructor; [intros []|constructor].
  - apply IH.
  - intros p Hp Hin. apply written_steps_in in Hin as (i & Hi & Hcase).
    assert (Hk : p = destStepFile (toString k) \/ p = destOutputFile (toString k)).
    { destruct Hp as [<-|Hp]; [now left|].
      destruct (hasOutput (snd (step g k c))); [|contradiction].
      destruct Hp as [<-|[]]. now right. }
    unfold destStepFile, destOutputFile in *.
    destruct Hk as [-> | ->], Hcase as [H | H]; injection H as H.
    + apply append_inj_l, toString_inj in H. lia.
    + now apply step_file_not_output in H.
    + symmetry in H. now apply step_file_not_output in H.
    + apply append_inj_l, toString_inj in H. lia.
Qed.

Lemma written_setup (fm : string -> option (string * string))
  (pf : string -> ProjectConfig) (dh : string -> string) (e : Env) :
  More.written (setup fm pf dh e)
  = match readme e with
    | Some _ => [Join DOCS_DIR "readme.md"]
    | None => []
    end.
Proof.
  unfold setup.
  now destruct (stepsDirExists e), (docsDirExists e), (readme e).
Qed.

Lemma steps_no_rm (g : Git) (cs : list CommitInfo) :
  forall k, forallb (fun x => negb (More.isRm x))
                    (List.concat (map fst (mapi (step g) k cs))) = true.
Proof.
  induction cs as [|c cs IH]; intros k; simpl; [reflexivity|].
  rewrite forallb_app, IH, step_calls.
  now destruct (hasOutput (snd (step g k c))).
Qed.

End WriteFacts.

(** X16 (the files of a run).  Any run of the sync script, completed or
    aborted, writes no file twice.  The step directory is removed only
    as the first call, and only when it exists; it is created next, and
    nothing is removed after that.  A completed run ends with the write
    of the manifest. *)
Theorem X16_no_file_written_twice :
  forall (fm : string -> option (string * string))
         (pf : string -> SyncData.ProjectConfig) (dh : string -> string)
         (e : SyncData.Env),
    NoDup (More.written (SyncData.effects fm pf dh e))
    /\ (exists rest,
          SyncData.effects fm pf dh e
          = ((if SyncData.stepsDirExists e
              then [SyncData.RmSync SyncData.STEPS_DIR] else [])
             ++ SyncData.MkdirSync SyncData.STEPS_DIR :: rest)%list
          /\ forallb (fun x => negb (More.isRm x)) rest = true)
    /\ (snd (SyncData.main fm pf dh e) = Ok tt ->
        exists front d,
          SyncData.effects fm pf dh e
          = (front ++ [SyncData.WriteJson SyncData.DATA_FILE d])%list
          /\ SyncData.manifest fm pf dh e = Some d).
Proof.
  intros fm pf dh e. unfold SyncData.effects, SyncData.manifest.
  rewrite SyncFacts.main_unfold.
  destruct (logShort (SyncData.git e)) as [out|]; cbn [fst snd].
  - split; [|split].
    + rewrite !WriteFacts.written_app, WriteFacts.written_setup.
      apply NoDup_app.
      * destruct (SyncData.readme e); repeat constructor; intros [].
      * apply NoDup_app; [apply WriteFacts.written_steps_NoDup | |].
        -- repeat constructor. intros [].
        -- intros p Hp [<-|[]].
           apply WriteFacts.written_steps_in in Hp as (i & _ & [H|H]);
             discriminate.
      * intros p Hp Hin. apply in_app_or in Hin as [Hin|[<-|[]]].
        -- apply WriteFacts.written_steps_in in Hin as (i & _ & [H|H]);
             subst p; destruct (SyncData.readme e); simpl in Hp;
             intuition discriminate.
        -- destruct (SyncData.readme e); simpl in Hp; intuition discriminate.
    + unfold SyncData.setup, SyncData.steps. rewrite <- !app_assoc.
      eexists. split; [reflexivity|].
      rewrite !forallb_app, WriteFacts.steps_no_rm.
      now destruct (SyncData.docsDirExists e), (SyncData.readme e).
    + intros _. eexists. eexists. rewrite app_assoc. split; [reflexivity|].
      rewrite rev_app_distr. reflexivity.
  - split; [|split].
    + rewrite WriteFacts.written_setup.
      destruct (SyncData.readme e); repeat constructor; intros [].
    + unfold SyncData.setup. eexists. split; [reflexivity|].
      rewrite !forallb_app.
      now destruct (SyncData.docsDirExists e), (SyncData.readme e).
    + discriminate.
Qed.

(** ** The listings of a commit *)

(** X17 (listings).  When git prints a listing as lines, each a
    non-empty name without a line feed, [getChangedFiles] returns
    exactly these names, in order, and [getCommitFiles] one node for
    each of them, in order, with that name as its path.  Whatever git
    prints, no name returned is empty or holds a line feed. *)
Theorem X17_listing_names :
  forall (decode : list byte -> result string) (g : Git) (commit : string),
    (forall names,
       Forall (fun x => JS.truthy x = true
                        /\ allChars (fun c => negb (Ascii.eqb c JS.LF)) x = true)
              names ->
       (showNameOnly g commit = Ok (lines names) ->
        GitTs.getChangedFiles g commit = Ok names)
       /\ (lsTree g commit = Ok (lines names) ->
           exists files,
             GitTs.getCommitFiles decode g commit = Ok files
             /\ map GitTs.path files = names))
    /\ (forall names name,
          GitTs.getChangedFiles g commit = Ok names -> In name names ->
          JS.truthy name = true
          /\ allChars (fun c => negb (Ascii.eqb c JS.LF)) name = true)
    /\ (forall files file,
          GitTs.getCommitFiles decode g commit = Ok files -> In file files ->
          JS.truthy (GitTs.path file) = true
          /\ allChars (fun c => negb (Ascii.eqb c JS.LF)) (GitTs.path file) = true).
Proof.
  intros decode g commit.
  assert (Hlines : forall names,
             Forall (fun x => JS.truthy x = true
                              /\ allChars (fun c => negb (Ascii.eqb c JS.LF)) x = true)
                    names ->
             GitTs.nonEmptyLines (lines names) = names).
  { intros names H. unfold GitTs.nonEmptyLines.
    rewrite JSFacts.split_lines, JSFacts.filter_truthy_lines; trivial;
      revert H; apply Forall_impl; tauto. }
  assert (Hpiece : forall out name,
             In name (GitTs.nonEmptyLines out) ->
             JS.truthy name = true
             /\ allChars (fun c => negb (Ascii.eqb c JS.LF)) name = true).
  { intros out name H. unfold GitTs.nonEmptyLines in H.
    apply filter_In in H as [Hin Ht]. split; [exact Ht|].
    destruct (MetaFacts.split_pieces JS.LF out) as (p & ps & Hs & Hall).
    rewrite Hs in Hin. rewrite Forall_forall in Hall. now apply Hall. }
  split; [|split].
  - intros names Hn. split.
    + intros H. rewrite GitFacts.getChangedFiles_cases, H. now rewrite Hlines.
    + intros H. eexists. split.
      * rewrite GitFacts.getCommitFiles_cases, H. reflexivity.
      * rewrite Hlines, map_map by assumption.
        rewrite (map_ext _ (fun x => x)); [apply map_id|].
        intros x. apply GitFacts.nodeFor_path.
  - intros names name H Hin. rewrite GitFacts.getChangedFiles_cases in H.
    injection H as <-.
    destruct (showNameOnly g commit) as [out|]; [eauto | contradiction].
  - intros files file H Hin. rewrite GitFacts.getCommitFiles_cases in H.
    injection H as <-.
    destruct (lsTree g commit) as [out|]; [|contradiction].
    apply in_map_iff in Hin as (name & <- & Hin).
    rewrite GitFacts.nodeFor_path. eauto.
Qed.

(** ** The patterns of step 1 *)

Module RegexFacts.
Import JS GitLog RegExp JSFacts.

Lemma star_stop (p : ascii -> bool) (k : K) (pos : nat) (b : string) (caps : Caps) :
  Shape.stops p b = true -> star p k pos b caps = k pos b caps.
Proof.
  destruct b as [|c b]; [reflexivity|]. simpl. intros H.
  apply negb_true_iff in H. now rewrite H.
Qed.

(** A greedy repetition keeps what it took when the rest matches. *)
Lemma star_ok (p : ascii -> bool) (k : K) (a b : string) (caps : Caps)
  (r : nat * Caps) :
  allChars p a = true ->
  forall pos,
    star p k (pos + String.length a) b caps = Some r ->
    star p k pos (a ++ b) caps = Some r.
Proof.
  induction a as [|c a IH]; simpl; intros Ha pos H.
  - now rewrite Nat.add_0_r in H.
  - apply andb_true_iff in Ha as [Hc Ha]. rewrite Hc.
    rewrite (IH Ha (S pos)); [reflexivity|].
    now rewrite Nat.add_succ_r in H.
Qed.

Lemma star_take (p : ascii -> bool) (k : K) (a b : string) (caps : Caps)
  (r : nat * Caps) (pos : nat) :
  allChars p a = true -> Shape.stops p b = true ->
  k (pos + String.length a) b caps = Some r ->
  star p k pos (a ++ b) caps = Some r.
Proof.
  intros Ha Hb H. apply star_ok; [assumption|]. now rewrite star_stop.
Qed.

(** A greedy repetition fails on a text of a kind closed under taking
    the first character off when what follows fails on every text of
    that kind. *)
Lemma star_fail (P : string -> Prop) (p : ascii -> bool) (k : K) (caps : Caps) :
  (forall c s, P (String c s) -> P s) ->
  (forall pos s, P s -> k pos s caps = None) ->
  forall s pos, P s -> star p k pos s caps = None.
Proof.
  intros Htail Hk. induction s as [|c s IH]; intros pos Hs; simpl.
  - now apply Hk.
  - destruct (p c); [|now apply Hk].
    rewrite (IH (S pos) (Htail _ _ Hs)). now apply Hk.
Qed.

(** A lazy repetition stops at the first place where the rest
    matches. *)
Lemma lazyStar_ok (p : ascii -> bool) (k : K) (a b : string) (caps : Caps)
  (r : nat * Caps) :
  allChars p a = true ->
  forall pos,
    (forall a1 a2, a = a1 ++ a2 -> truthy a2 = true ->
                   k (pos + String.length a1) (a2 ++ b) caps = None) ->
    k (pos + String.length a) b caps = Some r ->
    lazyStar p k pos (a ++ b) caps = Some r.
Proof.
  induction a as [|c a IH]; intros Ha pos Hfail Hk.
  - simpl in *. rewrite Nat.add_0_r in Hk.
    destruct b; simpl; now rewrite Hk.
  - simpl in Ha. apply andb_true_iff in Ha as [Hc Ha].
    pose proof (Hfail EmptyString (String c a) eq_refl eq_refl) as H0.
    simpl in H0. rewrite Nat.add_0_r in H0.
    simpl. rewrite H0, Hc. apply (IH Ha (S pos)).
    + intros a1 a2 E Ht. specialize (Hfail (String c a1) a2).
      simpl in Hfail. rewrite Nat.add_succ_r in Hfail.
      apply Hfail; [now rewrite E | assumption].
    + simpl in Hk. now rewrite Nat.add_succ_r in Hk.
Qed.

(** A pattern that starts with [^] matches at index 0 or nowhere. *)
Lemma search_anchored (r : Re) (s : string) :
  forall pos, search (Seq Bos r) (S pos) s = None.
Proof. induction s as [|c s IH]; intros pos; simpl; [reflexivity | apply IH]. Qed.

Lemma exec_anchored (r : Re) (s : string) :
  exec (Seq Bos r) s
  = match run r accept 0 s [] with
    | Some (e, caps) => Some (0, e, caps)
    | None => None
    end.
Proof.
  unfold exec. destruct s as [|c s]; simpl.
  - now destruct (run r accept 0 EmptyString []) as [[e caps]|].
  - destruct (run r accept 0 (String c s) []) as [[e caps]|]; [reflexivity|].
    apply search_anchored.
Qed.

Lemma space_LF (c : ascii) : Ascii.eqb c LF = true -> isSpace c = true.
Proof. intros H. apply Ascii.eqb_eq in H. now subst c. Qed.

Lemma plain_not_LF (c : ascii) : isSpace c = false -> Ascii.eqb c LF = false.
Proof.
  intros H. destruct (Ascii.eqb c LF) eqn:E; [|reflexivity].
  apply space_LF in E. congruence.
Qed.

Lemma space_not_dash (c : ascii) : isSpace c = true -> Ascii.eqb c "-" = false.
Proof.
  intros H. destruct (Ascii.eqb c "-") eqn:E; [|reflexivity].
  apply Ascii.eqb_eq in E. now subst c.
Qed.

Lemma substring_prefix (a b : string) :
  substring 0 (String.length a) (a ++ b) = a.
Proof. induction a as [|c a IH]; simpl; [now destruct b | now rewrite IH]. Qed.

Lemma substring_suffix (a b : string) :
  substring (String.length a) (String.length b) (a ++ b) = b.
Proof. induction a as [|c a IH]; simpl; [apply substring_all | exact IH]. Qed.

Lemma trimStart_split (s : string) :
  exists sp, s = sp ++ trimStart s /\ allChars isSpace sp = true.
Proof.
  induction s as [|c s (sp & E & Hsp)]; [now exists EmptyString|].
  simpl. destruct (isSpace c) eqn:Hc.
  - exists (String c sp). simpl. now rewrite <- E, Hc.
  - now exists EmptyString.
Qed.

Lemma trimStart_stops (s : string) : Shape.stops isSpace (trimStart s) = true.
Proof.
  induction s as [|c s IH]; [reflexivity|]. simpl.
  destruct (isSpace c) eqn:Hc; [exact IH|]. simpl. now rewrite Hc.
Qed.

(** One step of a match, for each form of pattern. *)
Lemma run_seq (a b : Re) (k : K) : run (Seq a b) k = run a (run b k).
Proof. reflexivity. Qed.

Lemma run_chr (p : ascii -> bool) (k : K) (c : ascii) (s : string)
  (pos : nat) (caps : Caps) :
  run (Chr p) k pos (String c s) caps
  = if p c then k (S pos) s caps else None.
Proof. reflexivity. Qed.

Lemma run_lit (l : string) (k : K) (s : string) (caps : Caps) :
  forall pos, run (lit l) k pos (l ++ s) caps = k (pos + String.length l) s caps.
Proof.
  induction l as [|c l IH]; intros pos; simpl.
  - now rewrite Nat.add_0_r.
  - unfold only at 1. rewrite Ascii.eqb_refl, IH. now rewrite Nat.add_succ_r.
Qed.

Lemma run_star (p : ascii -> bool) (k : K) : run (Star p) k = star p k.
Proof. reflexivity. Qed.

Lemma run_group (n : nat) (a : Re) (k : K) (pos : nat) (s : string) (caps : Caps) :
  run (Group n a) k pos s caps
  = run a (fun pos' s' caps' =>
             k pos' s' ((n, substring 0 (pos' - pos) s) :: caps'))
        pos s caps.
Proof. reflexivity. Qed.

End RegexFacts.

Module ReadmeFacts.
Import JS GitLog RegExp Readme JSFacts RegexFacts.

(** *** The quotes around a value *)

Lemma removeAll_later (s : string) :
  forall pos, removeAll quoteRe (S pos) 0 s = Shape.dropQuoteEnd s.
Proof.
  induction s as [|c s IH]; intros pos; [reflexivity|].
  cbn [removeAll quoteRe run Nat.eqb]. destruct (quote c) eqn:Hq.
  - destruct s as [|d s].
    + cbn [accept removeAll Shape.dropQuoteEnd]. rewrite Hq.
      assert (Hgt : Nat.leb (S (S pos)) (S pos) = false)
        by (apply Nat.leb_gt; lia).
      rewrite Hgt. reflexivity.
    + cbn [accept]. rewrite IH. cbn [Shape.dropQuoteEnd]. reflexivity.
  - rewrite IH. destruct s; cbn [Shape.dropQuoteEnd]; [now rewrite Hq | reflexivity].
Qed.

Lemma cleanValue_spec (value : string) :
  cleanValue value = Shape.dropQuoteEnd (Shape.dropQuoteStart value).
Proof.
  unfold cleanValue. destruct value as [|c s]; [reflexivity|].
  cbn [removeAll quoteRe run Nat.eqb accept Shape.dropQuoteStart].
  destruct (quote c) eqn:Hq.
  - cbn. apply removeAll_later.
  - rewrite removeAll_later.
    destruct s; cbn [Shape.dropQuoteEnd]; [now rewrite Hq | reflexivity].
Qed.

Lemma dropQuoteEnd_app (a : string) (q : ascii) :
  quote q = true -> Shape.dropQuoteEnd (a ++ String q EmptyString) = a.
Proof.
  intros Hq. induction a as [|c a IH]; simpl; [now rewrite Hq|].
  rewrite IH. now destruct a.
Qed.

(** *** The frontmatter block *)

Lemma fence_needed (k : K) (caps : Caps) (s : string) :
  forall pos,
    String.prefix "---" (trimStart s) = false ->
    star isSpace (run (lit "---") k) pos s caps = None.
Proof.
  induction s as [|c s IH]; intros pos H; [reflexivity|].
  cbn [trimStart] in H. cbn [star]. destruct (isSpace c) eqn:Hc.
  - rewrite (IH (S pos) H). cbn. unfold only.
    now rewrite (space_not_dash c Hc).
  - clear IH. cbn. unfold only.
    destruct (Ascii.eqb c "-") eqn:E1; [|reflexivity].
    apply Ascii.eqb_eq in E1. subst c.
    destruct s as [|d s]; [reflexivity|].
    destruct (Ascii.eqb d "-") eqn:E2; [|reflexivity].
    apply Ascii.eqb_eq in E2. subst d.
    destruct s as [|f s]; [reflexivity|].
    destruct (Ascii.eqb f "-") eqn:E3; [|reflexivity].
    apply Ascii.eqb_eq in E3. subst f.
    assert (Ht : String.prefix "---" ("---" ++ s) = true)
      by (apply prefix_correct; simpl; now destruct s).
    simpl append in Ht. congruence.
Qed.

Lemma frontmatter_absent (raw : string) :
  String.prefix "---" (trimStart raw) = false -> frontmatterMatch raw = None.
Proof.
  intros H. unfold frontmatterMatch, frontmatterRe.
  cbn [seq fold_right]. rewrite exec_anchored.
  cbn [run]. now rewrite fence_needed.
Qed.


Lemma allChars_any (s : string) : allChars any s = true.
Proof. induction s; simpl; auto. Qed.

Lemma keyLines_app (a1 a2 : string) :
  Shape.keyLines (a1 ++ a2) = true -> Shape.keyLines a2 = true.
Proof.
  induction a1 as [|c a1 IH]; [trivial|]. simpl append.
  cbn [Shape.keyLines]. intros H. apply andb_true_iff in H as [_ H]. auto.
Qed.

(** A greedy [[\s\S]*] in front of [$] takes the rest of the text. *)
Lemma star_any_all (k : K) (s : string) (caps : Caps) (r : nat * Caps) (pos : nat) :
  k (pos + String.length s) EmptyString caps = Some r ->
  star any k pos s caps = Some r.
Proof.
  intros H. rewrite <- (append_nil_r s) at 1.
  apply star_take; [apply allChars_any | reflexivity | exact H].
Qed.

Lemma closing_ok (rest : string) (pos : nat) (caps : Caps) :
  exists e,
    run closing accept pos (nl ++ "---" ++ rest) caps
    = Some (e, (2, trimStart rest) :: caps).
Proof.
  destruct (trimStart_split rest) as (sp & E & Hsp).
  pose proof (trimStart_stops rest) as Hstop.
  set (t := trimStart rest) in *.
  assert (Hopt : forall k' p', run (Opt (Chr (only LF))) k' p' t caps = k' p' t caps).
  { intros k' p'. cbn [run]. destruct t as [|c t']; [reflexivity|].
    simpl in Hstop. apply negb_true_iff in Hstop.
    unfold only. now rewrite (plain_not_LF c Hstop). }
  eexists. unfold closing, seq. cbn [fold_right].
  change (nl ++ "---" ++ rest) with (String LF ("---" ++ rest)).
  rewrite run_seq, run_chr. unfold only at 1. rewrite Ascii.eqb_refl.
  rewrite run_seq, run_star, star_stop by reflexivity.
  rewrite run_seq, run_lit.
  rewrite run_seq, run_star, E.
  apply star_take; [assumption | assumption |].
  rewrite run_seq, Hopt, run_seq, run_group, run_star.
  apply star_any_all. rewrite run_seq. cbn [run accept].
  match goal with
  | |- context [substring 0 (?x + ?n - ?x) _] =>
      replace (x + n - x) with n by lia
  end.
  rewrite substring_all. reflexivity.
Qed.

Lemma closing_fail (a2 b : string) (pos : nat) (caps : Caps) :
  Shape.keyLines a2 = true -> truthy a2 = true ->
  run closing accept pos (a2 ++ b) caps = None.
Proof.
  destruct a2 as [|c a2]; [discriminate|]. intros H _.
  cbn [Shape.keyLines] in H. apply andb_true_iff in H as [H _].
  unfold closing, seq. cbn [fold_right]. simpl append.
  rewrite run_seq, run_chr. unfold only at 1.
  destruct (Ascii.eqb c LF) eqn:Hc; [|reflexivity].
  destruct a2 as [|d a2]; [discriminate|].
  apply andb_true_iff in H as [Hd1 Hd2].
  apply negb_true_iff in Hd1. apply negb_true_iff in Hd2.
  simpl append. rewrite run_seq, run_star, star_stop
    by (simpl; now rewrite Hd1).
  rewrite run_seq. cbn [lit]. rewrite run_seq, run_chr.
  unfold only at 1. now rewrite Hd2.
Qed.

Lemma frontmatter_block (fm rest : string) :
  Shape.startsPlain fm = true -> Shape.keyLines fm = true ->
  frontmatterMatch ("---" ++ nl ++ fm ++ nl ++ "---" ++ rest)
  = Some (fm, trimStart rest).
Proof.
  intros Hstart Hlines. unfold frontmatterMatch, frontmatterRe.
  unfold seq. cbn [fold_right]. rewrite exec_anchored.
  change (Seq (Chr (only LF))
            (Seq (Star isSpace)
               (Seq (lit "---")
                  (Seq (Star isSpace)
                     (Seq (Opt (Chr (only LF)))
                        (Seq (Group 2 (Star any)) (Seq Eos Eps)))))))
    with closing.
  set (b := nl ++ "---" ++ rest).
  destruct (closing_ok rest (4 + String.length fm) [(1, fm)]) as (e & He).
  fold b in He.
  assert (Hgroup : run (Group 1 (LazyStar any)) (run closing accept) 4 (fm ++ b) []
                   = Some (e, [(2, trimStart rest); (1, fm)])).
  { rewrite run_group. cbn [run]. apply lazyStar_ok; [apply allChars_any | |].
    - intros a1 a2 E Ht. apply closing_fail; [|assumption].
      apply (keyLines_app a1). now rewrite <- E.
    - replace (4 + String.length fm - 4) with (String.length fm) by lia.
      rewrite substring_prefix. exact He. }
  rewrite run_seq, run_star, star_stop by reflexivity.
  rewrite run_seq, (run_lit "---").
  change (nl ++ fm ++ b) with (String LF (fm ++ b)).
  rewrite run_seq, run_star.
  assert (Hback : star isSpace
                    (run (Seq (Chr (only LF))
                            (Seq (Group 1 (LazyStar any)) closing)) accept)
                    (0 + String.length "---") (String LF (fm ++ b)) []
                  = Some (e, [(2, trimStart rest); (1, fm)])).
  { cbn [star]. replace (isSpace LF) with true by reflexivity.
    destruct fm as [|c fm']; [discriminate|].
    simpl in Hstart. apply negb_true_iff in Hstart.
    rewrite star_stop by (simpl; now rewrite Hstart).
    simpl append at 1. rewrite run_seq, run_chr. unfold only at 1.
    rewrite (plain_not_LF c Hstart).
    rewrite run_seq, run_chr. unfold only at 1. rewrite Ascii.eqb_refl.
    exact Hgroup. }
  rewrite Hback. reflexivity.
Qed.

End ReadmeFacts.

Module FieldFacts.
Import JS GitLog RegExp Readme JSFacts RegexFacts.

(** *** A line of the frontmatter *)

Lemma spaces_eos_fail (s : string) (caps : Caps) :
  forall pos,
    allChars isSpace s = false ->
    star isSpace (run (Seq Eos Eps) accept) pos s caps = None.
Proof.
  induction s as [|c s IH]; intros pos H; [discriminate|].
  simpl in H. cbn [star]. destruct (isSpace c); [|reflexivity].
  simpl in H. now rewrite (IH (S pos) H).
Qed.

Lemma spaces_eos_ok (s : string) (caps : Caps) (pos : nat) :
  allChars isSpace s = true ->
  star isSpace (run (Seq Eos Eps) accept) pos s caps
  = Some (pos + String.length s, caps).
Proof.
  intros H. rewrite <- (append_nil_r s) at 1.
  apply star_take; [assumption | reflexivity | reflexivity].
Qed.

Lemma endsPlain_app (a1 a2 : string) :
  Shape.endsPlain (a1 ++ a2) = true -> truthy a2 = true ->
  Shape.endsPlain a2 = true.
Proof.
  intros H Ht. induction a1 as [|c a1 IH]; [exact H|].
  apply IH. simpl in H. destruct (a1 ++ a2) eqn:E; [|exact H].
  destruct a1; simpl in E; [subst a2|]; discriminate.
Qed.

Lemma endsPlain_not_spaces (a b : string) :
  Shape.endsPlain a = true -> allChars isSpace (a ++ b) = false.
Proof.
  induction a as [|c a IH]; [discriminate|]. simpl.
  destruct a as [|d a].
  - intros H. apply negb_true_iff in H. now rewrite H.
  - intros H. rewrite (IH H). apply andb_false_r.
Qed.

Lemma matchLine_field (key sp value sp' : string) :
  Shape.isKey key = true -> Shape.isValue value = true ->
  allChars isSpace sp = true -> allChars isSpace sp' = true ->
  matchLine (key ++ ":" ++ sp ++ value ++ sp') = Some (key, value).
Proof.
  unfold Shape.isKey, Shape.isValue. intros Hkey Hvalue Hsp Hsp'.
  apply andb_true_iff in Hkey as [Hk0 Hkey].
  apply andb_true_iff in Hvalue as [Hv Hdot].
  apply andb_true_iff in Hv as [Hstart Hend].
  destruct key as [|c key']; [discriminate|].
  destruct value as [|v value']; [discriminate|].
  simpl in Hkey. apply andb_true_iff in Hkey as [Hc Hkey'].
  simpl in Hdot. apply andb_true_iff in Hdot as [Hv Hdot'].
  unfold matchLine, fieldRe, seq. cbn [fold_right]. rewrite exec_anchored.
  set (line := String c key' ++ ":" ++ sp ++ String v value' ++ sp').
  assert (Hrun : run (Seq (Group 1 (Seq (Chr isWord) (Star isWord)))
                       (Seq (Chr (only ":"%char))
                          (Seq (Star isSpace)
                             (Seq (Group 2 (Seq (Chr dot) (LazyStar dot)))
                                (Seq (Star isSpace) (Seq Eos Eps))))))
                     accept 0 line []
                 = Some (String.length line,
                         [(2, String v value'); (1, String c key')])).
  { unfold line. set (tl1 := ":" ++ sp ++ String v value' ++ sp').
    change (String c key' ++ tl1) with (String c (key' ++ tl1)).
    rewrite run_seq, run_group, run_seq, run_chr, Hc, run_star.
    apply star_take; [assumption | reflexivity |].
    replace (1 + String.length key' - 0) with (String.length (String c key'))
      by (cbn [String.length]; lia).
    change (String c (key' ++ tl1)) with (String c key' ++ tl1).
    rewrite substring_prefix. unfold tl1.
    set (tl2 := String v value' ++ sp').
    change (":" ++ sp ++ tl2) with (String ":"%char (sp ++ tl2)).
    rewrite run_seq, run_chr. unfold only at 1.
    rewrite Ascii.eqb_refl. rewrite run_seq, run_star.
    apply star_take; [assumption | exact Hstart |].
    unfold tl2. change (String v value' ++ sp') with (String v (value' ++ sp')).
    rewrite run_seq, run_group, run_seq, run_chr, Hv. cbn [run].
    apply lazyStar_ok; [assumption | |].
    - intros a1 a2 E Ht. rewrite spaces_eos_fail; [reflexivity|].
      apply endsPlain_not_spaces.
      apply (endsPlain_app (String v a1)); [|assumption].
      simpl append. now rewrite <- E.
    - rewrite spaces_eos_ok by assumption.
      match goal with
      | |- context [substring 0 (?x - ?y) _] =>
          replace (x - y) with (String.length (String v value'))
            by (cbn [String.length]; lia)
      end.
      change (String v (value' ++ sp')) with (String v value' ++ sp').
      rewrite substring_prefix. f_equal. f_equal.
      repeat (rewrite length_append || cbn [String.length append]). lia. }
  rewrite Hrun. reflexivity.
Qed.

(** A text that does not start with a word character and a text with
    no colon are no field lines. *)
Lemma matchLine_none (line : string) :
  Shape.stops isWord line = true -> matchLine line = None.
Proof.
  intros H. unfold matchLine, fieldRe, seq. cbn [fold_right].
  rewrite exec_anchored, run_seq, run_group, run_seq.
  destruct line as [|c line]; [reflexivity|].
  simpl in H. apply negb_true_iff in H. now rewrite run_chr, H.
Qed.

Lemma assign_title (cfg : SyncData.ProjectConfig) (key v : string) :
  SyncData.cfg_title (assign cfg key v)
  = if String.eqb key "title" then Some v else SyncData.cfg_title cfg.
Proof.
  unfold assign.
  destruct (String.eqb key "title"), (String.eqb key "description"),
    (String.eqb key "docNumber"); reflexivity.
Qed.

Lemma assign_description (cfg : SyncData.ProjectConfig) (key v : string) :
  SyncData.cfg_description (assign cfg key v)
  = if String.eqb key "description" then Some v
    else SyncData.cfg_description cfg.
Proof.
  unfold assign.
  destruct (String.eqb key "title"), (String.eqb key "description"),
    (String.eqb key "docNumber"); reflexivity.
Qed.

Lemma assign_docNumber (cfg : SyncData.ProjectConfig) (key v : string) :
  SyncData.cfg_docNumber (assign cfg key v)
  = if String.eqb key "docNumber" then Some v else SyncData.cfg_docNumber cfg.
Proof.
  unfold assign.
  destruct (String.eqb key "title"), (String.eqb key "description"),
    (String.eqb key "docNumber"); reflexivity.
Qed.

Lemma parseLine_field (cfg : SyncData.ProjectConfig) (field : string * string) :
  Shape.wfField field = true ->
  parseLine cfg (Shape.fieldLine field)
  = assign cfg (fst field) (Shape.dropQuoteEnd (Shape.dropQuoteStart (snd field))).
Proof.
  unfold Shape.wfField. intros H. apply andb_true_iff in H as [Hk Hv].
  unfold parseLine, Shape.fieldLine.
  pose proof (matchLine_field (fst field) " " (snd field) EmptyString
                Hk Hv eq_refl eq_refl) as H.
  rewrite append_nil_r in H.
  change (fst field ++ ": " ++ snd field)
    with (fst field ++ ":" ++ " " ++ snd field).
  rewrite H. now rewrite ReadmeFacts.cleanValue_spec.
Qed.


Lemma field_one_line (field : string * string) :
  Shape.wfField field = true ->
  allChars (fun x => negb (Ascii.eqb x LF)) (Shape.fieldLine field) = true.
Proof.
  unfold Shape.wfField, Shape.isKey, Shape.isValue, Shape.fieldLine.
  intros H. apply andb_true_iff in H as [Hk Hv].
  apply andb_true_iff in Hk as [_ Hk]. apply andb_true_iff in Hv as [_ Hv].
  rewrite !allChars_app. apply andb_true_iff. split; [|apply andb_true_iff; split].
  - revert Hk. apply allChars_weaken. intros c Hc.
    destruct (Ascii.eqb c LF) eqn:E; [|reflexivity].
    apply Ascii.eqb_eq in E. now subst c.
  - reflexivity.
  - revert Hv. apply allChars_weaken. intros c Hc.
    unfold dot, isLineTerminator in Hc. apply negb_true_iff in Hc.
    apply orb_false_iff in Hc as [Hc _]. now rewrite Hc.
Qed.

Lemma word_key_start (c : ascii) :
  isWord c = true -> isSpace c = false /\ Ascii.eqb c "-" = false.
Proof.
  destruct c as [[] [] [] [] [] [] [] []]; vm_compute; intros H;
    try discriminate; now split.
Qed.

(** The first character of a field line. *)
Lemma fieldLine_head (field : string * string) :
  Shape.wfField field = true ->
  exists c t, Shape.fieldLine field = String c t
              /\ isSpace c = false /\ Ascii.eqb c "-" = false.
Proof.
  unfold Shape.wfField, Shape.isKey, Shape.fieldLine.
  intros H. apply andb_true_iff in H as [Hk _].
  apply andb_true_iff in Hk as [Hne Hk].
  destruct (fst field) as [|c key']; [discriminate|].
  simpl in Hk. apply andb_true_iff in Hk as [Hc _].
  exists c. eexists. split; [reflexivity|]. now apply word_key_start.
Qed.

Lemma keyLines_one_line (a : string) :
  allChars (fun x => negb (Ascii.eqb x LF)) a = true -> Shape.keyLines a = true.
Proof.
  induction a as [|c a IH]; [reflexivity|]. simpl. intros H.
  apply andb_true_iff in H as [Hc Ha]. apply negb_true_iff in Hc.
  rewrite Hc. now apply IH.
Qed.

Lemma keyLines_line (a : string) (c : ascii) (t : string) :
  allChars (fun x => negb (Ascii.eqb x LF)) a = true ->
  isSpace c = false -> Ascii.eqb c "-" = false ->
  Shape.keyLines (String c t) = true ->
  Shape.keyLines (a ++ nl ++ String c t) = true.
Proof.
  intros Ha Hc1 Hc2 Ht. induction a as [|d a IH].
  - change (Shape.keyLines (String LF (String c t)) = true).
    cbn [Shape.keyLines] in *. rewrite Ascii.eqb_refl, Hc1, Hc2. exact Ht.
  - simpl in Ha. apply andb_true_iff in Ha as [Hd Ha].
    apply negb_true_iff in Hd. simpl append. cbn [Shape.keyLines].
    rewrite Hd. now apply IH.
Qed.

(** The block of the lines of some fields. *)
Lemma fields_block (f : string * string) (fs : list (string * string)) :
  Forall (fun x => Shape.wfField x = true) (f :: fs) ->
  Shape.startsPlain (join nl (map Shape.fieldLine (f :: fs))) = true
  /\ Shape.keyLines (join nl (map Shape.fieldLine (f :: fs))) = true.
Proof.
  revert f. induction fs as [|g fs IH]; intros f H;
    inversion_clear H as [|? ? Hf Hfs].
  - destruct (fieldLine_head f Hf) as (c & t & E & Hc1 & Hc2).
    split.
    + simpl. rewrite E. simpl. now rewrite Hc1.
    + simpl. apply keyLines_one_line. now apply field_one_line.
  - destruct (fieldLine_head f Hf) as (c & t & E & Hc1 & Hc2).
    destruct (IH g Hfs) as (_ & Hk).
    inversion Hfs as [|? ? Hg _]. subst.
    destruct (fieldLine_head g Hg) as (d & u & Eg & Hd1 & Hd2).
    change (join nl (map Shape.fieldLine (f :: g :: fs)))
      with (Shape.fieldLine f ++ nl
            ++ join nl (map Shape.fieldLine (g :: fs))).
    split.
    + rewrite E. simpl. now rewrite Hc1.
    + assert (Hhead : exists u', join nl (map Shape.fieldLine (g :: fs))
                                 = String d u').
      { simpl. rewrite Eg. destruct (map Shape.fieldLine fs); simpl; eauto. }
      destruct Hhead as (u' & Eu). rewrite Eu in *.
      apply keyLines_line; trivial. now apply field_one_line.
Qed.

Lemma fold_fields (fs : list (string * string)) :
  Forall (fun x => Shape.wfField x = true) fs ->
  forall cfg,
    fold_left parseLine (map Shape.fieldLine fs) cfg
    = fold_left (fun cfg field =>
                   assign cfg (fst field)
                     (Shape.dropQuoteEnd (Shape.dropQuoteStart (snd field))))
                fs cfg.
Proof.
  induction 1 as [|f fs Hf _ IH]; intros cfg; [reflexivity|].
  simpl. now rewrite parseLine_field, IH.
Qed.

Lemma fold_lastValue (key : string) (fs : list (string * string)) :
  forall found,
    fold_left (fun found field =>
                 if String.eqb (fst field) key
                 then Some (Shape.dropQuoteEnd (Shape.dropQuoteStart (snd field)))
                 else found) fs found
    = match Shape.lastValue key fs with
      | Some v => Some v
      | None => found
      end.
Proof.
  unfold Shape.lastValue.
  induction fs as [|f fs IH]; intros found; [reflexivity|].
  simpl. rewrite IH, (IH (if String.eqb (fst f) key then _ else None)).
  destruct (fold_left _ fs None); [reflexivity|].
  now destruct (String.eqb (fst f) key).
Qed.

Lemma fold_assign (fs : list (string * string)) :
  forall cfg,
    let cfg' := fold_left (fun cfg field =>
                   assign cfg (fst field)
                     (Shape.dropQuoteEnd (Shape.dropQuoteStart (snd field))))
                fs cfg in
    SyncData.cfg_title cfg'
    = fold_left (fun found field =>
                   if String.eqb (fst field) "title"
                   then Some (Shape.dropQuoteEnd (Shape.dropQuoteStart (snd field)))
                   else found) fs (SyncData.cfg_title cfg)
    /\ SyncData.cfg_description cfg'
       = fold_left (fun found field =>
                      if String.eqb (fst field) "description"
                      then Some (Shape.dropQuoteEnd (Shape.dropQuoteStart (snd field)))
                      else found) fs (SyncData.cfg_description cfg)
    /\ SyncData.cfg_docNumber cfg'
       = fold_left (fun found field =>
                      if String.eqb (fst field) "docNumber"
                      then Some (Shape.dropQuoteEnd (Shape.dropQuoteStart (snd field)))
                      else found) fs (SyncData.cfg_docNumber cfg).
Proof.
  induction fs as [|f fs IH]; intros cfg; [now repeat split|].
  simpl. destruct (IH (assign cfg (fst f)
                         (Shape.dropQuoteEnd (Shape.dropQuoteStart (snd f)))))
    as (A & B & C).
  rewrite A, B, C, assign_title, assign_description, assign_docNumber.
  now repeat split.
Qed.

(** The configuration read from the lines of some fields. *)
Lemma parseFields_fields (f : string * string) (fs : list (string * string)) :
  Forall (fun x => Shape.wfField x = true) (f :: fs) ->
  parseFields (join nl (map Shape.fieldLine (f :: fs)))
  = SyncData.mkConfig (Shape.lastValue "title" (f :: fs))
                      (Shape.lastValue "description" (f :: fs))
                      (Shape.lastValue "docNumber" (f :: fs)).
Proof.
  intros H. unfold parseFields.
  change (map Shape.fieldLine (f :: fs))
    with (Shape.fieldLine f :: map Shape.fieldLine fs).
  rewrite MetaFacts.split_join.
  - change (Shape.fieldLine f :: map Shape.fieldLine fs)
      with (map Shape.fieldLine (f :: fs)).
    rewrite (fold_fields _ H).
    destruct (fold_assign (f :: fs) SyncData.emptyConfig) as (A & B & C).
    cbv zeta in A, B, C.
    destruct (fold_left _ (f :: fs) SyncData.emptyConfig) as [t d n].
    cbn [SyncData.cfg_title SyncData.cfg_description SyncData.cfg_docNumber] in A, B, C.
    change (SyncData.cfg_title SyncData.emptyConfig) with (@None string) in A.
    change (SyncData.cfg_description SyncData.emptyConfig) with (@None string) in B.
    change (SyncData.cfg_docNumber SyncData.emptyConfig) with (@None string) in C.
    rewrite A, B, C, !fold_lastValue.
    f_equal; match goal with |- match ?x with _ => _ end = _ => now destruct x end.
  - change (Shape.fieldLine f :: map Shape.fieldLine fs)
      with (map Shape.fieldLine (f :: fs)).
    apply Forall_map. revert H. apply Forall_impl. intros x Hx.
    now apply field_one_line.
Qed.

End FieldFacts.

Module HeadingFacts.
Import JS GitLog RegExp Readme JSFacts RegexFacts.

(** *** The first heading of the README *)

Lemma chr_fail (P : string -> Prop) (p : ascii -> bool) (k : K) (caps : Caps) :
  (forall c s, P (String c s) -> P s) ->
  (forall pos s, P s -> k pos s caps = None) ->
  forall pos s, P s -> run (Chr p) k pos s caps = None.
Proof.
  intros Htail Hk pos [|c s] Hs; [reflexivity|].
  rewrite run_chr. destruct (p c); [|reflexivity].
  apply Hk. now apply (Htail c).
Qed.

Lemma dropFirstH1_none (body : string) :
  run (Seq (Chr (only "#"%char))
         (Seq (Chr isSpace)
            (Seq (Star isSpace)
               (Seq (Chr dot)
                  (Seq (Star dot)
                     (Seq (Chr (only LF)) (Seq (Star (only LF)) Eps)))))))
      accept 0 body [] = None ->
  dropFirstH1 body = body.
Proof.
  intros H. unfold dropFirstH1, removeFirst, h1Re, seq. cbn [fold_right].
  now rewrite exec_anchored, H.
Qed.

Lemma dropFirstH1_no_hash (body : string) :
  Shape.stops (only "#"%char) body = true -> dropFirstH1 body = body.
Proof.
  intros H. apply dropFirstH1_none. rewrite run_seq.
  destruct body as [|c body]; [reflexivity|].
  simpl in H. apply negb_true_iff in H. now rewrite run_chr, H.
Qed.

Lemma dropFirstH1_no_LF (body : string) :
  allChars (fun x => negb (Ascii.eqb x LF)) body = true ->
  dropFirstH1 body = body.
Proof.
  intros H. apply dropFirstH1_none.
  set (P := fun s => allChars (fun x => negb (Ascii.eqb x LF)) s = true).
  assert (Htail : forall c s, P (String c s) -> P s).
  { unfold P. simpl. intros c s Hs. now apply andb_true_iff in Hs as [_ Hs]. }
  assert (HLF : forall k pos s, P s -> run (Chr (only LF)) k pos s [] = None).
  { intros k pos [|c s] Hs; [reflexivity|]. rewrite run_chr.
    unfold P in Hs. simpl in Hs. apply andb_true_iff in Hs as [Hc _].
    apply negb_true_iff in Hc. unfold only. now rewrite Hc. }
  rewrite run_seq. apply (chr_fail P); trivial. intros pos1 s1 H1.
  rewrite run_seq. apply (chr_fail P); trivial. intros pos2 s2 H2.
  rewrite run_seq, run_star. apply (star_fail P); trivial. intros pos3 s3 H3.
  rewrite run_seq. apply (chr_fail P); trivial. intros pos4 s4 H4.
  rewrite run_seq, run_star. apply (star_fail P); trivial. intros pos5 s5 H5.
  rewrite run_seq. now apply HLF.
Qed.

Lemma substring_none (s : string) : substring 0 0 s = EmptyString.
Proof. now destruct s. Qed.

Lemma dropFirstH1_heading (sp t lfs rest : string) :
  truthy sp = true -> allChars isSpace sp = true ->
  Shape.startsPlain t = true -> allChars dot t = true ->
  truthy lfs = true -> allChars (only LF) lfs = true ->
  Shape.stops (only LF) rest = true ->
  dropFirstH1 ("#" ++ sp ++ t ++ lfs ++ rest) = rest.
Proof.
  intros Hsp0 Hsp Ht0 Ht Hl0 Hl Hrest.
  destruct sp as [|s0 sp']; [discriminate|].
  destruct t as [|t0 t']; [discriminate|].
  destruct lfs as [|l0 lfs']; [discriminate|].
  simpl in Hsp, Ht, Hl.
  apply andb_true_iff in Hsp as [Hs0 Hsp'].
  apply andb_true_iff in Ht as [Hd0 Ht'].
  apply andb_true_iff in Hl as [Hl0' Hl'].
  set (head := "#" ++ String s0 sp' ++ String t0 t' ++ String l0 lfs').
  assert (Hbody : "#" ++ String s0 sp' ++ String t0 t' ++ String l0 lfs' ++ rest
                  = head ++ rest).
  { unfold head. now rewrite !append_assoc. }
  assert (Hrun : run (Seq (Chr (only "#"%char))
                        (Seq (Chr isSpace)
                           (Seq (Star isSpace)
                              (Seq (Chr dot)
                                 (Seq (Star dot)
                                    (Seq (Chr (only LF))
                                       (Seq (Star (only LF)) Eps)))))))
                     accept 0
                     ("#" ++ String s0 sp' ++ String t0 t' ++ String l0 lfs' ++ rest) []
                 = Some (String.length head, [])).
  { change ("#" ++ String s0 sp' ++ String t0 t' ++ String l0 lfs' ++ rest)
      with (String "#"%char
              (String s0 (sp' ++ String t0 t' ++ String l0 lfs' ++ rest))).
    rewrite run_seq, run_chr. unfold only at 1. rewrite Ascii.eqb_refl.
    rewrite run_seq, run_chr, Hs0, run_seq, run_star.
    apply star_take; [assumption | exact Ht0 |].
    change (String t0 t' ++ String l0 lfs' ++ rest)
      with (String t0 (t' ++ String l0 lfs' ++ rest)).
    rewrite run_seq, run_chr, Hd0, run_seq, run_star.
    apply star_take; [assumption | |].
    { simpl. unfold only in Hl0'. apply Ascii.eqb_eq in Hl0'. now subst l0. }
    change (String l0 lfs' ++ rest) with (String l0 (lfs' ++ rest)).
    rewrite run_seq, run_chr, Hl0', run_seq, run_star.
    apply star_take; [assumption | assumption |].
    cbn [run]. unfold accept. f_equal. f_equal. unfold head.
    repeat (rewrite length_append || cbn [String.length append]). lia. }
  unfold dropFirstH1, removeFirst, h1Re, seq. cbn [fold_right].
  rewrite exec_anchored, Hrun, Hbody, substring_none.
  replace (String.length (head ++ rest) - String.length head)
    with (String.length rest) by (rewrite length_append; lia).
  now rewrite substring_suffix.
Qed.

End HeadingFacts.

Lemma trimStart_idem (s : string) : JS.trimStart (JS.trimStart s) = JS.trimStart s.
Proof.
  induction s as [|c s IH]; [reflexivity|]. simpl.
  destruct (JS.isSpace c) eqn:Hc; [exact IH|]. simpl. now rewrite Hc.
Qed.

Lemma readme_written (e : SyncData.Env) (raw : string) :
  SyncData.readme e = Some raw ->
  In (SyncData.WriteFileSync (SyncData.Join SyncData.DOCS_DIR "readme.md")
        (snd (Readme.readReadme raw)))
     (Readme.effects e).
Proof.
  intros H. unfold Readme.effects, SyncData.effects.
  rewrite SyncFacts.main_unfold.
  assert (Hs : In (SyncData.WriteFileSync
                     (SyncData.Join SyncData.DOCS_DIR "readme.md")
                     (snd (Readme.readReadme raw)))
                  (SyncData.setup Readme.frontmatterMatch Readme.parseFields
                     Readme.dropFirstH1 e)).
  { unfold SyncData.setup. rewrite H. rewrite !in_app_iff.
    right. right. right. now left. }
  destruct (logShort (SyncData.git e)); simpl; [|exact Hs].
  apply in_or_app. now left.
Qed.

Lemma readme_manifest (e : SyncData.Env) (raw : string) (d : SyncData.ProjectData) :
  SyncData.readme e = Some raw ->
  Readme.manifest e = Some d ->
  let cfg := fst (Readme.readReadme raw) in
  SyncData.pd_title d
  = SyncData.orDefault (SyncData.cfg_title cfg)
      (SyncData.defaultTitle (SyncData.repoName e))
  /\ SyncData.pd_description d
     = SyncData.orDefault (SyncData.cfg_description cfg) EmptyString
  /\ SyncData.pd_docNumber d
     = SyncData.orDefault (SyncData.cfg_docNumber cfg)
         (SyncData.defaultDocNumber (SyncData.repoName e) (SyncData.startDate e)).
Proof.
  intros H Hd. apply manifest_data in Hd as (entries & ->).
  unfold SyncData.config. rewrite H. now repeat split.
Qed.

Lemma readReadme_fields (f : string * string) (fs : list (string * string))
  (rest : string) :
  Forall (fun x => Shape.wfField x = true) (f :: fs) ->
  let block := JS.join GitLog.nl (map Shape.fieldLine (f :: fs)) in
  let raw := "---" ++ GitLog.nl ++ block ++ GitLog.nl ++ "---" ++ rest in
  Readme.frontmatterMatch raw = Some (block, JS.trimStart rest)
  /\ Readme.readReadme raw
     = (SyncData.mkConfig (Shape.lastValue "title" (f :: fs))
                          (Shape.lastValue "description" (f :: fs))
                          (Shape.lastValue "docNumber" (f :: fs)),
        Readme.dropFirstH1 (JS.trim rest)).
Proof.
  intros H block raw.
  destruct (FieldFacts.fields_block f fs H) as (Hstart & Hlines).
  assert (Hm : Readme.frontmatterMatch raw = Some (block, JS.trimStart rest))
    by (apply ReadmeFacts.frontmatter_block; assumption).
  split; [exact Hm|].
  unfold Readme.readReadme, SyncData.readReadme. rewrite Hm.
  unfold block. rewrite (FieldFacts.parseFields_fields f fs H).
  unfold JS.trim. now rewrite trimStart_idem.
Qed.

(** X18 (README without frontmatter).  When the text of README.md,
    leading white space apart, does not start with three dashes, the
    frontmatter pattern does not match: the file [readme.md] is written
    with the text as it is, not trimmed, less the first heading when
    the pattern of the heading matches, and a manifest that is written
    has the default title, an empty description and the default
    document number. *)
Theorem X18_readme_without_frontmatter :
  forall (e : SyncData.Env) (raw : string),
    SyncData.readme e = Some raw ->
    String.prefix "---" (JS.trimStart raw) = false ->
    Readme.frontmatterMatch raw = None
    /\ In (SyncData.WriteFileSync (SyncData.Join SyncData.DOCS_DIR "readme.md")
             (Readme.dropFirstH1 raw))
          (Readme.effects e)
    /\ forall d,
         Readme.manifest e = Some d ->
         SyncData.pd_title d = SyncData.defaultTitle (SyncData.repoName e)
         /\ SyncData.pd_description d = EmptyString
         /\ SyncData.pd_docNumber d
            = SyncData.defaultDocNumber (SyncData.repoName e) (SyncData.startDate e).
Proof.
  intros e raw Hraw Hno.
  pose proof (ReadmeFacts.frontmatter_absent raw Hno) as Habs.
  assert (Hread : Readme.readReadme raw
                  = (SyncData.emptyConfig, Readme.dropFirstH1 raw)).
  { unfold Readme.readReadme, SyncData.readReadme. now rewrite Habs. }
  split; [exact Habs|]. split.
  - pose proof (readme_written e raw Hraw) as H. now rewrite Hread in H.
  - intros d Hd. pose proof (readme_manifest e raw d Hraw Hd) as H.
    rewrite Hread in H. exact H.
Qed.

(** The README of the location without commits. *)
Lemma X18_witness :
  (SyncData.readme Example.emptyEnv = Some "Work in progress"
   /\ String.prefix "---" (JS.trimStart "Work in progress") = false)
  /\ In (SyncData.WriteFileSync (SyncData.Join SyncData.DOCS_DIR "readme.md")
           "Work in progress")
        (Readme.effects Example.emptyEnv).
Proof.
  split; [split; reflexivity|].
  exact (proj1 (proj2 (X18_readme_without_frontmatter Example.emptyEnv
                         "Work in progress" eq_refl eq_refl))).
Defined.

(** X19 (frontmatter round trip).  For a README that starts with a
    line of three dashes, then one line [key: value] for each of some
    fields, then a line that starts with three dashes, the pattern
    finds exactly these lines as the block; the configuration has, for
    each of title, description and docNumber, the value of the last
    line with that key, one quote character taken off each end, and no
    value when no line has the key; lines with other keys change
    nothing; and the body is what follows the closing dashes, trimmed,
    less its first heading. *)
Theorem X19_frontmatter_round_trip :
  forall (f : string * string) (fs : list (string * string)) (rest : string),
    Forall (fun x => Shape.wfField x = true) (f :: fs) ->
    let block := JS.join GitLog.nl (map Shape.fieldLine (f :: fs)) in
    let raw := "---" ++ GitLog.nl ++ block ++ GitLog.nl ++ "---" ++ rest in
    Readme.frontmatterMatch raw = Some (block, JS.trimStart rest)
    /\ Readme.readReadme raw
       = (SyncData.mkConfig (Shape.lastValue "title" (f :: fs))
                            (Shape.lastValue "description" (f :: fs))
                            (Shape.lastValue "docNumber" (f :: fs)),
          Readme.dropFirstH1 (JS.trim rest)).
Proof.
  intros f fs rest H. exact (readReadme_fields f fs rest H).
Qed.

(** The README of the sample. *)
Lemma X19_witness :
  Forall (fun x => Shape.wfField x = true) ReadmeExample.fields
  /\ Readme.readReadme ReadmeExample.readmeText
     = (SyncData.mkConfig (Some "Weekend Agent") None (Some "WA-7"),
        "An agent, step by step.").
Proof.
  assert (H : Forall (fun x => Shape.wfField x = true) ReadmeExample.fields)
    by (repeat constructor).
  split; [exact H|].
  exact (proj2 (X19_frontmatter_round_trip _ _
                  (GitLog.nl ++ GitLog.nl ++ "# Weekend Agent" ++ GitLog.nl
                   ++ GitLog.nl ++ "An agent, step by step." ++ GitLog.nl) H)).
Defined.

(** X20 (quotes around a value).  The replacement takes at most one
    quote character, double or single, off the front of a value and at
    most one off its end, whether or not the two are the same
    character, and nothing else: a value between two quote characters
    gives what is between them, quote characters inside it included,
    and a value that is one quote character gives the empty text. *)
Theorem X20_clean_value :
  (forall value,
     Readme.cleanValue value
     = Shape.dropQuoteEnd (Shape.dropQuoteStart value))
  /\ (forall q1 q2 inner,
        RegExp.quote q1 = true -> RegExp.quote q2 = true ->
        Readme.cleanValue (String q1 (inner ++ String q2 EmptyString)) = inner)
  /\ (forall q, RegExp.quote q = true ->
                Readme.cleanValue (String q EmptyString) = EmptyString)
  /\ (forall value,
        Shape.stops RegExp.quote value = true ->
        Shape.dropQuoteEnd value = value ->
        Readme.cleanValue value = value).
Proof.
  split; [exact ReadmeFacts.cleanValue_spec|]. split; [|split].
  - intros q1 q2 inner H1 H2. rewrite ReadmeFacts.cleanValue_spec.
    simpl. rewrite H1. now apply ReadmeFacts.dropQuoteEnd_app.
  - intros q H. rewrite ReadmeFacts.cleanValue_spec. simpl. now rewrite H.
  - intros value H1 H2. rewrite ReadmeFacts.cleanValue_spec.
    destruct value as [|c v]; [reflexivity|].
    simpl in H1. apply negb_true_iff in H1. simpl Shape.dropQuoteStart.
    now rewrite H1.
Qed.

(** X21 (the first heading of the README).  The heading is removed
    when the body starts with a hash sign, white space, a heading text
    on one line and at least one line feed; the line feeds after it go
    with it.  A body that does not start with a hash sign, such as one
    with a blank line in front of its heading, is left as it is, and so
    is a body with no line feed in it, such as one that is a heading
    alone. *)
Theorem X21_first_heading :
  (forall sp t lfs rest,
     JS.truthy sp = true -> GitLog.allChars JS.isSpace sp = true ->
     Shape.startsPlain t = true -> GitLog.allChars RegExp.dot t = true ->
     JS.truthy lfs = true -> GitLog.allChars (RegExp.only JS.LF) lfs = true ->
     Shape.stops (RegExp.only JS.LF) rest = true ->
     Readme.dropFirstH1 ("#" ++ sp ++ t ++ lfs ++ rest) = rest)
  /\ (forall body,
        Shape.stops (RegExp.only "#"%char) body = true ->
        Readme.dropFirstH1 body = body)
  /\ (forall body,
        GitLog.allChars (fun x => negb (Ascii.eqb x JS.LF)) body = true ->
        Readme.dropFirstH1 body = body).
Proof.
  split; [exact HeadingFacts.dropFirstH1_heading|]. split.
  - exact HeadingFacts.dropFirstH1_no_hash.
  - exact HeadingFacts.dropFirstH1_no_LF.
Qed.

(** X22 (the manifest of a README with frontmatter).  With a README
    that starts with a line of three dashes, one line [key: value] for
    each of some fields and a line that starts with three dashes, a
    manifest that is written has as title, description and document
    number the value read for that key when there is one and it is not
    empty, and the default otherwise: a title given as two quote
    characters leaves the default title in place. *)
Theorem X22_manifest_from_frontmatter :
  forall (e : SyncData.Env) (f : string * string) (fs : list (string * string))
         (rest : string) (d : SyncData.ProjectData),
    SyncData.readme e
    = Some ("---" ++ GitLog.nl ++ JS.join GitLog.nl (map Shape.fieldLine (f :: fs))
            ++ GitLog.nl ++ "---" ++ rest) ->
    Forall (fun x => Shape.wfField x = true) (f :: fs) ->
    Readme.manifest e = Some d ->
    SyncData.pd_title d
    = SyncData.orDefault (Shape.lastValue "title" (f :: fs))
        (SyncData.defaultTitle (SyncData.repoName e))
    /\ SyncData.pd_description d
       = SyncData.orDefault (Shape.lastValue "description" (f :: fs)) EmptyString
    /\ SyncData.pd_docNumber d
       = SyncData.orDefault (Shape.lastValue "docNumber" (f :: fs))
           (SyncData.defaultDocNumber (SyncData.repoName e) (SyncData.startDate e))
    /\ (Shape.lastValue "title" (f :: fs) = Some EmptyString ->
        SyncData.pd_title d = SyncData.defaultTitle (SyncData.repoName e)).
Proof.
  intros e f fs rest d Hraw Hf Hd.
  pose proof (readme_manifest e _ d Hraw Hd) as H.
  rewrite (proj2 (readReadme_fields f fs rest Hf)) in H.
  cbv zeta in H. cbn [fst SyncData.cfg_title SyncData.cfg_description
                          SyncData.cfg_docNumber] in H.
  destruct H as (A & B & C). repeat split; trivial.
  intros Ht. now rewrite A, Ht.
Qed.

(** The manifest of the sample with its README. *)
Lemma X22_witness :
  exists d,
    Readme.manifest ReadmeExample.readmeEnv = Some d
    /\ SyncData.pd_title d = "Weekend Agent"
    /\ SyncData.pd_description d = EmptyString
    /\ SyncData.pd_docNumber d = "WA-7".
Proof.
  assert (H : Forall (fun x => Shape.wfField x = true) ReadmeExample.fields)
    by (repeat constructor).
  eexists. split; [reflexivity|].
  destruct (X22_manifest_from_frontmatter ReadmeExample.readmeEnv _ _
              (GitLog.nl ++ GitLog.nl ++ "# Weekend Agent" ++ GitLog.nl
               ++ GitLog.nl ++ "An agent, step by step." ++ GitLog.nl)
              _ eq_refl H eq_refl) as (A & B & C & _).
  split; [exact A|]. split; [exact B | exact C].
Defined.

(** ** The language of a file *)

Module LangFacts.
Import JS GitLog JSFacts.

Lemma split_cons (sep c : ascii) (s : string) :
  exists p ps,
    split sep s = p :: ps
    /\ split sep (String c s)
       = if Ascii.eqb c sep then EmptyString :: p :: ps else String c p :: ps.
Proof.
  unfold split. simpl. destruct (splitParts sep s) as [p ps].
  exists p, ps. split; [reflexivity|]. now destruct (Ascii.eqb c sep).
Qed.

Lemma last_split_cons (sep c : ascii) (s : string) (d : string) :
  last (split sep (String c s)) d
  = match split sep s with
    | [p] => if Ascii.eqb c sep then p else String c p
    | _ => last (split sep s) d
    end.
Proof.
  destruct (split_cons sep c s) as (p & ps & E1 & E2). rewrite E2, E1.
  destruct (Ascii.eqb c sep); destruct ps; reflexivity.
Qed.

Lemma split_app_length (sep : ascii) (a b : string) :
  2 <= List.length (split sep (a ++ String sep b)).
Proof.
  induction a as [|x a IH]; simpl append.
  - destruct (split_cons sep sep b) as (p1 & ps1 & F1 & F2).
    rewrite F2, Ascii.eqb_refl. simpl. lia.
  - destruct (split_cons sep x (a ++ String sep b)) as (p1 & ps1 & F1 & F2).
    rewrite F2. rewrite F1 in IH.
    destruct (Ascii.eqb x sep); simpl in *; lia.
Qed.

(** The last piece is what follows the last separator. *)
Lemma last_split_app (sep : ascii) (a b : string) (d : string) :
  allChars (fun x => negb (Ascii.eqb x sep)) b = true ->
  last (split sep (a ++ String sep b)) d = b.
Proof.
  intros Hb. induction a as [|c a IH].
  - simpl append. rewrite last_split_cons, Ascii.eqb_refl. unfold split.
    now rewrite splitParts_none.
  - simpl append. rewrite last_split_cons.
    pose proof (split_app_length sep a b) as Hlen.
    destruct (split sep (a ++ String sep b)) as [|p [|q ps]];
      [simpl in Hlen; lia | simpl in Hlen; lia | exact IH].
Qed.

End LangFacts.

(** X23 (language of the selected file).  The language passed to the
    highlighter is never empty and holds no dot.  It is the text after
    the last dot of the file name; for a name without a dot it is the
    whole name, not [text]; and for a name that ends with a dot it is
    [text]. *)
Theorem X23_lang_of_file :
  (forall selectedFile,
     JS.truthy (Highlight.lang selectedFile) = true
     /\ GitLog.allChars (fun x => negb (Ascii.eqb x "."%char))
                        (Highlight.lang selectedFile) = true)
  /\ (forall stem ext,
        GitLog.allChars (fun x => negb (Ascii.eqb x "."%char)) ext = true ->
        Highlight.lang (stem ++ "." ++ ext) = JS.orElse ext "text")
  /\ (forall name,
        GitLog.allChars (fun x => negb (Ascii.eqb x "."%char)) name = true ->
        Highlight.lang name = JS.orElse name "text").
Proof.
  split; [|split].
  - intros f. unfold Highlight.lang, JS.orElse.
    destruct (MetaFacts.split_pieces "."%char f) as (p & ps & E & Hall).
    rewrite E.
    assert (Hlast : GitLog.allChars (fun x => negb (Ascii.eqb x "."%char))
                      (last (p :: ps) EmptyString) = true).
    { rewrite Forall_forall in Hall. apply Hall.
      destruct (exists_last (l := p :: ps)) as (l' & a & El); [discriminate|].
      rewrite El, last_last. apply in_or_app. right. now left. }
    destruct (JS.truthy (last (p :: ps) EmptyString)) eqn:Et.
    + now split.
    + now split.
  - intros stem ext Hext. unfold Highlight.lang.
    change (stem ++ "." ++ ext) with (stem ++ String "."%char ext).
    now rewrite LangFacts.last_split_app.
  - intros name Hname. unfold Highlight.lang, JS.split.
    now rewrite JSFacts.splitParts_none.
Qed.

(** ** The code view of a listed file *)

(** X24 (code view of a listed file).  For a path [git ls-tree] lists
    at a commit, the code view of the listing [getCommitFiles] returns
    shows a text exactly when [git show] printed bytes for the path
    with no null byte in them, their decoding succeeded, and the text
    is not empty; the text shown is that decoding.  In every other
    case (a null byte, an entry [git show] cannot print, an empty
    file) the notice for binary or empty files is shown. *)
Theorem X24_code_view_of_listing :
  forall (decode : list byte -> result string) (g : Git)
         (commit output selectedFile : string),
    lsTree g commit = Ok output ->
    In selectedFile (GitTs.nonEmptyLines output) ->
    exists files,
      GitTs.getCommitFiles decode g commit = Ok files
      /\ (forall s,
            Workspace.codeView files selectedFile = Workspace.Highlighted s
            <-> JS.truthy s = true
                /\ exists buf,
                     showBuffer g commit selectedFile = Ok buf
                     /\ GitTs.includes0 buf = false
                     /\ decode buf = Ok s)
      /\ ((forall s, Workspace.codeView files selectedFile <> Workspace.Highlighted s)
          -> Workspace.codeView files selectedFile = Workspace.BinaryOrEmpty).
Proof.
  intros decode g commit output sel Hls Hin. eexists. split.
  { rewrite GitFacts.getCommitFiles_cases, Hls. reflexivity. }
  unfold Workspace.codeView.
  rewrite (GitFacts.findFile_nodes decode g commit _ sel Hin).
  unfold Spec.nodeFor. rewrite GitFacts.getFileContent_cases.
  destruct (showBuffer g commit sel) as [buf|].
  - destruct (GitTs.includes0 buf) eqn:H0.
    + split; [|reflexivity]. intros s. split; [discriminate|].
      intros (_ & b & [= <-] & Hb & _). congruence.
    + destruct (decode buf) as [t|] eqn:Hd.
      * cbn [GitTs.textNode GitTs.isBinary GitTs.content].
        destruct (JS.truthy t) eqn:Ht.
        -- split; [|intros H; now elim (H t)]. intros s. split.
           ++ intros [= <-]. split; [assumption|]. now exists buf.
           ++ intros (_ & b & [= <-] & _ & Hb). congruence.
        -- split; [|reflexivity]. intros s. split; [discriminate|].
           intros (Hs & b & [= <-] & _ & Hb). congruence.
      * split; [|reflexivity]. intros s. split; [discriminate|].
        intros (_ & b & [= <-] & _ & Hb). congruence.
  - split; [|reflexivity]. intros s. split; [discriminate|].
    intros (_ & b & Hb & _). discriminate.
Qed.

(** [main.ts] of the sample is text. *)
Lemma X24_witness :
  (lsTree Example.sampleGit "1a2b3c4"
     = Ok ("logo.png" ++ GitLog.nl ++ "main.ts" ++ GitLog.nl ++ "vendor" ++ GitLog.nl)
   /\ In "main.ts"
         (GitTs.nonEmptyLines
            ("logo.png" ++ GitLog.nl ++ "main.ts" ++ GitLog.nl ++ "vendor" ++ GitLog.nl)))
  /\ exists files,
       GitTs.getCommitFiles Example.asciiText Example.sampleGit "1a2b3c4" = Ok files
       /\ Workspace.codeView files "main.ts" = Workspace.Highlighted "ok"
       /\ Workspace.codeView files "logo.png" = Workspace.BinaryOrEmpty.
Proof.
  assert (Hin : In "main.ts"
                   (GitTs.nonEmptyLines
                      ("logo.png" ++ GitLog.nl ++ "main.ts" ++ GitLog.nl
                       ++ "vendor" ++ GitLog.nl)))
    by (right; now left).
  split; [split; [reflexivity | exact Hin]|].
  destruct (X24_code_view_of_listing Example.asciiText Example.sampleGit
              "1a2b3c4" _ "main.ts" eq_refl Hin) as (files & Hf & Hs & _).
  exists files. split; [exact Hf|]. split.
  - apply Hs. split; [reflexivity|]. exists [x6f; x6b]. now repeat split.
  - injection Hf as <-. reflexivity.
Defined.

(** ** The title line of a step file *)

Module QuoteFacts.
Import JS SyncData.

Lemma escapeQuotes_app (a b : string) :
  escapeQuotes (a ++ b) = escapeQuotes a ++ escapeQuotes b.
Proof.
  induction a as [|c a IH]; [reflexivity|]. simpl.
  rewrite IH. now destruct (Ascii.eqb c DQUOTE).
Qed.

End QuoteFacts.

(** X25 (quotes in the title of a step file).  In the title written to
    the frontmatter of a step file every double quote is preceded by a
    backslash, and the text never starts with a double quote.  Escaping
    distributes over concatenation and leaves a title without double
    quotes as it is.  Backslashes are not escaped: a title that ends
    with a backslash gives a quoted title that ends with a backslash
    and the closing double quote. *)
Theorem X25_title_quotes :
  (forall title i c,
     get (S i) (SyncData.escapeQuotes title) = Some c ->
     c = JS.DQUOTE ->
     get i (SyncData.escapeQuotes title) = Some "\"%char)
  /\ (forall title,
        get 0 (SyncData.escapeQuotes title) <> Some JS.DQUOTE)
  /\ (forall a b,
        SyncData.escapeQuotes (a ++ b)
        = SyncData.escapeQuotes a ++ SyncData.escapeQuotes b)
  /\ (forall title,
        GitLog.allChars (fun x => negb (Ascii.eqb x JS.DQUOTE)) title = true ->
        SyncData.escapeQuotes title = title)
  /\ (forall title,
        SyncData.quoted (SyncData.escapeQuotes (title ++ "\"))
        = String JS.DQUOTE (SyncData.escapeQuotes title)
          ++ String "\"%char (String JS.DQUOTE EmptyString)).
Proof.
  split; [|split; [|split; [|split]]].
  - intros title. induction title as [|x t IH]; intros i c H Hc; [discriminate|].
    subst c. simpl in H |- *.
    destruct (Ascii.eqb x JS.DQUOTE) eqn:Hx.
    + destruct i as [|i]; [reflexivity|]. simpl in H |- *.
      destruct i as [|i].
      * exfalso. specialize (IH 0). simpl in IH.
        destruct t as [|y t]; [discriminate|]. simpl in H.
        destruct (Ascii.eqb y JS.DQUOTE) eqn:Hy; simpl in H.
        -- discriminate.
        -- injection H as ->. now rewrite Ascii.eqb_refl in Hy.
      * apply (IH i JS.DQUOTE); [exact H | reflexivity].
    + simpl in H. destruct i as [|i].
      * exfalso. destruct t as [|y t]; [discriminate|]. simpl in H.
        destruct (Ascii.eqb y JS.DQUOTE) eqn:Hy; simpl in H.
        -- discriminate.
        -- injection H as ->. now rewrite Ascii.eqb_refl in Hy.
      * simpl. apply (IH i JS.DQUOTE); [exact H | reflexivity].
  - intros [|x t]; [discriminate|]. simpl.
    destruct (Ascii.eqb x JS.DQUOTE) eqn:Hx; simpl; [discriminate|].
    intros [= ->]. now rewrite Ascii.eqb_refl in Hx.
  - exact QuoteFacts.escapeQuotes_app.
  - intros title. induction title as [|x t IH]; [reflexivity|]. simpl.
    intros H. apply andb_true_iff in H as [Hx Ht].
    apply negb_true_iff in Hx. now rewrite Hx, IH.
  - intros title. unfold SyncData.quoted.
    rewrite QuoteFacts.escapeQuotes_app. simpl. f_equal.
    now rewrite JSFacts.append_assoc.
Qed.
